(** * Loyalty Lens: the transformation stage ([transform.py])

    A shallow embedding of [transform(data)] and of its nested
    [segment_customer(score)].

    Modelling conventions.
    - A DataFrame is the list of its rows, in row order; a row is a record
      whose fields are the columns, named after the renames of lines 27-35.
    - A nullable cell (NaN, NaT, None) is an [option]; [None] is the null.
    - Numeric cells are whole numbers ([Z]): the tables covered are
      those whose amounts, thresholds, rates and bonuses are integers of
      the int64 range, which pandas holds in int64 columns (in float64
      columns when the column has a null).  Fractional amounts and
      integers beyond int64 are not covered.
    - int64 arithmetic wraps around ([wrap64]): the accrual of lines
      83-86 and the grouped sums of lines 90 and 102.
    - The quotient of line 84 is a float64 division followed by the
      integer cast; [true_divide_trunc] computes it with the rounding to
      53 significant bits written out.  The left merge of line 91 turns
      the int64 totals into float64 when it leaves a null
      ([float_of_int]).
    - The tertile cut points of [pd.qcut] are kept as exact rationals
      ([quantile3]), where pandas interpolates in float64.
    - Dates are day numbers; [pd.to_datetime(..., errors="coerce")] has
      already been applied, so an unparsable date is [None].
    - A raised Python exception aborts the run: [transform] returns
      [Raise e] and no output table. *)

From Stdlib Require Import ZArith List String Bool Lia Permutation.
Import ListNotations.
Local Open Scope string_scope.
Local Open Scope Z_scope.

(** ** Exceptions and the result monad *)

Inductive exn : Type :=
| IntCastingNaNError   (* Series.astype(int) on a non-finite value *)
| BinEdgesMustBeUnique (* pd.qcut with duplicates="raise" *).

Inductive result (A : Type) : Type :=
| Ok (a : A)
| Raise (e : exn).
Arguments Ok {A} a.
Arguments Raise {A} e.

Definition bind {A B} (m : result A) (k : A -> result B) : result B :=
  match m with
  | Ok a => k a
  | Raise e => Raise e
  end.

Notation "x <- m ;; k" := (bind m (fun x => k))
  (at level 61, m at next level, right associativity).

Fixpoint mapM {A B} (f : A -> result B) (l : list A) : result (list B) :=
  match l with
  | [] => Ok []
  | a :: l' => b <- f a ;; bs <- mapM f l' ;; Ok (b :: bs)
  end.

Fixpoint foldM {A S} (f : S -> A -> result S) (l : list A) (s : S) : result S :=
  match l with
  | [] => Ok s
  | a :: l' => s' <- f s a ;; foldM f l' s'
  end.

(** ** Cells of an untyped (object) column *)

Inductive cell : Type :=
| CNull
| CBool (b : bool)
| CInt (z : Z)
| CStr (s : string).

(** [column == "..."]: elementwise comparison with a string literal. *)
Definition cell_eq_str (c : cell) (s : string) : bool :=
  match c with
  | CStr t => String.eqb t s
  | _ => false
  end.

(** Comparisons of a nullable numeric cell with a number; a null
    compares false. *)
Definition lt_cell (c : option Z) (z : Z) : bool :=
  match c with Some v => v <? z | None => false end.
Definition gt_cell (c : option Z) (z : Z) : bool :=
  match c with Some v => z <? v | None => false end.
Definition ge_cell (c : option Z) (z : Z) : bool :=
  match c with Some v => z <=? v | None => false end.

(** ** Tables *)

Module Customer.
Record t : Type := mk {
  customer_id : string;
  full_name : string;
  email : string;
  loyalty_status : string;
  total_loyalty_points : option Z;
  last_purchase_date : option Z;
  segment_id : string;
  phone : string;
  customer_since : string
}.
End Customer.

Module Product.
Record t : Type := mk {
  product_id : string;
  product_name : string;
  product_category : string;
  unit_price : option Z;
  current_stock : option Z
}.
End Product.

Module Store.
Record t : Type := mk {
  store_id : string;
  store_name : string;
  city : string;
  store_region : string;
  opening_date : string
}.
End Store.

Module Promotion.
Record t : Type := mk {
  promotion_id : string;
  rule_name : string;
  discount_percent : option Z;
  applicable_category : string;
  start_date : option Z;
  end_date : option Z
}.
End Promotion.

Module SalesHeader.
Record t : Type := mk {
  transaction_id : string;
  customer_id : string;
  store_id : string;
  transaction_date : option Z;
  total_amount : option Z;
  customer_phone : string
}.
End SalesHeader.

Module LineItem.
Record t : Type := mk {
  line_item_id : string;
  transaction_id : string;
  product_id : string;
  promotion_id : option string;
  quantity : option Z;
  line_item_amount : option Z
}.
End LineItem.

Module LoyaltyRule.
Record t : Type := mk {
  rule_id : Z;
  rule_name : string;
  points_per_unit_spend : Z;
  min_spend_threshold : Z;
  bonus_points : Z;
  is_active : cell
}.
End LoyaltyRule.

Module RFMRule.
Record t : Type := mk {
  segment_name : string;
  rfm_score_min : Z;
  rfm_score_max : Z
}.
End RFMRule.

(** The dictionary [data] handed to [transform]. *)
Record Data : Type := mkData {
  customers : list Customer.t;
  products : list Product.t;
  stores : list Store.t;
  promotions : list Promotion.t;
  sales_header : list SalesHeader.t;
  sales_line_items : list LineItem.t;
  loyalty_rules : list LoyaltyRule.t;
  rfm_rules : list RFMRule.t
}.

(** ** Data cleaning (lines 48-63) *)

(** Line 49: [products.loc[products["unit_price"] < 0, "unit_price"] = np.nan] *)
Definition null_negative_price (p : Product.t) : Product.t :=
  if lt_cell (Product.unit_price p) 0
  then Product.mk (Product.product_id p) (Product.product_name p)
         (Product.product_category p) None (Product.current_stock p)
  else p.

(** Line 50: [products.loc[products["current_stock"] < 0, "current_stock"] = 0] *)
Definition clamp_negative_stock (p : Product.t) : Product.t :=
  if lt_cell (Product.current_stock p) 0
  then Product.mk (Product.product_id p) (Product.product_name p)
         (Product.product_category p) (Product.unit_price p) (Some 0)
  else p.

Definition clean_products (ps : list Product.t) : list Product.t :=
  map clamp_negative_stock (map null_negative_price ps).

(** Line 52: [sales_header[sales_header["total_amount"] >= 0]] *)
Definition clean_sales_header (hs : list SalesHeader.t) : list SalesHeader.t :=
  filter (fun h => ge_cell (SalesHeader.total_amount h) 0) hs.

(** [Series.isin(values)] on a string column. *)
Definition isin (k : string) (values : list string) : bool :=
  existsb (String.eqb k) values.

(** Lines 53-63: quantity filter, product reference filter, then the
    orphan filter against the header table as filtered on line 52. *)
Definition clean_line_items (ps : list Product.t) (hs : list SalesHeader.t)
    (ls : list LineItem.t) : list LineItem.t :=
  let ls1 := filter (fun l => gt_cell (LineItem.quantity l) 0) ls in
  let ls2 := filter (fun l =>
               isin (LineItem.product_id l) (map Product.product_id ps)) ls1 in
  filter (fun l =>
    isin (LineItem.transaction_id l) (map SalesHeader.transaction_id hs)) ls2.

(** ** Fact table (lines 66-69) *)

(** [left.merge(right, how="inner")]: each left row paired with every right
    row of equal key, left order kept. *)
Definition merge_inner {A B} (same_key : A -> B -> bool)
    (left : list A) (right : list B) : list (A * B) :=
  flat_map (fun a => map (pair a) (filter (same_key a) right)) left.

(** [left.merge(right, how="left")]: as above, and a left row without a
    partner is kept once with null right-hand columns. *)
Definition merge_left {A B} (same_key : A -> B -> bool)
    (left : list A) (right : list B) : list (A * option B) :=
  flat_map (fun a =>
    match filter (same_key a) right with
    | [] => [(a, None)]
    | bs => map (fun b => (a, Some b)) bs
    end) left.

Module FactRow.
Record t : Type := mk {
  line : LineItem.t;
  header : SalesHeader.t;
  product : option Product.t;
  promotion : option Promotion.t
}.
End FactRow.

Definition same_transaction (l : LineItem.t) (h : SalesHeader.t) : bool :=
  String.eqb (LineItem.transaction_id l) (SalesHeader.transaction_id h).

Definition same_product (lh : LineItem.t * SalesHeader.t) (p : Product.t) : bool :=
  String.eqb (LineItem.product_id (fst lh)) (Product.product_id p).

Definition same_promotion
    (lhp : LineItem.t * SalesHeader.t * option Product.t)
    (q : Promotion.t) : bool :=
  match LineItem.promotion_id (fst (fst lhp)) with
  | Some k => String.eqb k (Promotion.promotion_id q)
  | None => false
  end.

Definition build_fact_sales (ls : list LineItem.t) (hs : list SalesHeader.t)
    (ps : list Product.t) (qs : list Promotion.t) : list FactRow.t :=
  map (fun r => FactRow.mk (fst (fst (fst r))) (snd (fst (fst r)))
                           (snd (fst r)) (snd r))
      (merge_left same_promotion
         (merge_left same_product (merge_inner same_transaction ls hs) ps) qs).

(** ** Dynamic loyalty engine (lines 73-87) *)

(** A row of [sales_header] once the column [earned_points] exists. *)
Module ScoredHeader.
Record t : Type := mk {
  row : SalesHeader.t;
  earned_points : Z
}.
End ScoredHeader.

(** Line 77: [sales_header["earned_points"] = 0] *)
Definition init_points (hs : list SalesHeader.t) : list ScoredHeader.t :=
  map (fun h => ScoredHeader.mk h 0) hs.

(** *** int64 and float64 arithmetic *)

Definition int64_min : Z := - 2 ^ 63.
Definition int64_max : Z := 2 ^ 63 - 1.

(** The value an int64 operation stores: the result modulo [2 ^ 64],
    taken in [int64_min .. int64_max]. *)
Definition wrap64 (z : Z) : Z := (z + 2 ^ 63) mod 2 ^ 64 - 2 ^ 63.

(** A positive ratio [n / d] scaled by [2 ^ s]: numerator and
    denominator of [n * 2 ^ s / d]. *)
Definition scaled_num (n s : Z) : Z := if 0 <=? s then n * 2 ^ s else n.
Definition scaled_den (d s : Z) : Z := if 0 <=? s then d else d * 2 ^ (- s).

(** The scale that brings [n / d] into [2 ^ 52, 2 ^ 53): the position of
    the last of the 53 significant bits of a float64. *)
Definition shift53 (n d : Z) : Z :=
  let s0 := 52 - (Z.log2 n - Z.log2 d) in
  if 2 ^ 52 * scaled_den d s0 <=? scaled_num n s0 then s0 else s0 + 1.

(** [N / D] rounded to the nearest integer, ties to even. *)
Definition round_half_even (N D : Z) : Z :=
  let q := N / D in
  let r := N mod D in
  if 2 * r <? D then q
  else if D <? 2 * r then q + 1
  else if Z.even q then q else q + 1.

(** The float64 nearest to [n / d] for positive [n] and [d], then its
    integer part. *)
Definition float_ratio_trunc (n d : Z) : Z :=
  let s := shift53 n d in
  let m := round_half_even (scaled_num n s) (scaled_den d s) in
  if 0 <=? s then m / 2 ^ s else m * 2 ^ (- s).

(** The float64 nearest to the integer [a] (itself an integer). *)
Definition float_of_int (a : Z) : Z :=
  if a =? 0 then 0 else Z.sgn a * float_ratio_trunc (Z.abs a) 1.

(** Integer part of the float64 quotient [a / b] of two int64 values,
    [b] not zero: both operands are converted to float64 first. *)
Definition true_divide_trunc (a b : Z) : Z :=
  let x := float_of_int a in
  let y := float_of_int b in
  if x =? 0 then 0
  else Z.sgn x * Z.sgn y * float_ratio_trunc (Z.abs x) (Z.abs y).

(** The cast of a finite float64 to int64: the integer part when it
    fits; what an out-of-range cast gives depends on the hardware, the
    minimum on x86-64. *)
Definition astype_int64 (v : Z) : Z :=
  if (int64_min <=? v) && (v <=? int64_max) then v else int64_min.

(** [(total_amount / min_spend_threshold).astype(int)] on one element:
    float64 division, then the integer cast, which truncates toward zero
    and raises on a non-finite quotient, that is on a zero divisor. *)
Definition div_astype_int (amount threshold : Z) : result Z :=
  if threshold =? 0 then Raise IntCastingNaNError
  else Ok (astype_int64 (true_divide_trunc amount threshold)).

(** Lines 81-87 on one row: rows outside [condition] are left alone; the
    product, the sum and the update are int64 operations. *)
Definition apply_rule_row (rule : LoyaltyRule.t) (h : ScoredHeader.t)
    : result ScoredHeader.t :=
  match SalesHeader.total_amount (ScoredHeader.row h) with
  | Some amount =>
      if LoyaltyRule.min_spend_threshold rule <=? amount then
        q <- div_astype_int amount (LoyaltyRule.min_spend_threshold rule) ;;
        Ok (ScoredHeader.mk (ScoredHeader.row h)
              (wrap64 (ScoredHeader.earned_points h
                       + wrap64 (wrap64 (q * LoyaltyRule.points_per_unit_spend rule)
                                 + LoyaltyRule.bonus_points rule))))
      else Ok h
  | None => Ok h
  end.

(** The body of the loop for one rule, over the whole column. *)
Definition apply_rule (hs : list ScoredHeader.t) (rule : LoyaltyRule.t)
    : result (list ScoredHeader.t) :=
  mapM (apply_rule_row rule) hs.

(** Line 80: [loyalty_rules[loyalty_rules["is_active"] == "TRUE"]] *)
Definition rule_is_active (rule : LoyaltyRule.t) : bool :=
  cell_eq_str (LoyaltyRule.is_active rule) "TRUE".

Definition active_rules (rules : list LoyaltyRule.t) : list LoyaltyRule.t :=
  filter rule_is_active rules.

Definition loyalty_engine (rules : list LoyaltyRule.t)
    (hs : list SalesHeader.t) : result (list ScoredHeader.t) :=
  foldM apply_rule (active_rules rules) (init_points hs).

(** ** Points per customer (lines 89-93) *)

(** The exact sum of a list of integers. *)
Definition sum_Z (l : list Z) : Z := fold_right Z.add 0 l.

(** [sum()] of an int64 column: each addition wraps. *)
Definition sum_int64 (l : list Z) : Z :=
  fold_left (fun acc x => wrap64 (acc + x)) l 0.

(** The keys of a [groupby]: distinct, in ascending order. *)
Fixpoint insert_key (k : string) (ks : list string) : list string :=
  match ks with
  | [] => [k]
  | k' :: ks' =>
      match String.compare k k' with
      | Lt => k :: ks
      | Eq => ks
      | Gt => k' :: insert_key k ks'
      end
  end.

Definition group_keys (ks : list string) : list string :=
  fold_right insert_key [] ks.

Definition rows_of_customer (k : string) (hs : list ScoredHeader.t)
    : list ScoredHeader.t :=
  filter (fun h => String.eqb (SalesHeader.customer_id (ScoredHeader.row h)) k) hs.

(** Line 90: [groupby("customer_id")["earned_points"].sum().reset_index()] *)
Definition points_by_customer (hs : list ScoredHeader.t) : list (string * Z) :=
  map (fun k => (k, sum_int64 (map ScoredHeader.earned_points
                                  (rows_of_customer k hs))))
      (group_keys (map (fun h => SalesHeader.customer_id (ScoredHeader.row h)) hs)).

(** A row of [customers] once the column [earned_points] exists. *)
Module CustomerOut.
Record t : Type := mk {
  base : Customer.t;
  earned_points : option Z
}.
End CustomerOut.

Definition same_customer_points (c : Customer.t) (p : string * Z) : bool :=
  String.eqb (Customer.customer_id c) (fst p).

Definition is_null {A} (c : option A) : bool :=
  match c with Some _ => false | None => true end.

(** Line 91: [customers.merge(points, on="customer_id", how="left")].
    When some customer finds no partner the merged column holds a null
    and becomes float64: the int64 totals are converted. *)
Definition merge_points (cs : list Customer.t) (points : list (string * Z))
    : list CustomerOut.t :=
  let merged := merge_left same_customer_points cs points in
  let upcast := existsb (fun cp => is_null (snd cp)) merged in
  map (fun cp =>
         CustomerOut.mk (fst cp)
           (option_map (fun p => if upcast then float_of_int (snd p) else snd p)
                       (snd cp)))
      merged.

(** Line 92: [customers["earned_points"].fillna(0, inplace=True)], when
    the selected column shares its data with the frame, which then sees
    the fill (pandas before 3.0). *)
Definition fillna_earned_points (cs : list CustomerOut.t) : list CustomerOut.t :=
  map (fun c => CustomerOut.mk (CustomerOut.base c)
                  (Some (match CustomerOut.earned_points c with
                         | Some v => v
                         | None => 0
                         end))) cs.

Definition set_total_loyalty_points (c : Customer.t) (v : option Z) : Customer.t :=
  Customer.mk (Customer.customer_id c) (Customer.full_name c) (Customer.email c)
    (Customer.loyalty_status c) v (Customer.last_purchase_date c)
    (Customer.segment_id c) (Customer.phone c) (Customer.customer_since c).

(** Line 93: [customers["total_loyalty_points"] = customers["earned_points"]] *)
Definition assign_total_loyalty_points (cs : list CustomerOut.t)
    : list CustomerOut.t :=
  map (fun c => CustomerOut.mk
                  (set_total_loyalty_points (CustomerOut.base c)
                     (CustomerOut.earned_points c))
                  (CustomerOut.earned_points c)) cs.

Definition update_points (cs : list Customer.t) (hs : list ScoredHeader.t)
    : list CustomerOut.t :=
  assign_total_loyalty_points
    (fillna_earned_points (merge_points cs (points_by_customer hs))).

(** Line 92 fills a column selected from the frame.  Whether the frame
    sees the fill depends on the pandas that runs the stage, and [src/]
    pins none: before 3.0 the selection shares its data with the frame;
    from 3.0 on (copy-on-write) the selection is a temporary and the
    frame keeps its nulls. *)
Inductive fill_mode : Type :=
| FillReachesFrame
| CopyOnWrite.

Definition fillna_earned_points_under (mode : fill_mode)
    (cs : list CustomerOut.t) : list CustomerOut.t :=
  match mode with
  | FillReachesFrame => fillna_earned_points cs
  | CopyOnWrite => cs
  end.

Definition update_points_under (mode : fill_mode) (cs : list Customer.t)
    (hs : list ScoredHeader.t) : list CustomerOut.t :=
  assign_total_loyalty_points
    (fillna_earned_points_under mode (merge_points cs (points_by_customer hs))).

(** ** RFM analytics (lines 95-110) *)

(** [Series.max()] of a date column: nulls skipped, null when none is left. *)
Definition max_date (ds : list (option Z)) : option Z :=
  fold_right (fun d acc =>
    match d, acc with
    | Some x, Some y => Some (Z.max x y)
    | Some x, None => Some x
    | None, _ => acc
    end) None ds.

(** Line 96 *)
Definition snapshot_date (hs : list SalesHeader.t) : option Z :=
  option_map (Z.add 1) (max_date (map SalesHeader.transaction_date hs)).

(** Line 99: [(snapshot_date - x.max()).days], null when either is. *)
Definition recency_of (snapshot : option Z) (group : list SalesHeader.t)
    : option Z :=
  match snapshot, max_date (map SalesHeader.transaction_date group) with
  | Some s, Some m => Some (s - m)
  | _, _ => None
  end.

Module RFMMetrics.
Record t : Type := mk {
  customer_id : string;
  recency : option Z;
  frequency : Z;
  monetary : Z
}.
End RFMMetrics.

Definition transactions_of (k : string) (hs : list SalesHeader.t)
    : list SalesHeader.t :=
  filter (fun h => String.eqb (SalesHeader.customer_id h) k) hs.

Definition amount_or_zero (h : SalesHeader.t) : Z :=
  match SalesHeader.total_amount h with Some a => a | None => 0 end.

(** Lines 98-104: one row per customer id present in [sales_header].
    The sum of [total_amount] is the int64 sum of a column without nulls;
    below [2 ^ 53] the float64 sum of a column with nulls is the same. *)
Definition rfm_metrics (hs : list SalesHeader.t) : list RFMMetrics.t :=
  let snapshot := snapshot_date hs in
  map (fun k =>
         let group := transactions_of k hs in
         RFMMetrics.mk k (recency_of snapshot group)
           (Z.of_nat (List.length group))
           (sum_int64 (map amount_or_zero group)))
      (group_keys (map SalesHeader.customer_id hs)).

(** *** Tertile binning: [pd.qcut(x, 3, labels=...)] *)

Fixpoint insert_sorted (x : Z) (l : list Z) : list Z :=
  match l with
  | [] => [x]
  | y :: l' => if x <=? y then x :: l else y :: insert_sorted x l'
  end.

Definition sort_Z (l : list Z) : list Z := fold_right insert_sorted [] l.

Definition dropna (l : list (option Z)) : list Z :=
  flat_map (fun c => match c with Some v => [v] | None => [] end) l.

(** Three times the quantile of order [k]/3 of the sorted values [xs],
    by linear interpolation: with [k * (n - 1) = 3 * i + r] it is
    [xs[i] + (r / 3) * (xs[i + 1] - xs[i])].  Keeping the factor 3 keeps
    the cut points integral. *)
Definition quantile3 (xs : list Z) (k : nat) : Z :=
  let pos := (k * (List.length xs - 1))%nat in
  let i := (pos / 3)%nat in
  let r := Z.of_nat (pos mod 3) in
  let a := nth i xs 0 in
  let b := nth (S i) xs a in
  (3 - r) * a + r * b.

(** The four bin edges (times 3) for [q = 3]: quantiles 0, 1/3, 2/3, 1. *)
Definition bin_edges3 (xs : list Z) : list Z :=
  map (quantile3 xs) [0%nat; 1%nat; 2%nat; 3%nat].

(** [len(unique_bins) < len(bins)] *)
Fixpoint has_duplicates (l : list Z) : bool :=
  match l with
  | [] => false
  | x :: l' => existsb (Z.eqb x) l' || has_duplicates l'
  end.

(** [bins.searchsorted(x, side="left")]: how many edges lie strictly
    below [x]. *)
Definition searchsorted_left (edges3 : list Z) (x : Z) : nat :=
  List.length (filter (fun e => e <? 3 * x) edges3).

(** [ids[x == bins[0]] = 1] (include_lowest). *)
Definition bin_id (edges3 : list Z) (x : Z) : nat :=
  if hd 0 edges3 =? 3 * x then 1%nat else searchsorted_left edges3 x.

(** [na_mask] and [take_nd(labels, ids - 1)] *)
Definition label_of (labels : list Z) (edges3 : list Z) (id : nat) : option Z :=
  if (id =? 0)%nat || (id =? List.length edges3)%nat then None
  else nth_error labels (id - 1).

Definition qcut (xs : list (option Z)) (labels : list Z)
    : result (list (option Z)) :=
  let edges3 := bin_edges3 (sort_Z (dropna xs)) in
  if has_duplicates edges3 then Raise BinEdgesMustBeUnique
  else Ok (map (fun c =>
                  match c with
                  | Some x => label_of labels edges3 (bin_id edges3 x)
                  | None => None
                  end) xs).

(** [Series.rank(method="first")]: rank 1..n, equal values ranked in the
    order they appear. *)
Fixpoint rank_first_from (before all rest : list Z) : list Z :=
  match rest with
  | [] => []
  | x :: rest' =>
      (1 + Z.of_nat (List.length (filter (fun y => y <? x) all))
         + Z.of_nat (List.length (filter (Z.eqb x) before)))
      :: rank_first_from (x :: before) all rest'
  end.

Definition rank_first (xs : list Z) : list Z := rank_first_from [] xs xs.

(** ** Dynamic segmentation (lines 112-122) *)

(** Lines 113-120 *)
Definition segment_customer (rules : list RFMRule.t) (score : Z) : string :=
  let rule := filter (fun r => (RFMRule.rfm_score_min r <=? score)
                               && (RFMRule.rfm_score_max r >=? score)) rules in
  match rule with
  | r :: _ => RFMRule.segment_name r
  | [] => "Unclassified"
  end.

Module RFMRow.
Record t : Type := mk {
  metrics : RFMMetrics.t;
  R : option Z;
  F : option Z;
  M : option Z;
  RFM_Score : Z;
  segment : string
}.
End RFMRow.

(** The three rank columns are categorical; their row sum is taken over
    their common dtype, int64, in which a null rank is the minimum. *)
Definition rank_as_int64 (c : option Z) : Z :=
  match c with Some v => v | None => int64_min end.

(** Line 110: [rfm[["R","F","M"]].sum(axis=1).astype(int)] *)
Definition rfm_score (r f m : option Z) : Z :=
  wrap64 (rank_as_int64 r + rank_as_int64 f + rank_as_int64 m).

Fixpoint zip4 {A B C D} (la : list A) (lb : list B) (lc : list C) (ld : list D)
    : list (A * B * C * D) :=
  match la, lb, lc, ld with
  | a :: la', b :: lb', c :: lc', d :: ld' => (a, b, c, d) :: zip4 la' lb' lc' ld'
  | _, _, _, _ => []
  end.

(** Lines 107-122 *)
Definition rfm_analytics (rules : list RFMRule.t) (hs : list SalesHeader.t)
    : result (list RFMRow.t) :=
  let rfm := rfm_metrics hs in
  Rs <- qcut (map RFMMetrics.recency rfm) [3; 2; 1] ;;
  Fs <- qcut (map Some (rank_first (map RFMMetrics.frequency rfm))) [1; 2; 3] ;;
  Ms <- qcut (map (fun x => Some (RFMMetrics.monetary x)) rfm) [1; 2; 3] ;;
  Ok (map (fun x =>
             match x with
             | (mt, r, f, m) =>
                 let score := rfm_score r f m in
                 RFMRow.mk mt r f m score (segment_customer rules score)
             end)
          (zip4 rfm Rs Fs Ms)).

(** ** The whole stage *)

Definition same_customer_rfm (c : CustomerOut.t) (x : RFMRow.t) : bool :=
  String.eqb (Customer.customer_id (CustomerOut.base c))
             (RFMMetrics.customer_id (RFMRow.metrics x)).

Record Output : Type := mkOutput {
  out_customers : list CustomerOut.t;
  out_products : list Product.t;
  out_stores : list Store.t;
  out_promotions : list Promotion.t;
  fact_sales : list FactRow.t;
  customer_loyalty_segments : list (CustomerOut.t * option RFMRow.t)
}.

(** The tables after the cleaning block, and the fact table built from
    them. *)
Definition cleaned_products (data : Data) : list Product.t :=
  clean_products (products data).

Definition cleaned_sales_header (data : Data) : list SalesHeader.t :=
  clean_sales_header (sales_header data).

Definition cleaned_line_items (data : Data) : list LineItem.t :=
  clean_line_items (cleaned_products data) (cleaned_sales_header data)
    (sales_line_items data).

Definition fact_table (data : Data) : list FactRow.t :=
  build_fact_sales (cleaned_line_items data) (cleaned_sales_header data)
    (cleaned_products data) (promotions data).

(** [transform(data)] when the fill of line 92 reaches the frame. *)
Definition transform (data : Data) : result Output :=
  let fact_sales := fact_table data in
  scored <- loyalty_engine (loyalty_rules data) (cleaned_sales_header data) ;;
  let customers := update_points (customers data) scored in
  rfm <- rfm_analytics (rfm_rules data) (map ScoredHeader.row scored) ;;
  Ok (mkOutput customers (cleaned_products data) (stores data)
        (promotions data) fact_sales
        (merge_left same_customer_rfm customers rfm)).

(** The stage under either behaviour of line 92. *)
Definition transform_under (mode : fill_mode) (data : Data) : result Output :=
  let fact_sales := fact_table data in
  scored <- loyalty_engine (loyalty_rules data) (cleaned_sales_header data) ;;
  let customers := update_points_under mode (customers data) scored in
  rfm <- rfm_analytics (rfm_rules data) (map ScoredHeader.row scored) ;;
  Ok (mkOutput customers (cleaned_products data) (stores data)
        (promotions data) fact_sales
        (merge_left same_customer_rfm customers rfm)).

(** ** A second reading of the classifier, following the specification:
    scan the rule table in order and stop at the first rule whose
    inclusive range holds the score. *)
Definition in_range (r : RFMRule.t) (score : Z) : bool :=
  (RFMRule.rfm_score_min r <=? score) && (score <=? RFMRule.rfm_score_max r).

Fixpoint first_match_scan (rules : list RFMRule.t) (score : Z) : string :=
  match rules with
  | [] => "Unclassified"
  | r :: rules' =>
      if in_range r score then RFMRule.segment_name r
      else first_match_scan rules' score
  end.

(** The accrual formula as the specification words it, on exact
    integers; its [floor] is the truncation toward zero ([Z.quot]). *)
Definition spec_rule_points (rule : LoyaltyRule.t) (amount : Z) : Z :=
  if LoyaltyRule.min_spend_threshold rule <=? amount
  then Z.quot amount (LoyaltyRule.min_spend_threshold rule)
       * LoyaltyRule.points_per_unit_spend rule
       + LoyaltyRule.bonus_points rule
  else 0.

Definition spec_earned_points (rules : list LoyaltyRule.t) (amount : Z) : Z :=
  sum_Z (map (fun r => spec_rule_points r amount) (active_rules rules)).

(** ** The loop body as a pure update

    What one pass of the loop does to a row when the cast succeeds:
    [code_rule_points] is the int64 increment the code computes, from the
    float64 quotient. *)
Definition code_rule_points (rule : LoyaltyRule.t) (amount : Z) : Z :=
  if LoyaltyRule.min_spend_threshold rule <=? amount
  then wrap64
         (wrap64 (astype_int64
                    (true_divide_trunc amount (LoyaltyRule.min_spend_threshold rule))
                  * LoyaltyRule.points_per_unit_spend rule)
          + LoyaltyRule.bonus_points rule)
  else 0.

Definition row_points (rule : LoyaltyRule.t) (h : SalesHeader.t) : Z :=
  match SalesHeader.total_amount h with
  | Some amount => code_rule_points rule amount
  | None => 0
  end.

Definition selects (rule : LoyaltyRule.t) (h : SalesHeader.t) : bool :=
  match SalesHeader.total_amount h with
  | Some amount => LoyaltyRule.min_spend_threshold rule <=? amount
  | None => false
  end.

Definition accrue (rule : LoyaltyRule.t) (h : ScoredHeader.t) : ScoredHeader.t :=
  if selects rule (ScoredHeader.row h)
  then ScoredHeader.mk (ScoredHeader.row h)
         (wrap64 (ScoredHeader.earned_points h
                  + row_points rule (ScoredHeader.row h)))
  else h.

(** All passes at once: the int64 image of the starting value plus the
    exact sum of the increments. *)
Definition accrue_all (rules : list LoyaltyRule.t) (hs : list ScoredHeader.t)
    : list ScoredHeader.t :=
  map (fun h => ScoredHeader.mk (ScoredHeader.row h)
                  (wrap64
                     (ScoredHeader.earned_points h
                      + sum_Z (map (fun r => row_points r (ScoredHeader.row h))
                                   rules))))
      hs.

(** The points of a whole snapshot by the specification's formula, added
    exactly. *)
Definition snapshot_points (rules : list LoyaltyRule.t)
    (hs : list SalesHeader.t) : Z :=
  sum_Z (map (fun h => spec_earned_points rules (amount_or_zero h)) hs).

(** Values an int64 cell can hold. *)
Definition in_int64 (z : Z) : Prop := int64_min <= z <= int64_max.

(** Integers that float64 holds exactly, whatever their last bit. *)
Definition exact_in_float64 (z : Z) : Prop := - 2 ^ 53 < z < 2 ^ 53.

Definition has_zero_threshold (rules : list LoyaltyRule.t) : bool :=
  existsb (fun r => LoyaltyRule.min_spend_threshold r =? 0) rules.

Definition is_empty {A} (l : list A) : bool :=
  match l with [] => true | _ :: _ => false end.

(** Rows whose amount is present and not negative, as line 52 leaves
    them. *)
Definition amount_ok (h : SalesHeader.t) : Prop :=
  exists a, SalesHeader.total_amount h = Some a /\ 0 <= a.

(** ** The recomputed total of a customer

    [customer_total] is the exact sum of [earned_points] over the scored
    transactions of customer [k].  [stored_points] is what lines 90-93
    leave in the customer's row: the int64 group sum, converted to
    float64 when the merge left a null somewhere in the column, and for a
    customer without transactions the fill or the null. *)
Definition customer_total (k : string) (scored : list ScoredHeader.t) : Z :=
  sum_Z (map ScoredHeader.earned_points (rows_of_customer k scored)).

Definition has_transaction (k : string) (scored : list ScoredHeader.t) : bool :=
  negb (is_empty (rows_of_customer k scored)).

Definition leaves_null (cs : list Customer.t) (scored : list ScoredHeader.t)
    : bool :=
  existsb (fun c => negb (has_transaction (Customer.customer_id c) scored)) cs.

Definition merged_total (upcast : bool) (k : string)
    (scored : list ScoredHeader.t) : Z :=
  let total :=
    sum_int64 (map ScoredHeader.earned_points (rows_of_customer k scored)) in
  if upcast then float_of_int total else total.

Definition unfilled (mode : fill_mode) : option Z :=
  match mode with
  | FillReachesFrame => Some 0
  | CopyOnWrite => None
  end.

Definition stored_points (mode : fill_mode) (cs : list Customer.t)
    (scored : list ScoredHeader.t) (k : string) : option Z :=
  if has_transaction k scored
  then Some (merged_total (leaves_null cs scored) k scored)
  else unfilled mode.

Definition credited (mode : fill_mode) (cs : list Customer.t)
    (scored : list ScoredHeader.t) (c : Customer.t) : CustomerOut.t :=
  let total := stored_points mode cs scored (Customer.customer_id c) in
  CustomerOut.mk (set_total_loyalty_points c total) total.

(** A null total counts for nothing in a sum. *)
Definition nan_to_zero (c : option Z) : Z :=
  match c with Some v => v | None => 0 end.

(** Keys in strictly ascending order. *)
Fixpoint ascending (ks : list string) : Prop :=
  match ks with
  | [] => True
  | k :: ks' => Forall (fun k' => String.compare k k' = Lt) ks' /\ ascending ks'
  end.

(** Values in ascending order, repetitions allowed. *)
Fixpoint nondecreasing (l : list Z) : Prop :=
  match l with
  | [] => True
  | x :: l' => Forall (Z.le x) l' /\ nondecreasing l'
  end.

(** ** Sample tables *)

Module Sample.

Definition rule_A : LoyaltyRule.t := LoyaltyRule.mk 1 "A" 5 100 10 (CStr "TRUE").
Definition rule_B : LoyaltyRule.t := LoyaltyRule.mk 2 "B" 1 50 0 (CStr "TRUE").
Definition rule_negative : LoyaltyRule.t :=
  LoyaltyRule.mk 3 "N" 5 (-100) 10 (CStr "TRUE").
Definition rule_zero : LoyaltyRule.t :=
  LoyaltyRule.mk 4 "Z" 5 0 10 (CStr "TRUE").
Definition rule_flag (flag : cell) : LoyaltyRule.t :=
  LoyaltyRule.mk 5 "F" 5 100 10 flag.
Definition rule_unit : LoyaltyRule.t :=
  LoyaltyRule.mk 6 "U" 1 1 0 (CStr "TRUE").
Definition rule_W : LoyaltyRule.t :=
  LoyaltyRule.mk 7 "W" 5 1 0 (CStr "TRUE").

Definition gold : RFMRule.t := RFMRule.mk "Gold" 6 9.
Definition platinum : RFMRule.t := RFMRule.mk "Platinum" 7 8.

Definition txn (t c : string) (date : option Z) (amount : Z) : SalesHeader.t :=
  SalesHeader.mk t c "S1" date (Some amount) "555".

Definition customer (k : string) (stored_points : Z) : Customer.t :=
  Customer.mk k "name" "mail" "Silver" (Some stored_points) None "SEG" "555"
    "2020-01-01".

Definition product (k : string) (price stock : Z) : Product.t :=
  Product.mk k "item" "category" (Some price) (Some stock).

Definition item (k t p : string) (q : Z) : LineItem.t :=
  LineItem.mk k t p None (Some q) (Some 10).

(** Three customers with one transaction each, and a fourth customer
    without any; one header has a negative amount. *)
Definition headers : list SalesHeader.t :=
  [ txn "T1" "C1" (Some 3) 250; txn "T2" "C2" (Some 5) 120;
    txn "T3" "C3" (Some 9) 40; txn "T4" "C1" (Some 9) (-10) ].

Definition data : Data :=
  mkData
    [customer "C1" 77; customer "C2" 0; customer "C3" 5; customer "C4" 900]
    [product "P1" (-5) (-3); product "P2" 20 7]
    []
    []
    headers
    [ item "L1" "T1" "P1" 1; item "L2" "T999" "P1" 1; item "L3" "T4" "P2" 2 ]
    [rule_A; rule_B]
    [gold; platinum].

Definition with_rules (rules : list LoyaltyRule.t) (d : Data) : Data :=
  mkData (customers d) (products d) (stores d) (promotions d)
    (sales_header d) (sales_line_items d) rules (rfm_rules d).

Definition with_headers (hs : list SalesHeader.t) (d : Data) : Data :=
  mkData (customers d) (products d) (stores d) (promotions d)
    hs (sales_line_items d) (loyalty_rules d) (rfm_rules d).




(** The only transaction of customer C1 has an unparsable date. *)
Definition undated : Data :=
  with_headers
    [txn "T1" "C1" None 10; txn "T2" "C2" (Some 5) 20; txn "T3" "C3" (Some 9) 30]
    data.

End Sample.

(** ** The tables as they stand after the cleaning block (line 63) *)
Definition clean_data (data : Data) : Data :=
  mkData (customers data) (cleaned_products data) (stores data)
    (promotions data) (cleaned_sales_header data) (cleaned_line_items data)
    (loyalty_rules data) (rfm_rules data).

(** A rule as the rule table is meant to hold it: a positive threshold,
    and no negative rate or bonus. *)
Definition well_formed_rule (r : LoyaltyRule.t) : Prop :=
  0 < LoyaltyRule.min_spend_threshold r
  /\ 0 <= LoyaltyRule.points_per_unit_spend r
  /\ 0 <= LoyaltyRule.bonus_points r.

(** The bin of a value within a column: [ids] of [pd.qcut] before the
    labels are taken. *)
Definition bin_of (xs : list (option Z)) (x : Z) : nat :=
  bin_id (bin_edges3 (sort_Z (dropna xs))) x.


(** The rank [pd.qcut] gives to a cell of column [xs]. *)
Definition rank_in (labels : list Z) (xs : list (option Z)) (c : option Z)
    : option Z :=
  match c with
  | Some x => label_of labels (bin_edges3 (sort_Z (dropna xs))) (bin_of xs x)
  | None => None
  end.

(** ** The stage on a dictionary that may lack tables

    [extract_raw_data] leaves out the key of a file it did not find, and
    [data.get(...)] (lines 15-22) then yields [None].  The first use of a
    [None] raises: [AttributeError] for a method call ([.rename]),
    [TypeError] for a subscript. *)

Record Tables : Type := mkTables {
  get_customers : option (list Customer.t);
  get_products : option (list Product.t);
  get_stores : option (list Store.t);
  get_promotions : option (list Promotion.t);
  get_sales_header : option (list SalesHeader.t);
  get_sales_line_items : option (list LineItem.t);
  get_loyalty_rules : option (list LoyaltyRule.t);
  get_rfm_rules : option (list RFMRule.t)
}.

Inductive failure : Type :=
| AttributeError (table : string)
| TypeError (table : string)
| Raised (e : exn).

Inductive outcome (A : Type) : Type :=
| Done (a : A)
| Failed (f : failure).
Arguments Done {A} a.
Arguments Failed {A} f.

Definition and_then {A B} (m : outcome A) (k : A -> outcome B) : outcome B :=
  match m with
  | Done a => k a
  | Failed f => Failed f
  end.

Notation "x <~ m ;; k" := (and_then m (fun x => k))
  (at level 61, m at next level, right associativity).

Definition require {A} (f : failure) (o : option A) : outcome A :=
  match o with
  | Some a => Done a
  | None => Failed f
  end.

Definition lift {A} (r : result A) : outcome A :=
  match r with
  | Ok a => Done a
  | Raise e => Failed (Raised e)
  end.

Fixpoint for_each {A B} (f : A -> outcome B) (l : list A) : outcome (list B) :=
  match l with
  | [] => Done []
  | a :: l' => b <~ f a ;; bs <~ for_each f l' ;; Done (b :: bs)
  end.

(** Lines 107-109: the three binnings, before the score and the segment. *)
Definition rfm_ranked (hs : list SalesHeader.t)
    : result (list (RFMMetrics.t * option Z * option Z * option Z)) :=
  let rfm := rfm_metrics hs in
  Rs <- qcut (map RFMMetrics.recency rfm) [3; 2; 1] ;;
  Fs <- qcut (map Some (rank_first (map RFMMetrics.frequency rfm))) [1; 2; 3] ;;
  Ms <- qcut (map (fun x => Some (RFMMetrics.monetary x)) rfm) [1; 2; 3] ;;
  Ok (zip4 rfm Rs Fs Ms).

(** Lines 113-120 with [rfm_rules] possibly [None]: the subscript
    [rfm_rules["rfm_score_min"]] raises on each call. *)
Definition segment_customer_in (rules : option (list RFMRule.t)) (score : Z)
    : outcome string :=
  match rules with
  | Some rs => Done (segment_customer rs score)
  | None => Failed (TypeError "rfm_rules")
  end.

(** Lines 110-122 on one row: the score, then [apply(segment_customer)]. *)
Definition score_and_segment (rules : option (list RFMRule.t))
    (x : RFMMetrics.t * option Z * option Z * option Z) : outcome RFMRow.t :=
  match x with
  | (mt, r, f, m) =>
      let score := rfm_score r f m in
      seg <~ segment_customer_in rules score ;;
      Done (RFMRow.mk mt r f m score seg)
  end.

Definition transform_dict (d : Tables) : outcome Output :=
  customers <~ require (AttributeError "customers") (get_customers d) ;;
  products <~ require (AttributeError "products") (get_products d) ;;
  stores <~ require (AttributeError "stores") (get_stores d) ;;
  promotions <~ require (AttributeError "promotions") (get_promotions d) ;;
  sales_header <~ require (TypeError "sales_header") (get_sales_header d) ;;
  let products := clean_products products in
  let sales_header := clean_sales_header sales_header in
  sales_line_items <~
    require (TypeError "sales_line_items") (get_sales_line_items d) ;;
  let sales_line_items :=
    clean_line_items products sales_header sales_line_items in
  let fact_sales :=
    build_fact_sales sales_line_items sales_header products promotions in
  loyalty_rules <~ require (TypeError "loyalty_rules") (get_loyalty_rules d) ;;
  scored <~ lift (loyalty_engine loyalty_rules sales_header) ;;
  let customers := update_points customers scored in
  ranked <~ lift (rfm_ranked (map ScoredHeader.row scored)) ;;
  rfm <~ for_each (score_and_segment (get_rfm_rules d)) ranked ;;
  Done (mkOutput customers products stores promotions fact_sales
          (merge_left same_customer_rfm customers rfm)).

(** The dictionary that holds every table of [data]. *)
Definition all_tables (data : Data) : Tables :=
  mkTables (Some (customers data)) (Some (products data)) (Some (stores data))
    (Some (promotions data)) (Some (sales_header data))
    (Some (sales_line_items data)) (Some (loyalty_rules data))
    (Some (rfm_rules data)).

(** The first table, in the order the stage touches them, that the
    dictionary lacks among those used before the computation starts. *)
Definition first_missing (d : Tables) : option failure :=
  match get_customers d with
  | None => Some (AttributeError "customers")
  | Some _ =>
  match get_products d with
  | None => Some (AttributeError "products")
  | Some _ =>
  match get_stores d with
  | None => Some (AttributeError "stores")
  | Some _ =>
  match get_promotions d with
  | None => Some (AttributeError "promotions")
  | Some _ =>
  match get_sales_header d with
  | None => Some (TypeError "sales_header")
  | Some _ =>
  match get_sales_line_items d with
  | None => Some (TypeError "sales_line_items")
  | Some _ =>
  match get_loyalty_rules d with
  | None => Some (TypeError "loyalty_rules")
  | Some _ => None
  end end end end end end end.

(** ** Ingestion ([extract.py])

    A CSV file once read is a frame: its header and its records.  The
    file system is a function from paths to what [os.path.exists] and
    [pd.read_csv] find there; a file that exists but cannot be parsed
    makes [pd.read_csv] raise, and nothing in [extract.py] catches it.
    What the functions print is kept as a log of events; a printed set of
    column names is the list of its elements, in no particular order. *)

Record frame : Type := mkFrame {
  frame_columns : list string;
  frame_records : list (list cell)
}.

Inductive file : Type :=
| NoFile
| Unreadable
| Csv (df : frame).

Inductive event : Type :=
| FileNotFound (filename : string)
| Loading (filename : string)
| MissingColumns (filename : string) (cols : list string)
| ExtraColumns (filename : string) (cols : list string)
| ExtractCompleted.

Definition RAW_DATA_PATH : string := "data/raw/".

Definition TABLE_SCHEMAS : list (string * list string) :=
  [ ("customers.csv",
     ["customer_id"; "fist_name"; "email"; "loyalty_status";
      "total_loyalty_points"; "last_purchase_date";
      "segment_id"; "customer_phone"; "customer_since"]);
    ("products.csv",
     ["product_id"; "product_name"; "product_category";
      "unit_price"; "current_stock_level"]);
    ("stores.csv",
     ["store_id"; "store_name"; "store_city"; "store_region"; "opening_date"]);
    ("promotions.csv",
     ["promotion_id"; "promotion_name"; "discount_percentage";
      "applicable_category"; "start_date"; "end_date"]);
    ("sales_header.csv",
     ["transaction_id"; "customer_id"; "store_id";
      "transaction_date"; "total_amount"; "customer_phone"]);
    ("sales_line_items.csv",
     ["line_item_id"; "transaction_id"; "product_id";
      "promotion_id"; "quantity"; "line_item_amount"]);
    ("loyalty_rules.csv",
     ["rule_id"; "rule_name"; "points_per_unit_spend";
      "min_spend_threshold"; "bonus_points"; "is_active"]);
    ("rfm_rules.csv",
     ["segment_name"; "rfm_score_min"; "rfm_score_max"]) ].

(** [set(a) - set(b)] *)
Definition set_minus (a b : list string) : list string :=
  nodup string_dec (filter (fun c => negb (isin c b)) a).

(** Lines 42-52 *)
Definition validate_columns (df : frame) (expected_columns : list string)
    (filename : string) : frame * list event :=
  let missing_cols := set_minus expected_columns (frame_columns df) in
  let extra_cols := set_minus (frame_columns df) expected_columns in
  (df,
   ((if is_empty missing_cols then []
     else [MissingColumns filename missing_cols])
    ++ (if is_empty extra_cols then []
        else [ExtraColumns filename extra_cols]))%list).

(** [s.replace(pat, "")] for a non-empty [pat]: every occurrence, found
    from the left, is taken out. *)
Fixpoint drop (n : nat) (s : string) : string :=
  match n, s with
  | O, _ => s
  | S n', String _ s' => drop n' s'
  | S _, EmptyString => EmptyString
  end.

Fixpoint remove_all (fuel : nat) (pat s : string) : string :=
  match fuel with
  | O => s
  | S fuel' =>
      match s with
      | EmptyString => EmptyString
      | String c s' =>
          if String.prefix pat s
          then remove_all fuel' pat (drop (String.length pat) s)
          else String c (remove_all fuel' pat s')
      end
  end.

(** Line 71: [filename.replace(".csv", "")] *)
Definition table_key (filename : string) : string :=
  remove_all (String.length filename) ".csv" filename.

(** A Python dict with string keys, in insertion order. *)
Fixpoint dict_set {V} (k : string) (v : V) (d : list (string * V))
    : list (string * V) :=
  match d with
  | [] => [(k, v)]
  | (k', v') :: d' =>
      if String.eqb k k' then (k, v) :: d' else (k', v') :: dict_set k v d'
  end.

Definition dict_get {V} (k : string) (d : list (string * V)) : option V :=
  option_map snd (find (fun p => String.eqb k (fst p)) d).

Inductive extraction : Type :=
| Extracted (dataframes : list (string * frame)) (log : list event)
| ReadFailed (filename : string) (log : list event).

Definition file_path (filename : string) : string :=
  String.append RAW_DATA_PATH filename.

(** Lines 60-71: the loop over the schema table. *)
Fixpoint extract_loop (fs : string -> file)
    (schemas : list (string * list string))
    (dataframes : list (string * frame)) (log : list event) : extraction :=
  match schemas with
  | [] => Extracted dataframes log
  | (filename, expected_cols) :: rest =>
      match fs (file_path filename) with
      | NoFile =>
          extract_loop fs rest dataframes (log ++ [FileNotFound filename])%list
      | Unreadable => ReadFailed filename (log ++ [Loading filename])%list
      | Csv df =>
          let validated := validate_columns df expected_cols filename in
          extract_loop fs rest
            (dict_set (table_key filename) (fst validated) dataframes)
            (log ++ Loading filename :: snd validated)%list
      end
  end.

(** Lines 55-74 *)
Definition extract_raw_data (fs : string -> file) : extraction :=
  match extract_loop fs TABLE_SCHEMAS [] [] with
  | Extracted dataframes log =>
      Extracted dataframes (log ++ [ExtractCompleted])%list
  | ReadFailed filename log => ReadFailed filename log
  end.

(** The keys [transform] reads from the dictionary (lines 15-22). *)
Definition transform_keys : list string :=
  ["customers"; "products"; "stores"; "promotions"; "sales_header";
   "sales_line_items"; "loyalty_rules"; "rfm_rules"].

(** * Properties *)

(** ** int64 and float64 arithmetic *)

Lemma pow2_pos (k : Z) : 0 <= k -> 0 < 2 ^ k.
Proof. intros H. apply Z.pow_pos_nonneg; lia. Qed.

Lemma shift53_small (n d : Z) :
  0 < n < 2 ^ 53 -> 0 < d < 2 ^ 53 ->
  0 <= shift53 n d
  /\ 2 ^ 52 * d <= n * 2 ^ shift53 n d
  /\ n * 2 ^ shift53 n d < 2 ^ 53 * d.
Proof.
  intros Hn Hd. unfold shift53.
  assert (Hla : 0 <= Z.log2 n <= 52).
  { split; [apply Z.log2_nonneg |].
    assert (Z.log2 n < 53) by (apply Z.log2_lt_pow2; lia). lia. }
  assert (Hlb : 0 <= Z.log2 d <= 52).
  { split; [apply Z.log2_nonneg |].
    assert (Z.log2 d < 53) by (apply Z.log2_lt_pow2; lia). lia. }
  destruct (Z.log2_spec n ltac:(lia)) as (Hn1 & Hn2).
  destruct (Z.log2_spec d ltac:(lia)) as (Hd1 & Hd2).
  set (la := Z.log2 n) in *. set (lb := Z.log2 d) in *.
  set (s0 := 52 - (la - lb)).
  assert (Hs0 : 0 <= s0) by (unfold s0; lia).
  unfold scaled_num, scaled_den.
  assert (E0 : (0 <=? s0) = true) by (apply Z.leb_le; lia). rewrite E0.
  assert (Ppow : 2 ^ la * 2 ^ s0 = 2 ^ 52 * 2 ^ lb).
  { rewrite <- !Z.pow_add_r by lia. f_equal. unfold s0. lia. }
  assert (Hs0p : 0 < 2 ^ s0) by (apply pow2_pos; lia).
  assert (Hlbp : 0 < 2 ^ lb) by (apply pow2_pos; lia).
  assert (Hlap : 0 < 2 ^ la) by (apply pow2_pos; lia).
  rewrite Z.pow_succ_r in Hn2, Hd2 by lia.
  destruct (2 ^ 52 * d <=? n * 2 ^ s0) eqn:E.
  - apply Z.leb_le in E. split; [lia |]. split; [exact E |].
    (* n * 2^s0 < 2 * 2^la * 2^s0 = 2^53 * 2^lb <= 2^53 * d *)
    assert (n * 2 ^ s0 < 2 * 2 ^ la * 2 ^ s0) by nia.
    change (2 ^ 53) with (2 * 2 ^ 52). nia.
  - apply Z.leb_gt in E. split; [lia |].
    rewrite Z.pow_add_r by lia. change (2 ^ 1) with 2.
    split.
    + (* 2^52 d < 2^52 * 2 * 2^lb = 2 * 2^la * 2^s0 <= 2 n 2^s0 *)
      nia.
    + change (2 ^ 53) with (2 * 2 ^ 52). nia.
Qed.

Lemma round_half_even_bounds (N D : Z) :
  0 < D -> 0 <= N ->
  let m := round_half_even N D in
  (m = N / D \/ (m = N / D + 1 /\ D <= 2 * (N mod D))).
Proof.
  intros HD HN. unfold round_half_even. cbv zeta.
  destruct (2 * (N mod D) <? D) eqn:E1; [left; reflexivity |].
  apply Z.ltb_ge in E1.
  destruct (D <? 2 * (N mod D)) eqn:E2; [right; split; [reflexivity | lia] |].
  destruct (Z.even (N / D)); [left; reflexivity | right; split; [reflexivity | lia]].
Qed.

Lemma float_ratio_trunc_exact (n d : Z) :
  0 < n < 2 ^ 53 -> 0 < d < 2 ^ 53 -> float_ratio_trunc n d = n / d.
Proof.
  intros Hn Hd. unfold float_ratio_trunc.
  destruct (shift53_small n d Hn Hd) as (Hs & Hlo & Hhi).
  set (s := shift53 n d) in *.
  unfold scaled_num, scaled_den.
  assert (E0 : (0 <=? s) = true) by (apply Z.leb_le; lia). rewrite E0.
  set (P := 2 ^ s) in *.
  assert (HP : 0 < P) by (apply pow2_pos; lia).
  set (q := n / d).
  assert (Hq : q * d <= n < (q + 1) * d).
  { unfold q. pose proof (Z.div_mod n d ltac:(lia)) as Hdm.
    pose proof (Z.mod_pos_bound n d ltac:(lia)) as Hm. nia. }
  assert (Hq0 : 0 <= q) by (unfold q; apply Z.div_pos; lia).
  pose proof (Z.div_mod (n * P) d ltac:(lia)) as HDM.
  pose proof (Z.mod_pos_bound (n * P) d ltac:(lia)) as HM.
  set (m0 := n * P / d) in *. set (r := (n * P) mod d) in *.
  assert (Hm0lo : q * P <= m0) by nia.
  assert (Hm0hi : m0 <= (q + 1) * P - 1) by nia.
  assert (Hd2P : d < 2 * P).
  { change (2 ^ 53) with (2 * 2 ^ 52) in Hn. nia. }
  symmetry. apply Z.div_unique_pos with (r := round_half_even (n * P) d - q * P).
  - destruct (round_half_even_bounds (n * P) d ltac:(lia) ltac:(nia))
      as [E | (E & Hup)]; rewrite E; fold m0.
    + lia.
    + fold r in Hup. split; [lia |].
      assert (m0 <> (q + 1) * P - 1); [| lia].
      intros Em. nia.
  - lia.
Qed.

Lemma float_of_int_exact (a : Z) : exact_in_float64 a -> float_of_int a = a.
Proof.
  unfold exact_in_float64. intros Ha. unfold float_of_int.
  destruct (a =? 0) eqn:E; [apply Z.eqb_eq in E; lia |].
  apply Z.eqb_neq in E.
  rewrite float_ratio_trunc_exact by (change (2 ^ 53) with 9007199254740992 in *; lia).
  rewrite Z.div_1_r. rewrite Z.mul_comm. apply Z.abs_sgn.
Qed.

(** Below [2 ^ 53] the float64 quotient, once cast, is the integer
    quotient truncated toward zero. *)
Lemma true_divide_trunc_exact (a b : Z) :
  exact_in_float64 a -> exact_in_float64 b -> b <> 0 ->
  true_divide_trunc a b = Z.quot a b.
Proof.
  intros Ha Hb Hz. unfold true_divide_trunc.
  rewrite (float_of_int_exact a Ha), (float_of_int_exact b Hb).
  destruct (a =? 0) eqn:E.
  - apply Z.eqb_eq in E. subst a. rewrite Z.quot_0_l by exact Hz. reflexivity.
  - apply Z.eqb_neq in E. unfold exact_in_float64 in Ha, Hb.
    rewrite float_ratio_trunc_exact
      by (change (2 ^ 53) with 9007199254740992 in *; lia).
    symmetry. apply Z.quot_div. exact Hz.
Qed.

Lemma wrap64_in_int64 (z : Z) : in_int64 (wrap64 z).
Proof.
  unfold in_int64, wrap64, int64_min, int64_max.
  pose proof (Z.mod_pos_bound (z + 2 ^ 63) (2 ^ 64) ltac:(lia)) as H.
  change (2 ^ 64) with (2 * 2 ^ 63) in *. lia.
Qed.

Lemma wrap64_small (z : Z) : in_int64 z -> wrap64 z = z.
Proof.
  unfold in_int64, wrap64, int64_min, int64_max. intros H.
  rewrite Z.mod_small; [lia |].
  change (2 ^ 64) with (2 * 2 ^ 63). lia.
Qed.

Lemma wrap64_add_l (a b : Z) : wrap64 (wrap64 a + b) = wrap64 (a + b).
Proof.
  unfold wrap64.
  replace ((a + 2 ^ 63) mod 2 ^ 64 - 2 ^ 63 + b + 2 ^ 63)
    with ((a + 2 ^ 63) mod 2 ^ 64 + b) by lia.
  rewrite Z.add_mod_idemp_l by lia.
  f_equal. f_equal. lia.
Qed.

Lemma wrap64_add_r (a b : Z) : wrap64 (a + wrap64 b) = wrap64 (a + b).
Proof. rewrite (Z.add_comm a), wrap64_add_l. f_equal. lia. Qed.

Lemma wrap64_accrual (e p b : Z) :
  wrap64 (e + wrap64 (wrap64 p + b)) = wrap64 (e + (p + b)).
Proof.
  rewrite wrap64_add_r. rewrite <- (wrap64_add_r e (p + b)).
  rewrite <- (wrap64_add_l p b). rewrite wrap64_add_r. reflexivity.
Qed.

Lemma wrap64_idem (a : Z) : wrap64 (wrap64 a) = wrap64 a.
Proof. apply wrap64_small, wrap64_in_int64. Qed.

Lemma exact_in_float64_in_int64 (z : Z) : exact_in_float64 z -> in_int64 z.
Proof.
  unfold exact_in_float64, in_int64, int64_min, int64_max.
  change (2 ^ 53) with 9007199254740992.
  change (2 ^ 63) with 9223372036854775808. lia.
Qed.

Lemma astype_int64_small (v : Z) : in_int64 v -> astype_int64 v = v.
Proof.
  unfold in_int64, astype_int64. intros [H1 H2].
  apply Z.leb_le in H1, H2. rewrite H1, H2. reflexivity.
Qed.

(** The int64 sum of a column is the int64 image of its exact sum. *)
Lemma sum_int64_wrap (l : list Z) : sum_int64 l = wrap64 (sum_Z l).
Proof.
  unfold sum_int64.
  assert (H : forall acc, fold_left (fun acc x => wrap64 (acc + x)) l (wrap64 acc)
                          = wrap64 (acc + sum_Z l)).
  { induction l as [| x l IH]; intros acc; simpl.
    - rewrite Z.add_0_r. reflexivity.
    - rewrite wrap64_add_l, IH. f_equal. lia. }
  change 0 with (wrap64 0) at 1. rewrite H. reflexivity.
Qed.

Lemma sum_int64_exact (l : list Z) : in_int64 (sum_Z l) -> sum_int64 l = sum_Z l.
Proof. intros H. rewrite sum_int64_wrap. apply wrap64_small. exact H. Qed.

(** ** The result monad *)

Lemma bind_Ok_inv {A B} (m : result A) (k : A -> result B) (b : B) :
  (x <- m ;; k x) = Ok b -> exists a, m = Ok a /\ k a = Ok b.
Proof.
  destruct m as [a | e]; simpl; intros H.
  - exists a; split; [reflexivity | exact H].
  - discriminate H.
Qed.

Lemma mapM_pure {A B} (f : A -> result B) (g : A -> B) (l : list A) :
  (forall a, In a l -> f a = Ok (g a)) -> mapM f l = Ok (map g l).
Proof.
  induction l as [| a l IH]; intros H; simpl.
  - reflexivity.
  - rewrite (H a (or_introl eq_refl)); simpl.
    rewrite IH by (intros b Hb; apply H; right; exact Hb).
    reflexivity.
Qed.

Lemma mapM_Forall2 {A B} (f : A -> result B) (l : list A) (l' : list B) :
  mapM f l = Ok l' -> Forall2 (fun a b => f a = Ok b) l l'.
Proof.
  revert l'; induction l as [| a l IH]; simpl; intros l' H.
  - injection H as <-. constructor.
  - apply bind_Ok_inv in H as (b & Hb & H).
    apply bind_Ok_inv in H as (bs & Hbs & H).
    injection H as <-. constructor; [exact Hb | apply IH; exact Hbs].
Qed.

(** ** Cleaning *)

Lemma lt_cell_not_ge (c : option Z) :
  lt_cell c 0 = true -> ge_cell c 0 = false.
Proof.
  destruct c as [v |]; simpl; intros H; [| reflexivity].
  apply Z.ltb_lt in H. apply Z.leb_gt. exact H.
Qed.

Lemma isin_In (k : string) (values : list string) :
  isin k values = true <-> In k values.
Proof.
  unfold isin. rewrite existsb_exists. split.
  - intros (x & Hx & E). apply String.eqb_eq in E. subst x. exact Hx.
  - intros H. exists k. split; [exact H | apply String.eqb_refl].
Qed.

Lemma clean_sales_header_In (hs : list SalesHeader.t) (h : SalesHeader.t) :
  In h (clean_sales_header hs) <->
  In h hs /\ exists a, SalesHeader.total_amount h = Some a /\ 0 <= a.
Proof.
  unfold clean_sales_header. rewrite filter_In. unfold ge_cell.
  split; intros [Hin H]; split; try exact Hin.
  - destruct (SalesHeader.total_amount h) as [a |]; [| discriminate].
    exists a. split; [reflexivity | apply Z.leb_le; exact H].
  - destruct H as (a & -> & Ha). apply Z.leb_le. exact Ha.
Qed.

Lemma clean_line_items_In ps hs ls (l : LineItem.t) :
  In l (clean_line_items ps hs ls) <->
  In l ls /\ gt_cell (LineItem.quantity l) 0 = true
  /\ In (LineItem.product_id l) (map Product.product_id ps)
  /\ In (LineItem.transaction_id l) (map SalesHeader.transaction_id hs).
Proof.
  unfold clean_line_items. rewrite !filter_In, !isin_In. tauto.
Qed.

(** ** Merges *)

Lemma merge_inner_In {A B} (same_key : A -> B -> bool) left right a b :
  In (a, b) (merge_inner same_key left right) <->
  In a left /\ In b right /\ same_key a b = true.
Proof.
  unfold merge_inner. rewrite in_flat_map. split.
  - intros (a' & Ha' & H). apply in_map_iff in H as (b' & E & Hb').
    injection E as -> ->. apply filter_In in Hb'. tauto.
  - intros (Ha & Hb & Hk). exists a. split; [exact Ha |].
    apply in_map. apply filter_In. tauto.
Qed.

Lemma merge_left_In {A B} (same_key : A -> B -> bool) left right a ob :
  In (a, ob) (merge_left same_key left right) <->
  In a left /\
  match ob with
  | Some b => In b right /\ same_key a b = true
  | None => forall b, In b right -> same_key a b = false
  end.
Proof.
  unfold merge_left. rewrite in_flat_map. split.
  - intros (a' & Ha' & H).
    destruct (filter (same_key a') right) as [| b0 bs] eqn:E.
    + destruct H as [H | []]. injection H as -> <-. split; [exact Ha' |].
      intros b Hb. destruct (same_key a b) eqn:K; [| reflexivity].
      assert (Hin : In b (filter (same_key a) right)) by (apply filter_In; tauto).
      rewrite E in Hin. destruct Hin.
    + apply in_map_iff in H as (b' & E' & Hb'). injection E' as -> <-.
      split; [exact Ha' |]. rewrite <- E in Hb'. apply filter_In in Hb'. exact Hb'.
  - intros (Ha & H). exists a. split; [exact Ha |].
    destruct ob as [b |].
    + destruct H as (Hb & Hk).
      assert (Hin : In b (filter (same_key a) right)) by (apply filter_In; tauto).
      destruct (filter (same_key a) right) as [| b0 bs]; [destruct Hin |].
      apply in_map_iff. exists b. split; [reflexivity | exact Hin].
    + destruct (filter (same_key a) right) as [| b0 bs] eqn:E.
      * left. reflexivity.
      * assert (Hin : In b0 (filter (same_key a) right)) by (rewrite E; left; reflexivity).
        apply filter_In in Hin as (Hb & Hk). rewrite (H b0 Hb) in Hk. discriminate.
Qed.

Lemma build_fact_sales_In ls hs ps qs (f : FactRow.t) :
  In f (build_fact_sales ls hs ps qs) ->
  In (FactRow.line f) ls /\ In (FactRow.header f) hs
  /\ LineItem.transaction_id (FactRow.line f)
     = SalesHeader.transaction_id (FactRow.header f).
Proof.
  unfold build_fact_sales. intros H.
  apply in_map_iff in H as ([[[l h] op] oq] & <- & H). simpl.
  apply merge_left_In in H as (H & _).
  apply merge_left_In in H as (H & _).
  apply merge_inner_In in H as (Hl & Hh & Hk).
  unfold same_transaction in Hk. apply String.eqb_eq in Hk. tauto.
Qed.


(** C7: the orphan filter uses the header table as already filtered on
    [total_amount].  If every header carrying transaction id [t] has a
    negative [total_amount] (in particular if no header carries [t]),
    then no cleaned line item and no row of the fact table refers to
    [t]. *)
Theorem orphan_filter_after_amount_filter (data : Data) (t : string) :
  (forall h, In h (sales_header data) ->
             SalesHeader.transaction_id h = t ->
             lt_cell (SalesHeader.total_amount h) 0 = true) ->
  (forall l, In l (cleaned_line_items data) -> LineItem.transaction_id l <> t)
  /\ (forall f, In f (fact_table data) ->
                LineItem.transaction_id (FactRow.line f) <> t).
Proof.
  intros Hneg.
  assert (Hitems : forall l, In l (cleaned_line_items data) ->
                             LineItem.transaction_id l <> t).
  { intros l Hl E. unfold cleaned_line_items in Hl.
    apply clean_line_items_In in Hl as (_ & _ & _ & Hl).
    apply in_map_iff in Hl as (h & Eh & Hh).
    unfold cleaned_sales_header, clean_sales_header in Hh.
    apply filter_In in Hh as (Hh & Hge).
    rewrite (lt_cell_not_ge _ (Hneg h Hh (eq_trans Eh E))) in Hge.
    discriminate Hge. }
  split; [exact Hitems |].
  intros f Hf. apply build_fact_sales_In in Hf as (Hl & _).
  apply Hitems. exact Hl.
Qed.

Lemma orphan_filter_after_amount_filter_witness :
  ((forall h, In h (sales_header Sample.data) ->
              SalesHeader.transaction_id h = "T4" ->
              lt_cell (SalesHeader.total_amount h) 0 = true)
   /\ (forall h, In h (sales_header Sample.data) ->
                 SalesHeader.transaction_id h = "T999" ->
                 lt_cell (SalesHeader.total_amount h) 0 = true))
  /\ (forall f, In f (fact_table Sample.data) ->
                LineItem.transaction_id (FactRow.line f) <> "T4"
                /\ LineItem.transaction_id (FactRow.line f) <> "T999").
Proof.
  assert (H4 : forall h, In h (sales_header Sample.data) ->
                         SalesHeader.transaction_id h = "T4" ->
                         lt_cell (SalesHeader.total_amount h) 0 = true).
  { simpl. intros h [<- | [<- | [<- | [<- | []]]]]; simpl; intros E;
      solve [discriminate E | reflexivity]. }
  assert (H999 : forall h, In h (sales_header Sample.data) ->
                           SalesHeader.transaction_id h = "T999" ->
                           lt_cell (SalesHeader.total_amount h) 0 = true).
  { simpl. intros h [<- | [<- | [<- | [<- | []]]]]; simpl; intros E;
      discriminate E. }
  split; [split; assumption |].
  intros f Hf. split.
  - apply (proj2 (orphan_filter_after_amount_filter Sample.data "T4" H4) f Hf).
  - apply (proj2 (orphan_filter_after_amount_filter Sample.data "T999" H999) f Hf).
Defined.

(** On the sample tables only the line item of the surviving, existing
    transaction reaches the fact table. *)
Example fact_table_sample :
  map (fun f => LineItem.line_item_id (FactRow.line f)) (fact_table Sample.data)
  = ["L1"].
Proof. reflexivity. Qed.

(** ** Segment classification *)

Lemma geb_swap (a b : Z) : (a >=? b) = (b <=? a).
Proof. apply Z.geb_leb. Qed.

Lemma in_range_iff (r : RFMRule.t) (score : Z) :
  in_range r score = true <->
  RFMRule.rfm_score_min r <= score <= RFMRule.rfm_score_max r.
Proof.
  unfold in_range. rewrite andb_true_iff, !Z.leb_le. tauto.
Qed.

Lemma segment_customer_cons (r : RFMRule.t) rules score :
  segment_customer (r :: rules) score
  = if in_range r score then RFMRule.segment_name r
    else segment_customer rules score.
Proof.
  unfold segment_customer, in_range. simpl. rewrite geb_swap.
  destruct ((RFMRule.rfm_score_min r <=? score)
            && (score <=? RFMRule.rfm_score_max r)); reflexivity.
Qed.

(** C2: [segment_customer] is the in-order scan of the rule table: it
    returns the name of the first rule whose inclusive range holds the
    score, and "Unclassified" when no rule does.  With Gold 6-9 listed
    before Platinum 7-8, score 7 is Gold although Platinum matches too. *)
Theorem segment_customer_first_match :
  (forall rules score,
     segment_customer rules score = first_match_scan rules score)
  /\ (forall rules score,
        (exists before r after,
            rules = (before ++ r :: after)%list
            /\ (forall r', In r' before ->
                  ~ (RFMRule.rfm_score_min r' <= score <= RFMRule.rfm_score_max r'))
            /\ RFMRule.rfm_score_min r <= score <= RFMRule.rfm_score_max r
            /\ segment_customer rules score = RFMRule.segment_name r)
        \/ ((forall r, In r rules ->
               ~ (RFMRule.rfm_score_min r <= score <= RFMRule.rfm_score_max r))
            /\ segment_customer rules score = "Unclassified"))
  /\ segment_customer [Sample.gold; Sample.platinum] 7 = "Gold"
  /\ in_range Sample.platinum 7 = true.
Proof.
  split; [| split; [| split; reflexivity]].
  - intros rules score. induction rules as [| r rules IH].
    + reflexivity.
    + rewrite segment_customer_cons. simpl. rewrite IH. reflexivity.
  - intros rules score. induction rules as [| r rules IH].
    + right. split; [intros r [] | reflexivity].
    + rewrite segment_customer_cons.
      destruct (in_range r score) eqn:E.
      * left. exists [], r, rules. apply in_range_iff in E.
        repeat split; simpl; tauto.
      * assert (Hr : ~ (RFMRule.rfm_score_min r <= score <= RFMRule.rfm_score_max r)).
        { intros H. apply in_range_iff in H. congruence. }
        destruct IH as [(before & r0 & after & -> & Hb & Hr0 & Hs) | (Hn & Hs)].
        -- left. exists (r :: before), r0, after.
           repeat split; try tauto.
           intros r' [<- | Hin]; [exact Hr | apply Hb; exact Hin].
        -- right. split; [| exact Hs].
           intros r' [<- | Hin]; [exact Hr | apply Hn; exact Hin].
Qed.

(** ** The active flag *)

Lemma rule_is_active_iff (r : LoyaltyRule.t) :
  rule_is_active r = true <-> LoyaltyRule.is_active r = CStr "TRUE".
Proof.
  unfold rule_is_active, cell_eq_str.
  destruct (LoyaltyRule.is_active r) as [| b | z | s]; try (split; discriminate).
  rewrite String.eqb_eq. split; [intros -> | intros [= ->]]; reflexivity.
Qed.

(** C10: a rule is applied only if its [is_active] cell is the string
    "TRUE".  A rule with any other cell (the boolean true, "true", "Yes",
    a number, a null) can be taken out of the rule table without changing
    the outcome of the loyalty engine, points and errors alike. *)
Theorem only_exact_TRUE_is_active (r : LoyaltyRule.t) :
  (rule_is_active r = true <-> LoyaltyRule.is_active r = CStr "TRUE")
  /\ (LoyaltyRule.is_active r <> CStr "TRUE" ->
      forall before after hs,
        loyalty_engine (before ++ r :: after)%list hs
        = loyalty_engine (before ++ after)%list hs).
Proof.
  split; [apply rule_is_active_iff |].
  intros Hr before after hs. unfold loyalty_engine, active_rules.
  rewrite !filter_app. simpl.
  destruct (rule_is_active r) eqn:E; [| reflexivity].
  apply rule_is_active_iff in E. contradiction.
Qed.

Lemma only_exact_TRUE_is_active_witness :
  (LoyaltyRule.is_active (Sample.rule_flag (CBool true)) <> CStr "TRUE"
   /\ LoyaltyRule.is_active (Sample.rule_flag (CStr "true")) <> CStr "TRUE"
   /\ LoyaltyRule.is_active (Sample.rule_flag (CStr "Yes")) <> CStr "TRUE")
  /\ loyalty_engine
       [Sample.rule_flag (CBool true); Sample.rule_flag (CStr "true");
        Sample.rule_flag (CStr "Yes")]
       [Sample.txn "T1" "C1" (Some 3) 250]
     = Ok [ScoredHeader.mk (Sample.txn "T1" "C1" (Some 3) 250) 0]
  /\ loyalty_engine [Sample.rule_flag (CStr "TRUE")]
       [Sample.txn "T1" "C1" (Some 3) 250]
     = Ok [ScoredHeader.mk (Sample.txn "T1" "C1" (Some 3) 250) 20].
Proof.
  assert (Hb : LoyaltyRule.is_active (Sample.rule_flag (CBool true)) <> CStr "TRUE")
    by (simpl; discriminate).
  assert (Ht : LoyaltyRule.is_active (Sample.rule_flag (CStr "true")) <> CStr "TRUE")
    by (simpl; discriminate).
  assert (Hy : LoyaltyRule.is_active (Sample.rule_flag (CStr "Yes")) <> CStr "TRUE")
    by (simpl; discriminate).
  split; [repeat split; assumption |]. split; [| reflexivity].
  etransitivity;
    [exact (proj2 (only_exact_TRUE_is_active _) Hb [] _ _) |].
  etransitivity;
    [exact (proj2 (only_exact_TRUE_is_active _) Ht [] _ _) |].
  etransitivity;
    [exact (proj2 (only_exact_TRUE_is_active _) Hy [] _ _) |].
  reflexivity.
Defined.

(** ** The loyalty engine *)

Lemma apply_rule_row_nonzero (rule : LoyaltyRule.t) (h : ScoredHeader.t) :
  LoyaltyRule.min_spend_threshold rule <> 0 ->
  apply_rule_row rule h = Ok (accrue rule h).
Proof.
  intros Hz. unfold apply_rule_row, accrue, selects, row_points,
    code_rule_points, div_astype_int.
  destruct h as [row pts]; simpl.
  destruct (SalesHeader.total_amount row) as [a |]; [| reflexivity].
  destruct (LoyaltyRule.min_spend_threshold rule <=? a); [| reflexivity].
  apply Z.eqb_neq in Hz. rewrite Hz. reflexivity.
Qed.

Lemma apply_rule_row_zero (rule : LoyaltyRule.t) (h : ScoredHeader.t) :
  LoyaltyRule.min_spend_threshold rule = 0 ->
  amount_ok (ScoredHeader.row h) ->
  apply_rule_row rule h = Raise IntCastingNaNError.
Proof.
  intros Hz (a & Ha & Hpos). unfold apply_rule_row, div_astype_int.
  rewrite Ha, Hz. apply Z.leb_le in Hpos. rewrite Hpos. reflexivity.
Qed.

Lemma row_points_unselected (r : LoyaltyRule.t) (h : SalesHeader.t) :
  selects r h = false -> row_points r h = 0.
Proof.
  unfold selects, row_points, code_rule_points.
  destruct (SalesHeader.total_amount h) as [a |]; [| reflexivity].
  intros ->. reflexivity.
Qed.

Lemma accrue_row (r : LoyaltyRule.t) (h : ScoredHeader.t) :
  ScoredHeader.row (accrue r h) = ScoredHeader.row h.
Proof. unfold accrue. destruct (selects r (ScoredHeader.row h)); reflexivity. Qed.

Lemma accrue_in_int64 (r : LoyaltyRule.t) (h : ScoredHeader.t) :
  in_int64 (ScoredHeader.earned_points h) ->
  in_int64 (ScoredHeader.earned_points (accrue r h)).
Proof.
  intros H. unfold accrue. destruct (selects r (ScoredHeader.row h)); simpl.
  - apply wrap64_in_int64.
  - exact H.
Qed.

Lemma accrue_all_nil (hs : list ScoredHeader.t) :
  Forall (fun h => in_int64 (ScoredHeader.earned_points h)) hs ->
  accrue_all [] hs = hs.
Proof.
  unfold accrue_all. simpl. induction hs as [| [row pts] hs IH]; simpl.
  - reflexivity.
  - intros H. rewrite Z.add_0_r, (IH (Forall_inv_tail H)).
    rewrite (wrap64_small pts (Forall_inv H)). reflexivity.
Qed.

Lemma accrue_all_cons (r : LoyaltyRule.t) rules hs :
  accrue_all rules (map (accrue r) hs) = accrue_all (r :: rules) hs.
Proof.
  unfold accrue_all. rewrite map_map. apply map_ext. intros h.
  rewrite accrue_row. f_equal. cbn [map sum_Z fold_right].
  fold (sum_Z (map (fun r0 => row_points r0 (ScoredHeader.row h)) rules)).
  unfold accrue. destruct (selects r (ScoredHeader.row h)) eqn:E; simpl.
  - rewrite wrap64_add_l. f_equal. lia.
  - rewrite (row_points_unselected _ _ E). f_equal.
Qed.

Lemma accrue_all_rows rules hs :
  map ScoredHeader.row (accrue_all rules hs) = map ScoredHeader.row hs.
Proof. unfold accrue_all. rewrite map_map. reflexivity. Qed.

Lemma is_empty_map {A B} (f : A -> B) (l : list A) :
  is_empty (map f l) = is_empty l.
Proof. destruct l; reflexivity. Qed.

(** The loop either stops at the first rule with a zero threshold, when
    there is a row to divide, or accrues every rule in turn. *)
Lemma foldM_apply_rule (rules : list LoyaltyRule.t) :
  forall hs : list ScoredHeader.t,
    Forall (fun h => amount_ok (ScoredHeader.row h)) hs ->
    Forall (fun h => in_int64 (ScoredHeader.earned_points h)) hs ->
    foldM apply_rule rules hs
    = if has_zero_threshold rules && negb (is_empty hs)
      then Raise IntCastingNaNError
      else Ok (accrue_all rules hs).
Proof.
  induction rules as [| r rules IH]; intros hs Hok Hin64.
  - simpl. rewrite (accrue_all_nil hs Hin64). reflexivity.
  - simpl. destruct (LoyaltyRule.min_spend_threshold r =? 0) eqn:Ez.
    + apply Z.eqb_eq in Ez. destruct hs as [| h hs].
      * simpl. rewrite (IH [] (Forall_nil _) (Forall_nil _)). simpl.
        rewrite andb_false_r. reflexivity.
      * simpl. unfold apply_rule. simpl.
        rewrite (apply_rule_row_zero r h Ez (Forall_inv Hok)). reflexivity.
    + apply Z.eqb_neq in Ez. unfold apply_rule at 1.
      rewrite (mapM_pure (apply_rule_row r) (accrue r))
        by (intros a _; apply apply_rule_row_nonzero; exact Ez).
      simpl. rewrite IH.
      * rewrite is_empty_map, accrue_all_cons. reflexivity.
      * apply Forall_forall. intros h' Hin.
        apply in_map_iff in Hin as (h & <- & Hin). rewrite accrue_row.
        rewrite Forall_forall in Hok. apply Hok. exact Hin.
      * apply Forall_forall. intros h' Hin.
        apply in_map_iff in Hin as (h & <- & Hin). apply accrue_in_int64.
        rewrite Forall_forall in Hin64. apply Hin64. exact Hin.
Qed.

Lemma init_points_amount_ok (raw : list SalesHeader.t) :
  Forall (fun h => amount_ok (ScoredHeader.row h))
         (init_points (clean_sales_header raw)).
Proof.
  apply Forall_forall. intros h Hin. unfold init_points in Hin.
  apply in_map_iff in Hin as (h0 & <- & Hin). simpl.
  apply clean_sales_header_In in Hin. exact (proj2 Hin).
Qed.

Lemma init_points_in_int64 (hs : list SalesHeader.t) :
  Forall (fun h => in_int64 (ScoredHeader.earned_points h)) (init_points hs).
Proof.
  apply Forall_forall. intros h Hin. unfold init_points in Hin.
  apply in_map_iff in Hin as (h0 & <- & Hin). simpl.
  unfold in_int64, int64_min, int64_max. lia.
Qed.

Lemma has_zero_threshold_active (rules : list LoyaltyRule.t) :
  has_zero_threshold (active_rules rules) = true <->
  exists r, In r rules /\ rule_is_active r = true
            /\ LoyaltyRule.min_spend_threshold r = 0.
Proof.
  unfold has_zero_threshold, active_rules. rewrite existsb_exists. split.
  - intros (r & Hin & Hz). apply filter_In in Hin as (Hin & Ha).
    apply Z.eqb_eq in Hz. exists r. tauto.
  - intros (r & Hin & Ha & Hz). exists r. split.
    + apply filter_In. tauto.
    + apply Z.eqb_eq. exact Hz.
Qed.

Lemma is_empty_false {A} (l : list A) : is_empty l = false <-> l <> [].
Proof. destruct l; simpl; split; congruence. Qed.

(** The engine on a cleaned header table, in closed form. *)
Lemma loyalty_engine_cleaned (rules : list LoyaltyRule.t) (raw : list SalesHeader.t) :
  loyalty_engine rules (clean_sales_header raw)
  = if has_zero_threshold (active_rules rules)
       && negb (is_empty (clean_sales_header raw))
    then Raise IntCastingNaNError
    else Ok (accrue_all (active_rules rules) (init_points (clean_sales_header raw))).
Proof.
  unfold loyalty_engine.
  rewrite (foldM_apply_rule _ _ (init_points_amount_ok raw)
             (init_points_in_int64 _)).
  unfold init_points at 1. rewrite is_empty_map. reflexivity.
Qed.

Lemma loyalty_engine_rows rules raw scored :
  loyalty_engine rules (clean_sales_header raw) = Ok scored ->
  map ScoredHeader.row scored = clean_sales_header raw.
Proof.
  rewrite loyalty_engine_cleaned.
  destruct (has_zero_threshold (active_rules rules)
            && negb (is_empty (clean_sales_header raw))); [discriminate |].
  intros [= <-]. rewrite accrue_all_rows. unfold init_points.
  rewrite map_map. simpl. apply map_id.
Qed.

Lemma no_zero_threshold_if_nonzero (rules : list LoyaltyRule.t) :
  (forall r, In r rules -> rule_is_active r = true ->
             LoyaltyRule.min_spend_threshold r <> 0) ->
  has_zero_threshold (active_rules rules) = false.
Proof.
  intros Hpos. destruct (has_zero_threshold (active_rules rules)) eqn:E;
    [| reflexivity].
  apply has_zero_threshold_active in E as (r & Hin & Ha & Hz).
  specialize (Hpos r Hin Ha). contradiction.
Qed.

Lemma no_zero_threshold_if_positive (rules : list LoyaltyRule.t) :
  (forall r, In r rules -> rule_is_active r = true ->
             0 < LoyaltyRule.min_spend_threshold r) ->
  has_zero_threshold (active_rules rules) = false.
Proof.
  intros Hpos. apply no_zero_threshold_if_nonzero.
  intros r Hin Ha. specialize (Hpos r Hin Ha). lia.
Qed.

Lemma accrue_all_points rules hs (s : ScoredHeader.t) :
  In s (accrue_all rules (init_points hs)) ->
  In (ScoredHeader.row s) hs
  /\ ScoredHeader.earned_points s
     = wrap64 (sum_Z (map (fun r => row_points r (ScoredHeader.row s)) rules)).
Proof.
  unfold accrue_all, init_points. rewrite map_map. simpl.
  intros H. apply in_map_iff in H as (h & <- & Hin). simpl. tauto.
Qed.

Lemma wrap64_sum_wrap {A} (f : A -> Z) (l : list A) :
  wrap64 (sum_Z (map (fun x => wrap64 (f x)) l)) = wrap64 (sum_Z (map f l)).
Proof.
  induction l as [| x l IH]; [reflexivity |].
  cbn [map sum_Z fold_right].
  fold (sum_Z (map (fun x => wrap64 (f x)) l)). fold (sum_Z (map f l)).
  rewrite wrap64_add_l. rewrite <- wrap64_add_r, IH, wrap64_add_r.
  reflexivity.
Qed.

Lemma quot_exact_in_float64 (a t : Z) :
  exact_in_float64 a -> t <> 0 -> exact_in_float64 (Z.quot a t).
Proof.
  unfold exact_in_float64. intros Ha Ht.
  assert (H : Z.abs (Z.quot a t) <= Z.abs a).
  { rewrite <- Z.quot_abs by exact Ht. rewrite Z.quot_div_nonneg by lia.
    apply Z.div_le_upper_bound; [lia | nia]. }
  lia.
Qed.

(** Below [2 ^ 53] the increment of the code is the int64 image of the
    specification's formula. *)
Lemma spec_points_agree (rule : LoyaltyRule.t) (a : Z) :
  LoyaltyRule.min_spend_threshold rule <> 0 ->
  exact_in_float64 (LoyaltyRule.min_spend_threshold rule) ->
  exact_in_float64 a ->
  code_rule_points rule a = wrap64 (spec_rule_points rule a).
Proof.
  intros Hz Ht Ha. unfold code_rule_points, spec_rule_points.
  destruct (LoyaltyRule.min_spend_threshold rule <=? a); [| reflexivity].
  rewrite (true_divide_trunc_exact _ _ Ha Ht Hz).
  rewrite astype_int64_small
    by (apply exact_in_float64_in_int64, quot_exact_in_float64; assumption).
  apply wrap64_add_l.
Qed.

Lemma spec_earned_points_agree (rules : list LoyaltyRule.t) (a : Z) :
  (forall r, In r rules ->
     LoyaltyRule.min_spend_threshold r <> 0
     /\ exact_in_float64 (LoyaltyRule.min_spend_threshold r)) ->
  exact_in_float64 a ->
  wrap64 (sum_Z (map (fun r => code_rule_points r a) rules))
  = wrap64 (sum_Z (map (fun r => spec_rule_points r a) rules)).
Proof.
  intros Hrules Ha. rewrite <- (wrap64_sum_wrap (fun r => spec_rule_points r a)).
  f_equal. f_equal. apply map_ext_in. intros r Hr.
  destruct (Hrules r Hr) as (Hz & Ht). apply spec_points_agree; assumption.
Qed.

(** C1 (amended): when no active rule has threshold 0 and the active
    thresholds are below [2 ^ 53] in magnitude, the engine succeeds on
    the cleaned headers and keeps every transaction.  A transaction
    whose amount is below [2 ^ 53] earns the int64 image of the sum over
    the active rules of [floor(total_amount / threshold) *
    points_per_unit_spend + bonus_points] where [total_amount >=
    threshold], and of 0 elsewhere, with [floor] the truncation toward
    zero; it earns that sum itself when the sum fits in int64. *)
Theorem earned_points_sum_over_active_rules
    (rules : list LoyaltyRule.t) (raw : list SalesHeader.t) :
  (forall r, In r rules -> rule_is_active r = true ->
             LoyaltyRule.min_spend_threshold r <> 0
             /\ exact_in_float64 (LoyaltyRule.min_spend_threshold r)) ->
  exists scored,
    loyalty_engine rules (clean_sales_header raw) = Ok scored
    /\ map ScoredHeader.row scored = clean_sales_header raw
    /\ Forall (fun s =>
         exists a,
           SalesHeader.total_amount (ScoredHeader.row s) = Some a
           /\ (exact_in_float64 a ->
               ScoredHeader.earned_points s
               = wrap64 (spec_earned_points rules a))
           /\ (exact_in_float64 a ->
               in_int64 (spec_earned_points rules a) ->
               ScoredHeader.earned_points s = spec_earned_points rules a))
       scored.
Proof.
  intros Hrules.
  assert (Hnz : has_zero_threshold (active_rules rules) = false).
  { apply no_zero_threshold_if_nonzero. intros r Hin Ha.
    exact (proj1 (Hrules r Hin Ha)). }
  pose proof (loyalty_engine_cleaned rules raw) as E.
  rewrite Hnz in E. simpl in E.
  eexists. split; [exact E |]. split.
  - apply (loyalty_engine_rows rules raw). exact E.
  - apply Forall_forall. intros s Hs.
    apply accrue_all_points in Hs as (Hin & Hpts).
    apply clean_sales_header_In in Hin as (_ & a & Ha & Hnonneg).
    exists a. split; [exact Ha |].
    assert (Hw : exact_in_float64 a ->
                 ScoredHeader.earned_points s
                 = wrap64 (spec_earned_points rules a)).
    { intros Hsmall. rewrite Hpts. unfold spec_earned_points.
      rewrite <- spec_earned_points_agree; [| | exact Hsmall].
      - f_equal. f_equal. apply map_ext. intros r.
        unfold row_points. rewrite Ha. reflexivity.
      - intros r Hr. unfold active_rules in Hr.
        apply filter_In in Hr as (Hr & Hact). apply Hrules; assumption. }
    split; [exact Hw |].
    intros Hsmall Hfit. rewrite (Hw Hsmall). apply wrap64_small. exact Hfit.
Qed.

Lemma earned_points_sum_over_active_rules_witness :
  (forall r, In r [Sample.rule_A; Sample.rule_B] -> rule_is_active r = true ->
             LoyaltyRule.min_spend_threshold r <> 0
             /\ exact_in_float64 (LoyaltyRule.min_spend_threshold r))
  /\ exact_in_float64 250
  /\ in_int64 (spec_earned_points [Sample.rule_A; Sample.rule_B] 250)
  /\ loyalty_engine [Sample.rule_A; Sample.rule_B]
       (clean_sales_header [Sample.txn "T1" "C1" (Some 3) 250])
     = Ok [ScoredHeader.mk (Sample.txn "T1" "C1" (Some 3) 250) 25]
  /\ spec_rule_points Sample.rule_A 250 = 20
  /\ spec_rule_points Sample.rule_B 250 = 5.
Proof.
  assert (Hrules : forall r, In r [Sample.rule_A; Sample.rule_B] ->
                             rule_is_active r = true ->
                             LoyaltyRule.min_spend_threshold r <> 0
                             /\ exact_in_float64 (LoyaltyRule.min_spend_threshold r)).
  { intros r [<- | [<- | []]] _; simpl; unfold exact_in_float64;
      (split; [discriminate | split; reflexivity]). }
  assert (Hsmall : exact_in_float64 250) by (split; reflexivity).
  assert (Hfit : in_int64 (spec_earned_points [Sample.rule_A; Sample.rule_B] 250))
    by (split; vm_compute; discriminate).
  split; [exact Hrules |]. split; [exact Hsmall |]. split; [exact Hfit |].
  split; [| split; reflexivity].
  destruct (earned_points_sum_over_active_rules
              [Sample.rule_A; Sample.rule_B]
              [Sample.txn "T1" "C1" (Some 3) 250] Hrules)
    as (scored & E & Hrows & Hpts).
  rewrite E. f_equal.
  destruct scored as [| [row pts] [| s2 rest]]; try discriminate Hrows.
  simpl in Hrows. injection Hrows as ->.
  apply Forall_inv in Hpts. destruct Hpts as (a & Ha & _ & Hp).
  simpl in Ha, Hp. injection Ha as <-. rewrite (Hp Hsmall Hfit). reflexivity.
Defined.

(** The formula fails on amounts and totals the columns can hold.  With
    threshold 1, one point per unit and no bonus, a transaction of
    [2 ^ 53 + 1] earns [2 ^ 53]: the float64 quotient has lost the last
    bit.  With threshold 1 and 5 points per unit a transaction of
    [2 * 10 ^ 18] earns a negative number: the int64 product has wrapped.
    With threshold 0 the engine raises and no transaction earns
    anything. *)
Lemma earned_points_formula_fails_on_large_amounts :
  loyalty_engine [Sample.rule_unit]
    (clean_sales_header [Sample.txn "T1" "C1" (Some 3) (2 ^ 53 + 1)])
  = Ok [ScoredHeader.mk (Sample.txn "T1" "C1" (Some 3) (2 ^ 53 + 1)) (2 ^ 53)]
  /\ spec_earned_points [Sample.rule_unit] (2 ^ 53 + 1) = 2 ^ 53 + 1
  /\ loyalty_engine [Sample.rule_W]
       (clean_sales_header [Sample.txn "T1" "C1" (Some 3) 2000000000000000000])
     = Ok [ScoredHeader.mk (Sample.txn "T1" "C1" (Some 3) 2000000000000000000)
             (-8446744073709551616)]
  /\ spec_earned_points [Sample.rule_W] 2000000000000000000
     = 10000000000000000000
  /\ loyalty_engine [Sample.rule_zero]
       (clean_sales_header [Sample.txn "T1" "C1" (Some 3) 250])
     = Raise IntCastingNaNError.
Proof. repeat split; vm_compute; reflexivity. Qed.

(** ** Errors of the run *)

Lemma qcut_Raise xs labels e :
  qcut xs labels = Raise e -> e = BinEdgesMustBeUnique.
Proof.
  unfold qcut. destruct (has_duplicates _); [| discriminate].
  intros [= <-]. reflexivity.
Qed.

Lemma rfm_analytics_Raise rules hs e :
  rfm_analytics rules hs = Raise e -> e = BinEdgesMustBeUnique.
Proof.
  unfold rfm_analytics.
  destruct (qcut (map RFMMetrics.recency (rfm_metrics hs)) [3; 2; 1])
    as [Rs | e1] eqn:E1; simpl.
  2:{ intros [= <-]. apply (qcut_Raise _ _ _ E1). }
  destruct (qcut (map Some (rank_first (map RFMMetrics.frequency (rfm_metrics hs))))
              [1; 2; 3]) as [Fs | e2] eqn:E2; simpl.
  2:{ intros [= <-]. apply (qcut_Raise _ _ _ E2). }
  destruct (qcut (map (fun x => Some (RFMMetrics.monetary x)) (rfm_metrics hs))
              [1; 2; 3]) as [Ms | e3] eqn:E3; simpl.
  2:{ intros [= <-]. apply (qcut_Raise _ _ _ E3). }
  discriminate.
Qed.

Lemma transform_Raise_cast (data : Data) :
  transform data = Raise IntCastingNaNError <->
  loyalty_engine (loyalty_rules data) (cleaned_sales_header data)
  = Raise IntCastingNaNError.
Proof.
  unfold transform.
  destruct (loyalty_engine (loyalty_rules data) (cleaned_sales_header data))
    as [scored | e]; simpl.
  - split; [| discriminate].
    destruct (rfm_analytics (rfm_rules data) (map ScoredHeader.row scored))
      as [rfm | e] eqn:E; simpl; [discriminate |].
    intros [= ->]. apply rfm_analytics_Raise in E. discriminate E.
  - split; intros [= ->]; reflexivity.
Qed.

Lemma transform_under_Raise_cast (mode : fill_mode) (data : Data) :
  transform_under mode data = Raise IntCastingNaNError <->
  loyalty_engine (loyalty_rules data) (cleaned_sales_header data)
  = Raise IntCastingNaNError.
Proof.
  unfold transform_under.
  destruct (loyalty_engine (loyalty_rules data) (cleaned_sales_header data))
    as [scored | e]; simpl.
  - split; [| discriminate].
    destruct (rfm_analytics (rfm_rules data) (map ScoredHeader.row scored))
      as [rfm | e] eqn:E; simpl; [discriminate |].
    intros [= ->]. apply rfm_analytics_Raise in E. discriminate E.
  - split; intros [= ->]; reflexivity.
Qed.

(** C4 (amended): no check of the rule table precedes the accrual.
    Under either behaviour of line 92 the run ends in the integer-cast
    error of the accrual loop exactly when some active rule has
    threshold 0 and the cleaned header table is not empty.  In every
    other case the engine returns with every cleaned transaction.  A
    rule with a negative threshold is met by every transaction whose
    amount is not negative; below [2 ^ 53] it adds, in int64, the
    quotient truncated toward zero times the rate, plus the bonus. *)
Theorem zero_threshold_fails_inside_accrual (mode : fill_mode) (data : Data) :
  (transform_under mode data = Raise IntCastingNaNError <->
     (exists r, In r (loyalty_rules data) /\ rule_is_active r = true
                /\ LoyaltyRule.min_spend_threshold r = 0)
     /\ cleaned_sales_header data <> [])
  /\ (transform_under mode data <> Raise IntCastingNaNError ->
      exists scored,
        loyalty_engine (loyalty_rules data) (cleaned_sales_header data) = Ok scored
        /\ map ScoredHeader.row scored = cleaned_sales_header data)
  /\ (forall r h a,
        LoyaltyRule.min_spend_threshold r < 0 ->
        SalesHeader.total_amount (ScoredHeader.row h) = Some a -> 0 <= a ->
        exists q,
          div_astype_int a (LoyaltyRule.min_spend_threshold r) = Ok q
          /\ apply_rule_row r h
             = Ok (ScoredHeader.mk (ScoredHeader.row h)
                     (wrap64 (ScoredHeader.earned_points h
                              + (q * LoyaltyRule.points_per_unit_spend r
                                 + LoyaltyRule.bonus_points r))))
          /\ (exact_in_float64 (LoyaltyRule.min_spend_threshold r) ->
              exact_in_float64 a ->
              q = Z.quot a (LoyaltyRule.min_spend_threshold r))).
Proof.
  rewrite transform_under_Raise_cast. unfold cleaned_sales_header.
  split; [| split].
  - rewrite loyalty_engine_cleaned.
    rewrite <- has_zero_threshold_active, <- is_empty_false.
    destruct (has_zero_threshold (active_rules (loyalty_rules data)));
      destruct (is_empty (clean_sales_header (sales_header data))); simpl;
      (split; [intros H; try discriminate H; split; congruence
              | intros [H1 H2]; congruence]).
  - intros Hne.
    destruct (loyalty_engine (loyalty_rules data)
                (clean_sales_header (sales_header data)))
      as [scored | e] eqn:E.
    + exists scored. split; [reflexivity |].
      exact (loyalty_engine_rows _ _ _ E).
    + exfalso. apply Hne. f_equal.
      rewrite loyalty_engine_cleaned in E.
      destruct (has_zero_threshold (active_rules (loyalty_rules data))
                && negb (is_empty (clean_sales_header (sales_header data))));
        [injection E as <-; reflexivity | discriminate E].
  - intros r h a Hneg Ha Hpos.
    assert (Hz : LoyaltyRule.min_spend_threshold r <> 0) by lia.
    exists (astype_int64 (true_divide_trunc a (LoyaltyRule.min_spend_threshold r))).
    unfold apply_rule_row, div_astype_int. rewrite Ha.
    assert (E : (LoyaltyRule.min_spend_threshold r <=? a) = true)
      by (apply Z.leb_le; lia).
    rewrite E. apply Z.eqb_neq in Hz. rewrite Hz. simpl.
    split; [reflexivity |]. split.
    + rewrite wrap64_accrual. reflexivity.
    + intros Ht Hsmall. apply Z.eqb_neq in Hz.
      rewrite (true_divide_trunc_exact _ _ Hsmall Ht Hz).
      apply astype_int64_small, exact_in_float64_in_int64,
        quot_exact_in_float64; assumption.
Qed.

Lemma zero_threshold_fails_inside_accrual_witness :
  ((exists r, In r (loyalty_rules (Sample.with_rules [Sample.rule_zero] Sample.data))
              /\ rule_is_active r = true
              /\ LoyaltyRule.min_spend_threshold r = 0)
   /\ cleaned_sales_header (Sample.with_rules [Sample.rule_zero] Sample.data) <> [])
  /\ forall mode,
       transform_under mode (Sample.with_rules [Sample.rule_zero] Sample.data)
       = Raise IntCastingNaNError.
Proof.
  assert (H : (exists r,
                  In r (loyalty_rules
                          (Sample.with_rules [Sample.rule_zero] Sample.data))
                  /\ rule_is_active r = true
                  /\ LoyaltyRule.min_spend_threshold r = 0)
              /\ cleaned_sales_header
                   (Sample.with_rules [Sample.rule_zero] Sample.data) <> []).
  { split; [| vm_compute; discriminate].
    exists Sample.rule_zero. simpl. repeat split. left. reflexivity. }
  split; [exact H |]. intros mode.
  exact (proj2 (proj1 (zero_threshold_fails_inside_accrual mode
                         (Sample.with_rules [Sample.rule_zero] Sample.data))) H).
Defined.

(** An active rule with threshold -100 raises nothing: the engine gives
    the three cleaned transactions 0, 5 and 10 points, and the run
    completes under either behaviour of line 92. *)
Lemma negative_threshold_runs_without_error :
  (exists r, In r (loyalty_rules (Sample.with_rules [Sample.rule_negative] Sample.data))
             /\ rule_is_active r = true
             /\ LoyaltyRule.min_spend_threshold r <= 0)
  /\ (exists scored,
        loyalty_engine [Sample.rule_negative] (cleaned_sales_header Sample.data)
        = Ok scored
        /\ map (fun s => (SalesHeader.transaction_id (ScoredHeader.row s),
                          ScoredHeader.earned_points s)) scored
           = [("T1", 0); ("T2", 5); ("T3", 10)])
  /\ forall mode, exists out,
       transform_under mode (Sample.with_rules [Sample.rule_negative] Sample.data)
       = Ok out.
Proof.
  split; [| split].
  - exists Sample.rule_negative. simpl. repeat split; [tauto | lia].
  - eexists. split; vm_compute; reflexivity.
  - intros []; eexists; vm_compute; reflexivity.
Qed.

(** ** Group keys *)

Lemma ascii_compare_refl (a : Ascii.ascii) : Ascii.compare a a = Eq.
Proof. unfold Ascii.compare. apply N.compare_refl. Qed.

Lemma string_compare_refl (s : string) : String.compare s s = Eq.
Proof.
  induction s as [| a s IH]; simpl; [reflexivity |].
  rewrite ascii_compare_refl. exact IH.
Qed.

Lemma ascii_compare_lt_trans (a b c : Ascii.ascii) :
  Ascii.compare a b = Lt -> Ascii.compare b c = Lt -> Ascii.compare a c = Lt.
Proof.
  unfold Ascii.compare. rewrite !N.compare_lt_iff. apply N.lt_trans.
Qed.

Lemma string_compare_lt_trans (s1 : string) :
  forall s2 s3, String.compare s1 s2 = Lt -> String.compare s2 s3 = Lt ->
                String.compare s1 s3 = Lt.
Proof.
  induction s1 as [| a s1 IH]; intros [| b s2] [| c s3]; simpl;
    try discriminate; try reflexivity.
  destruct (Ascii.compare a b) eqn:Eab; try discriminate;
    destruct (Ascii.compare b c) eqn:Ebc; try discriminate; intros H12 H23.
  - apply Ascii.compare_eq_iff in Eab, Ebc. subst.
    rewrite ascii_compare_refl. apply (IH s2 s3); assumption.
  - apply Ascii.compare_eq_iff in Eab. subst. rewrite Ebc. reflexivity.
  - apply Ascii.compare_eq_iff in Ebc. subst. rewrite Eab. reflexivity.
  - rewrite (ascii_compare_lt_trans a b c Eab Ebc). reflexivity.
Qed.

Lemma insert_key_In (k x : string) (ks : list string) :
  In x (insert_key k ks) <-> x = k \/ In x ks.
Proof.
  induction ks as [| k' ks IH]; simpl.
  - intuition.
  - destruct (String.compare k k') eqn:E; simpl.
    + apply String.compare_eq_iff in E. subst k'. intuition.
    + intuition.
    + rewrite IH. intuition.
Qed.

Lemma group_keys_In (x : string) (ks : list string) :
  In x (group_keys ks) <-> In x ks.
Proof.
  induction ks as [| k ks IH]; simpl; [tauto |].
  rewrite insert_key_In, IH. intuition.
Qed.

Lemma insert_key_ascending (k : string) (ks : list string) :
  ascending ks -> ascending (insert_key k ks).
Proof.
  induction ks as [| k' ks IH]; simpl.
  - intros _. split; [constructor | exact I].
  - intros [Hall Hasc]. destruct (String.compare k k') eqn:E; simpl.
    + tauto.
    + split; [| tauto]. constructor; [exact E |].
      apply Forall_forall. intros y Hy. rewrite Forall_forall in Hall.
      apply (string_compare_lt_trans k k' y E (Hall y Hy)).
    + split; [| apply IH; exact Hasc].
      apply Forall_forall. intros y Hy. apply insert_key_In in Hy as [-> | Hy].
      * rewrite String.compare_antisym, E. reflexivity.
      * rewrite Forall_forall in Hall. apply Hall. exact Hy.
Qed.

Lemma ascending_NoDup (ks : list string) : ascending ks -> NoDup ks.
Proof.
  induction ks as [| k ks IH]; simpl; intros H; constructor.
  - destruct H as [Hall _]. intros Hin. rewrite Forall_forall in Hall.
    specialize (Hall k Hin). rewrite string_compare_refl in Hall. discriminate.
  - apply IH. tauto.
Qed.

Lemma group_keys_NoDup (ks : list string) : NoDup (group_keys ks).
Proof.
  apply ascending_NoDup. induction ks as [| k ks IH]; simpl.
  - exact I.
  - apply insert_key_ascending. exact IH.
Qed.

(** ** A left merge against a table with distinct keys *)

Lemma filter_find_unique {B} (kb : B -> string) (k : string) (r : list B) :
  NoDup (map kb r) ->
  filter (fun b => String.eqb k (kb b)) r
  = match find (fun b => String.eqb k (kb b)) r with
    | Some b => [b]
    | None => []
    end.
Proof.
  induction r as [| b r IH]; simpl; intros Hnd; [reflexivity |].
  inversion Hnd as [| ? ? Hnot Hnd']; subst.
  destruct (String.eqb k (kb b)) eqn:E.
  - f_equal. apply String.eqb_eq in E.
    destruct (filter (fun b0 => String.eqb k (kb b0)) r) as [| b' l] eqn:Ef;
      [reflexivity |].
    assert (Hin : In b' (filter (fun b0 => String.eqb k (kb b0)) r))
      by (rewrite Ef; left; reflexivity).
    apply filter_In in Hin as (Hin & Hk). apply String.eqb_eq in Hk.
    exfalso. apply Hnot. rewrite <- E, Hk. apply in_map. exact Hin.
  - apply IH. exact Hnd'.
Qed.

Lemma merge_left_lookup {A B} (ka : A -> string) (kb : B -> string)
    (left : list A) (right : list B) :
  NoDup (map kb right) ->
  merge_left (fun a b => String.eqb (ka a) (kb b)) left right
  = map (fun a => (a, find (fun b => String.eqb (ka a) (kb b)) right)) left.
Proof.
  intros Hnd. unfold merge_left. induction left as [| a left IH];
    [reflexivity |].
  cbn [flat_map]. rewrite IH.
  rewrite (filter_find_unique kb (ka a) right Hnd).
  destruct (find (fun b => String.eqb (ka a) (kb b)) right) eqn:E;
    simpl; rewrite E; reflexivity.
Qed.

Lemma find_keyed {V} (g : string -> V) (k : string) (keys : list string) :
  find (fun p => String.eqb k (fst p)) (map (fun k' => (k', g k')) keys)
  = if isin k keys then Some (k, g k) else None.
Proof.
  unfold isin. induction keys as [| k' keys IH]; simpl; [reflexivity |].
  destruct (String.eqb k k') eqn:E; simpl.
  - apply String.eqb_eq in E. subst k'. reflexivity.
  - exact IH.
Qed.

(** ** Points per customer *)

Lemma rows_of_customer_nil (k : string) (scored : list ScoredHeader.t) :
  ~ In k (map (fun h => SalesHeader.customer_id (ScoredHeader.row h)) scored) ->
  rows_of_customer k scored = [].
Proof.
  intros Hnot. unfold rows_of_customer.
  destruct (filter _ scored) as [| h l] eqn:E; [reflexivity |].
  assert (Hin : In h (filter
            (fun h => String.eqb (SalesHeader.customer_id (ScoredHeader.row h)) k)
            scored)) by (rewrite E; left; reflexivity).
  apply filter_In in Hin as (Hin & Hk). apply String.eqb_eq in Hk.
  exfalso. apply Hnot. rewrite <- Hk.
  apply (in_map (fun h => SalesHeader.customer_id (ScoredHeader.row h))).
  exact Hin.
Qed.

Lemma existsb_map_compose {A B} (f : B -> bool) (g : A -> B) (l : list A) :
  existsb f (map g l) = existsb (fun a => f (g a)) l.
Proof. induction l as [| a l IH]; simpl; [reflexivity | rewrite IH; reflexivity]. Qed.

Lemma has_transaction_isin (k : string) (scored : list ScoredHeader.t) :
  isin k (group_keys (map (fun h => SalesHeader.customer_id (ScoredHeader.row h))
                          scored))
  = has_transaction k scored.
Proof.
  unfold has_transaction.
  destruct (isin k _) eqn:E.
  - apply isin_In, group_keys_In, in_map_iff in E as (h & Eh & Hin).
    unfold rows_of_customer.
    destruct (filter _ scored) as [| h' l] eqn:Ef; [| reflexivity].
    exfalso.
    assert (Hf : In h (filter
              (fun h => String.eqb (SalesHeader.customer_id (ScoredHeader.row h)) k)
              scored)).
    { apply filter_In. split; [exact Hin |]. apply String.eqb_eq. exact Eh. }
    rewrite Ef in Hf. destruct Hf.
  - rewrite rows_of_customer_nil; [reflexivity |].
    intros Hin. apply group_keys_In, isin_In in Hin. congruence.
Qed.

(** Lines 90-93 in closed form, under either behaviour of line 92. *)
Lemma update_points_under_credited (mode : fill_mode) (cs : list Customer.t)
    (scored : list ScoredHeader.t) :
  update_points_under mode cs scored = map (credited mode cs scored) cs.
Proof.
  unfold update_points_under, assign_total_loyalty_points, merge_points,
    points_by_customer, same_customer_points.
  rewrite (merge_left_lookup Customer.customer_id fst).
  2:{ rewrite map_map. simpl. rewrite map_id. apply group_keys_NoDup. }
  assert (Hfind : forall c,
            find (fun b => String.eqb (Customer.customer_id c) (fst b))
              (map (fun k => (k, sum_int64 (map ScoredHeader.earned_points
                                              (rows_of_customer k scored))))
                 (group_keys
                    (map (fun h => SalesHeader.customer_id (ScoredHeader.row h))
                         scored)))
            = if has_transaction (Customer.customer_id c) scored
              then Some (Customer.customer_id c,
                         sum_int64 (map ScoredHeader.earned_points
                                      (rows_of_customer (Customer.customer_id c)
                                         scored)))
              else None).
  { intros c.
    rewrite (find_keyed
               (fun k => sum_int64 (map ScoredHeader.earned_points
                                      (rows_of_customer k scored)))).
    rewrite has_transaction_isin. reflexivity. }
  assert (Hup : existsb (fun cp : Customer.t * option (string * Z) =>
                           is_null (snd cp))
                  (map (fun a =>
                          (a, find (fun b => String.eqb (Customer.customer_id a)
                                                        (fst b))
                                (map (fun k =>
                                        (k, sum_int64
                                              (map ScoredHeader.earned_points
                                                 (rows_of_customer k scored))))
                                   (group_keys
                                      (map (fun h => SalesHeader.customer_id
                                                       (ScoredHeader.row h))
                                           scored))))) cs)
                = leaves_null cs scored).
  { rewrite existsb_map_compose. unfold leaves_null.
    induction cs as [| c cs IH]; [reflexivity |]. cbn [existsb].
    f_equal; [| exact IH]. cbn [snd]. rewrite Hfind.
    destruct (has_transaction (Customer.customer_id c) scored); reflexivity. }
  rewrite Hup. clear Hup.
  destruct mode; cbn [fillna_earned_points_under]; unfold fillna_earned_points;
    rewrite !map_map; apply map_ext; intros c; cbn [fst snd CustomerOut.base
      CustomerOut.earned_points]; rewrite Hfind;
    unfold credited, stored_points, merged_total, unfilled;
    destruct (has_transaction (Customer.customer_id c) scored); reflexivity.
Qed.

Lemma update_points_credited (cs : list Customer.t) (scored : list ScoredHeader.t) :
  update_points cs scored = map (credited FillReachesFrame cs scored) cs.
Proof. exact (update_points_under_credited FillReachesFrame cs scored). Qed.

(** When the exact total is below [2 ^ 53] in magnitude, neither the
    int64 sum nor the conversion to float64 changes it. *)
Lemma merged_total_exact (upcast : bool) (k : string)
    (scored : list ScoredHeader.t) :
  exact_in_float64 (customer_total k scored) ->
  merged_total upcast k scored = customer_total k scored.
Proof.
  intros H. unfold merged_total, customer_total in *.
  rewrite sum_int64_exact by (apply exact_in_float64_in_int64; exact H).
  destruct upcast; [apply float_of_int_exact; exact H | reflexivity].
Qed.

(** [transform] is the stage when the fill of line 92 reaches the frame. *)
Lemma transform_under_in_place (data : Data) :
  transform_under FillReachesFrame data = transform data.
Proof. reflexivity. Qed.

Lemma transform_under_Ok_inv (mode : fill_mode) (data : Data) (out : Output) :
  transform_under mode data = Ok out ->
  exists scored rfm,
    loyalty_engine (loyalty_rules data) (cleaned_sales_header data) = Ok scored
    /\ rfm_analytics (rfm_rules data) (map ScoredHeader.row scored) = Ok rfm
    /\ out = mkOutput (update_points_under mode (customers data) scored)
               (cleaned_products data) (stores data) (promotions data)
               (fact_table data)
               (merge_left same_customer_rfm
                  (update_points_under mode (customers data) scored) rfm).
Proof.
  unfold transform_under. intros H.
  apply bind_Ok_inv in H as (scored & Hs & H).
  apply bind_Ok_inv in H as (rfm & Hr & H).
  injection H as <-. exists scored, rfm. repeat split; assumption.
Qed.

Lemma has_transaction_cleaned (data : Data) (scored : list ScoredHeader.t)
    (k : string) :
  map ScoredHeader.row scored = cleaned_sales_header data ->
  (has_transaction k scored = true <->
   exists h, In h (cleaned_sales_header data) /\ SalesHeader.customer_id h = k).
Proof.
  intros Hrows. rewrite <- has_transaction_isin, isin_In, group_keys_In.
  rewrite <- (map_map ScoredHeader.row SalesHeader.customer_id), Hrows.
  rewrite in_map_iff. split; intros (h & H1 & H2); exists h; tauto.
Qed.

Lemma transform_Ok_inv (data : Data) (out : Output) :
  transform data = Ok out ->
  exists scored rfm,
    loyalty_engine (loyalty_rules data) (cleaned_sales_header data) = Ok scored
    /\ rfm_analytics (rfm_rules data) (map ScoredHeader.row scored) = Ok rfm
    /\ out = mkOutput (update_points (customers data) scored)
               (cleaned_products data) (stores data) (promotions data)
               (fact_table data)
               (merge_left same_customer_rfm
                  (update_points (customers data) scored) rfm).
Proof.
  unfold transform. intros H.
  apply bind_Ok_inv in H as (scored & Hs & H).
  apply bind_Ok_inv in H as (rfm & Hr & H).
  injection H as <-. exists scored, rfm. repeat split; assumption.
Qed.

(** C8 (failing input): after a run that completes, the customer table
    has one row per input customer, in order, whose
    [total_loyalty_points] is its [earned_points], whatever total was
    stored before.  For a customer with transactions in the cleaned
    snapshot whose points add up to less than [2 ^ 53] in magnitude, it
    is the sum of [earned_points] over those transactions.  For a
    customer without a transaction there it is 0 only when the fill of
    line 92 reaches the frame; under copy-on-write the fill is lost and
    the total is null. *)
Theorem total_points_null_without_transactions (mode : fill_mode)
    (data : Data) (out : Output) :
  transform_under mode data = Ok out ->
  exists scored,
    loyalty_engine (loyalty_rules data) (cleaned_sales_header data) = Ok scored
    /\ map ScoredHeader.row scored = cleaned_sales_header data
    /\ out_customers out
       = map (credited mode (customers data) scored) (customers data)
    /\ (forall c, In c (customers data) ->
          CustomerOut.base (credited mode (customers data) scored c)
          = set_total_loyalty_points c
              (CustomerOut.earned_points
                 (credited mode (customers data) scored c))
          /\ ((forall h, In h (cleaned_sales_header data) ->
                         SalesHeader.customer_id h <> Customer.customer_id c) ->
              CustomerOut.earned_points (credited mode (customers data) scored c)
              = match mode with
                | FillReachesFrame => Some 0
                | CopyOnWrite => None
                end)
          /\ ((exists h, In h (cleaned_sales_header data)
                         /\ SalesHeader.customer_id h = Customer.customer_id c) ->
              exact_in_float64 (customer_total (Customer.customer_id c) scored) ->
              CustomerOut.earned_points (credited mode (customers data) scored c)
              = Some (sum_Z (map ScoredHeader.earned_points
                               (rows_of_customer (Customer.customer_id c)
                                  scored))))).
Proof.
  intros H. apply transform_under_Ok_inv in H as (scored & rfm & Hs & _ & ->).
  exists scored. split; [exact Hs |].
  pose proof (loyalty_engine_rows _ _ _ Hs) as Hrows.
  split; [exact Hrows |]. split; [apply update_points_under_credited |].
  intros c _. split; [reflexivity |].
  pose proof (has_transaction_cleaned data scored (Customer.customer_id c) Hrows)
    as Hhas.
  unfold credited, stored_points. cbn [CustomerOut.earned_points].
  split.
  - intros Hnone.
    destruct (has_transaction (Customer.customer_id c) scored) eqn:E.
    + destruct (proj1 Hhas eq_refl) as (h & Hin & Hk).
      exfalso. exact (Hnone h Hin Hk).
    + destruct mode; reflexivity.
  - intros Hsome Hsmall. rewrite (proj2 Hhas Hsome). f_equal.
    apply merged_total_exact. exact Hsmall.
Qed.

Lemma total_points_null_without_transactions_witness :
  (exists out,
     transform_under CopyOnWrite Sample.data = Ok out
     /\ map (fun c => (Customer.customer_id (CustomerOut.base c),
                       Customer.total_loyalty_points (CustomerOut.base c)))
            (out_customers out)
        = [("C1", Some 25); ("C2", Some 17); ("C3", Some 0); ("C4", None)])
  /\ (exists out,
        transform_under FillReachesFrame Sample.data = Ok out
        /\ map (fun c => (Customer.customer_id (CustomerOut.base c),
                          Customer.total_loyalty_points (CustomerOut.base c)))
               (out_customers out)
           = [("C1", Some 25); ("C2", Some 17); ("C3", Some 0); ("C4", Some 0)]).
Proof.
  split.
  - destruct (transform_under CopyOnWrite Sample.data) as [out | e] eqn:E;
      [| vm_compute in E; discriminate E].
    exists out. split; [reflexivity |].
    destruct (total_points_null_without_transactions CopyOnWrite Sample.data out E)
      as (scored & Hs & _ & Hc & _).
    rewrite Hc. vm_compute in Hs. injection Hs as <-. vm_compute. reflexivity.
  - destruct (transform_under FillReachesFrame Sample.data) as [out | e] eqn:E;
      [| vm_compute in E; discriminate E].
    exists out. split; [reflexivity |].
    destruct (total_points_null_without_transactions FillReachesFrame
                Sample.data out E)
      as (scored & Hs & _ & Hc & _).
    rewrite Hc. vm_compute in Hs. injection Hs as <-. vm_compute. reflexivity.
Defined.

(** ** The RFM table *)

Lemma qcut_Ok xs labels ys :
  qcut xs labels = Ok ys ->
  has_duplicates (bin_edges3 (sort_Z (dropna xs))) = false
  /\ ys = map (fun c =>
                 match c with
                 | Some x => label_of labels (bin_edges3 (sort_Z (dropna xs)))
                               (bin_id (bin_edges3 (sort_Z (dropna xs))) x)
                 | None => None
                 end) xs.
Proof.
  unfold qcut. destruct (has_duplicates _); [discriminate |].
  intros [= <-]. split; reflexivity.
Qed.

Lemma qcut_length xs labels ys :
  qcut xs labels = Ok ys -> List.length ys = List.length xs.
Proof.
  intros H. apply qcut_Ok in H as (_ & ->). apply length_map.
Qed.

Lemma rank_first_from_length (before all rest : list Z) :
  List.length (rank_first_from before all rest) = List.length rest.
Proof.
  revert before. induction rest as [| x rest IH]; intros before; simpl;
    [reflexivity |].
  rewrite IH. reflexivity.
Qed.

Lemma zip4_first {A B C D} (la : list A) :
  forall (lb : list B) (lc : list C) (ld : list D),
    List.length lb = List.length la ->
    List.length lc = List.length la ->
    List.length ld = List.length la ->
    map (fun x => fst (fst (fst x))) (zip4 la lb lc ld) = la.
Proof.
  induction la as [| a la IH]; intros [| b lb] [| c lc] [| d ld]; simpl;
    try discriminate; try reflexivity.
  intros [= Hb] [= Hc] [= Hd]. rewrite IH by assumption. reflexivity.
Qed.

Lemma rfm_analytics_Ok rules hs rfm :
  rfm_analytics rules hs = Ok rfm ->
  map RFMRow.metrics rfm = rfm_metrics hs
  /\ forall x, In x rfm ->
       RFMRow.segment x = segment_customer rules (RFMRow.RFM_Score x)
       /\ RFMRow.RFM_Score x
          = rfm_score (RFMRow.R x) (RFMRow.F x) (RFMRow.M x).
Proof.
  unfold rfm_analytics. intros H.
  apply bind_Ok_inv in H as (Rs & HR & H).
  apply bind_Ok_inv in H as (Fs & HF & H).
  apply bind_Ok_inv in H as (Ms & HM & H).
  injection H as <-. split.
  - rewrite map_map.
    rewrite <- (zip4_first (rfm_metrics hs) Rs Fs Ms) at 2.
    + apply map_ext. intros [[[mt r] f] m]. reflexivity.
    + rewrite (qcut_length _ _ _ HR). apply length_map.
    + rewrite (qcut_length _ _ _ HF). rewrite length_map.
      unfold rank_first. rewrite rank_first_from_length. apply length_map.
    + rewrite (qcut_length _ _ _ HM). apply length_map.
  - intros x Hx. apply in_map_iff in Hx as ([[[mt r] f] m] & <- & _).
    simpl. split; reflexivity.
Qed.

Lemma rfm_metrics_keys (hs : list SalesHeader.t) :
  map RFMMetrics.customer_id (rfm_metrics hs)
  = group_keys (map SalesHeader.customer_id hs).
Proof.
  unfold rfm_metrics. rewrite map_map. simpl. apply map_id.
Qed.

Lemma segment_customer_unmatched rules score :
  (forall r, In r rules -> in_range r score = false) ->
  segment_customer rules score = "Unclassified".
Proof.
  induction rules as [| r rules IH]; intros Hnone; [reflexivity |].
  rewrite segment_customer_cons, (Hnone r (or_introl eq_refl)).
  apply IH. intros r' Hr'. apply Hnone. right. exact Hr'.
Qed.

(** C6 (amended): in the merged output of a completed run every customer
    has exactly one row.  A customer with a transaction in the cleaned
    snapshot carries an RFM row whose segment is the classifier's answer
    for its score, hence a name, "Unclassified" when no boundary rule holds
    the score.  A customer without a transaction carries no RFM row: its
    segment, like its other RFM columns, is null. *)
Theorem segment_assigned_iff_has_transaction (data : Data) (out : Output) :
  transform data = Ok out ->
  map fst (customer_loyalty_segments out) = out_customers out
  /\ forall c x, In (c, x) (customer_loyalty_segments out) ->
       ((exists h, In h (cleaned_sales_header data)
                   /\ SalesHeader.customer_id h
                      = Customer.customer_id (CustomerOut.base c)) ->
        exists row,
          x = Some row
          /\ RFMRow.segment row
             = segment_customer (rfm_rules data) (RFMRow.RFM_Score row)
          /\ ((forall r, In r (rfm_rules data) ->
                         in_range r (RFMRow.RFM_Score row) = false) ->
              RFMRow.segment row = "Unclassified"))
       /\ ((forall h, In h (cleaned_sales_header data) ->
                      SalesHeader.customer_id h
                      <> Customer.customer_id (CustomerOut.base c)) ->
           x = None).
Proof.
  intros H. apply transform_Ok_inv in H as (scored & rfm & Hs & Hr & ->).
  simpl. pose proof (loyalty_engine_rows _ _ _ Hs) as Hrows.
  apply rfm_analytics_Ok in Hr as (Hmetrics & Hseg).
  assert (Hkeys : map (fun x => RFMMetrics.customer_id (RFMRow.metrics x)) rfm
                  = group_keys (map SalesHeader.customer_id
                                    (cleaned_sales_header data))).
  { rewrite <- (map_map RFMRow.metrics RFMMetrics.customer_id), Hmetrics.
    rewrite rfm_metrics_keys, Hrows. reflexivity. }
  unfold same_customer_rfm.
  rewrite (merge_left_lookup
             (fun c => Customer.customer_id (CustomerOut.base c))
             (fun x => RFMMetrics.customer_id (RFMRow.metrics x)))
    by (rewrite Hkeys; apply group_keys_NoDup).
  split.
  - rewrite map_map. simpl. apply map_id.
  - intros c x Hin. apply in_map_iff in Hin as (c' & E & _).
    injection E as -> <-.
    destruct (find _ rfm) as [row |] eqn:Ef.
    + apply find_some in Ef as (Hrow & Hk). apply String.eqb_eq in Hk. split.
      * intros _. exists row. split; [reflexivity |].
        destruct (Hseg row Hrow) as (Hs1 & _). split; [exact Hs1 |].
        intros Hnone. rewrite Hs1. apply segment_customer_unmatched. exact Hnone.
      * intros Hnone. exfalso.
        assert (Hin : In (Customer.customer_id (CustomerOut.base c))
                        (group_keys (map SalesHeader.customer_id
                                         (cleaned_sales_header data)))).
        { rewrite <- Hkeys, Hk.
          apply (in_map (fun x => RFMMetrics.customer_id (RFMRow.metrics x))).
          exact Hrow. }
        apply group_keys_In, in_map_iff in Hin as (h & Eh & Hh).
        apply (Hnone h Hh Eh).
    + split; [| reflexivity].
      intros (h & Hh & Eh). exfalso.
      assert (Hin : In (Customer.customer_id (CustomerOut.base c))
                      (map (fun x => RFMMetrics.customer_id (RFMRow.metrics x)) rfm)).
      { rewrite Hkeys. apply group_keys_In. rewrite <- Eh.
        apply in_map. exact Hh. }
      apply in_map_iff in Hin as (row & Ek & Hrow).
      pose proof (find_none _ _ Ef row Hrow) as Hf. simpl in Hf.
      rewrite Ek, String.eqb_refl in Hf. discriminate Hf.
Qed.

Lemma segment_assigned_iff_has_transaction_witness :
  exists out,
    transform Sample.data = Ok out
    /\ map fst (customer_loyalty_segments out) = out_customers out.
Proof.
  destruct (transform Sample.data) as [out | e] eqn:E;
    [| vm_compute in E; discriminate E].
  exists out. split; [reflexivity |].
  exact (proj1 (segment_assigned_iff_has_transaction Sample.data out E)).
Defined.

(** Customer C4 of the sample has no transaction: the run completes and
    its row of the merged output has a null segment. *)
Lemma customer_without_transaction_has_null_segment :
  exists out,
    transform Sample.data = Ok out
    /\ map (fun cx => (Customer.customer_id (CustomerOut.base (fst cx)),
                       option_map RFMRow.segment (snd cx)))
           (customer_loyalty_segments out)
       = [("C1", Some "Unclassified"); ("C2", Some "Gold");
          ("C3", Some "Gold"); ("C4", None)].
Proof. eexists. split; reflexivity. Qed.

(** ** Degenerate binning *)

Lemma insert_sorted_In (x y : Z) (l : list Z) :
  In y (insert_sorted x l) <-> y = x \/ In y l.
Proof.
  induction l as [| z l IH]; simpl.
  - intuition.
  - destruct (x <=? z); simpl; [intuition |]. rewrite IH. intuition.
Qed.

Lemma sort_Z_In (y : Z) (l : list Z) : In y (sort_Z l) <-> In y l.
Proof.
  induction l as [| x l IH]; simpl; [tauto |].
  rewrite insert_sorted_In, IH. intuition.
Qed.

Lemma dropna_In (x : Z) (xs : list (option Z)) :
  In x (dropna xs) <-> In (Some x) xs.
Proof.
  unfold dropna. rewrite in_flat_map. split.
  - intros ([y |] & Hin & H); simpl in H; [| destruct H].
    destruct H as [<- | []]. exact Hin.
  - intros H. exists (Some x). split; [exact H | left; reflexivity].
Qed.

Lemma quantile3_first (ys : list Z) : quantile3 ys 0 = 3 * nth 0 ys 0.
Proof. unfold quantile3. simpl. lia. Qed.

Lemma quantile3_last (ys : list Z) :
  quantile3 ys 3 = 3 * nth (List.length ys - 1) ys 0.
Proof.
  unfold quantile3. rewrite (Nat.mul_comm 3).
  rewrite Nat.div_mul by discriminate. rewrite Nat.Div0.mod_mul. simpl. lia.
Qed.

Lemma nth_constant (ys : list Z) (v : Z) (i : nat) :
  (forall y, In y ys -> y = v) -> (i < List.length ys)%nat -> nth i ys 0 = v.
Proof. intros Hall Hi. apply Hall. apply nth_In. exact Hi. Qed.

Lemma has_duplicates_ends (e0 e1 e2 e3 : Z) :
  e0 = e3 -> has_duplicates [e0; e1; e2; e3] = true.
Proof.
  intros ->. simpl. rewrite Z.eqb_refl, !orb_true_r. reflexivity.
Qed.

Lemma insert_sorted_nondecreasing (x : Z) (l : list Z) :
  nondecreasing l -> nondecreasing (insert_sorted x l).
Proof.
  induction l as [| y l IH]; simpl.
  - intros _. split; [constructor | exact I].
  - intros [Hall Hl]. destruct (x <=? y) eqn:E; simpl.
    + apply Z.leb_le in E. split; [| tauto].
      constructor; [exact E |].
      apply Forall_forall. intros z Hz. rewrite Forall_forall in Hall.
      specialize (Hall z Hz). lia.
    + apply Z.leb_gt in E. split; [| apply IH; exact Hl].
      apply Forall_forall. intros z Hz.
      apply insert_sorted_In in Hz as [-> | Hz]; [lia |].
      rewrite Forall_forall in Hall. apply Hall. exact Hz.
Qed.

Lemma sort_Z_nondecreasing (l : list Z) : nondecreasing (sort_Z l).
Proof.
  induction l as [| x l IH]; simpl; [exact I |].
  apply insert_sorted_nondecreasing. exact IH.
Qed.

Lemma nondecreasing_first (ys : list Z) (y : Z) :
  nondecreasing ys -> In y ys -> nth 0 ys 0 <= y.
Proof.
  destruct ys as [| x ys]; simpl; [tauto |].
  intros [Hall _] [<- | Hin]; [lia |].
  rewrite Forall_forall in Hall. apply Hall. exact Hin.
Qed.

Lemma nondecreasing_last (ys : list Z) :
  forall y, nondecreasing ys -> In y ys -> y <= nth (List.length ys - 1) ys 0.
Proof.
  induction ys as [| x ys IH]; [simpl; tauto |].
  intros y [Hall Hys] Hin.
  destruct ys as [| x' ys'].
  - destruct Hin as [<- | []]. simpl. lia.
  - assert (El : (List.length (x' :: ys') - 1 = List.length ys')%nat)
      by (simpl; lia).
    assert (Eg : nth (List.length (x :: x' :: ys') - 1) (x :: x' :: ys') 0
                 = nth (List.length ys') (x' :: ys') 0)
      by (simpl; reflexivity).
    rewrite Eg. rewrite El in IH.
    destruct Hin as [<- | Hin].
    + rewrite Forall_forall in Hall. apply Hall.
      apply nth_In. simpl. lia.
    + apply IH; assumption.
Qed.




(** A column whose non-null values are all the same (or that has none)
    has coinciding cut points, and [qcut] raises. *)
Lemma qcut_constant (xs : list (option Z)) (labels : list Z) (v : Z) :
  (forall x, In (Some x) xs -> x = v) ->
  qcut xs labels = Raise BinEdgesMustBeUnique.
Proof.
  intros Hall. unfold qcut, bin_edges3. simpl map.
  rewrite has_duplicates_ends; [reflexivity |].
  rewrite quantile3_first, quantile3_last. f_equal.
  set (ys := sort_Z (dropna xs)).
  assert (Hys : forall y, In y ys -> y = v).
  { intros y Hy. apply sort_Z_In, dropna_In in Hy. apply Hall. exact Hy. }
  destruct ys as [| y0 ys'] eqn:E; [reflexivity |].
  rewrite (nth_constant _ v 0 Hys) by (simpl; lia).
  rewrite (nth_constant _ v _ Hys) by (simpl; lia).
  reflexivity.
Qed.














(** C3 (failing input): customer C1 has one transaction, whose date is
    null.  Its recency and its rank R are null, the row sum casts the
    null to the int64 minimum, and its RFM score is
    [- 2 ^ 63 + 1 + 1 = -9223372036854775806]. *)
Theorem rfm_score_of_undated_customer_is_below_range :
  forall mode, exists out,
    transform_under mode Sample.undated = Ok out
    /\ map (fun cx =>
              (Customer.customer_id (CustomerOut.base (fst cx)),
               option_map (fun x => (RFMMetrics.recency (RFMRow.metrics x),
                                     RFMRow.R x, RFMRow.F x, RFMRow.M x,
                                     RFMRow.RFM_Score x)) (snd cx)))
           (customer_loyalty_segments out)
       = [("C1", Some (None, None, Some 1, Some 1, -9223372036854775806));
          ("C2", Some (Some 5, Some 1, Some 2, Some 2, 5));
          ("C3", Some (Some 1, Some 3, Some 3, Some 3, 9));
          ("C4", None)].
Proof. intros []; eexists; split; vm_compute; reflexivity. Qed.

(** ** Ranks and the range of the score *)

Lemma bin_id_range (xs : list (option Z)) (x : Z) :
  In (Some x) xs ->
  (1 <= bin_id (bin_edges3 (sort_Z (dropna xs))) x <= 3)%nat.
Proof.
  intros Hin. apply dropna_In, sort_Z_In in Hin.
  pose proof (nondecreasing_first _ x (sort_Z_nondecreasing _) Hin) as Hlo.
  pose proof (nondecreasing_last _ x (sort_Z_nondecreasing _) Hin) as Hhi.
  unfold bin_id, bin_edges3, searchsorted_left. cbn [map hd filter].
  rewrite quantile3_first, quantile3_last.
  set (ys := sort_Z (dropna xs)) in *.
  destruct (3 * nth 0 ys 0 =? 3 * x) eqn:E0; [lia |].
  apply Z.eqb_neq in E0.
  assert (E1 : (3 * nth 0 ys 0 <? 3 * x) = true) by (apply Z.ltb_lt; lia).
  assert (E2 : (3 * nth (List.length ys - 1) ys 0 <? 3 * x) = false)
    by (apply Z.ltb_ge; lia).
  rewrite E1, E2.
  destruct (quantile3 ys 1 <? 3 * x), (quantile3 ys 2 <? 3 * x); simpl; lia.
Qed.

Lemma label_of_range (a b c : Z) (xs : list Z) (id : nat) :
  (1 <= id <= 3)%nat ->
  exists l, label_of [a; b; c] (bin_edges3 xs) id = Some l /\ In l [a; b; c].
Proof.
  intros Hid. unfold label_of, bin_edges3. cbn [map List.length].
  destruct id as [| [| [| [| id]]]]; try lia; simpl; eexists; split;
    try reflexivity; simpl; tauto.
Qed.

Lemma qcut_labels (xs : list (option Z)) (a b c : Z) (ys : list (option Z)) :
  qcut xs [a; b; c] = Ok ys ->
  exists g : option Z -> option Z,
    ys = map g xs
    /\ g None = None
    /\ forall x, In (Some x) xs -> exists l, g (Some x) = Some l /\ In l [a; b; c].
Proof.
  intros H. apply qcut_Ok in H as (_ & ->).
  eexists. split; [reflexivity |]. split; [reflexivity |].
  intros x Hx. apply label_of_range. apply bin_id_range. exact Hx.
Qed.

Lemma zip4_In {A B C D} (la : list A) :
  forall (lb : list B) (lc : list C) (ld : list D) a b c d,
    In (a, b, c, d) (zip4 la lb lc ld) ->
    In (a, b) (combine la lb) /\ In c lc /\ In d ld.
Proof.
  induction la as [| a0 la IH]; intros [| b0 lb] [| c0 lc] [| d0 ld] a b c d;
    simpl; try tauto.
  intros [[= -> -> -> ->] | H]; [tauto |].
  apply IH in H. tauto.
Qed.

Lemma combine_map_In {A B} (h : A -> B) (l : list A) (a : A) (b : B) :
  In (a, b) (combine l (map h l)) -> In a l /\ b = h a.
Proof.
  induction l as [| a0 l IH]; simpl; [tauto |].
  intros [[= -> ->] | H]; [tauto |]. apply IH in H. tauto.
Qed.

(** On every path where the three ranks exist the score is in 3..9: a
    customer with a dated transaction gets three ranks in 1..3.  A
    customer whose dates are all null gets no rank R, and a score within
    6 of the int64 minimum. *)
Lemma rfm_score_range rules hs rfm :
  rfm_analytics rules hs = Ok rfm ->
  forall x, In x rfm ->
    (RFMMetrics.recency (RFMRow.metrics x) <> None ->
     3 <= RFMRow.RFM_Score x <= 9)
    /\ (RFMMetrics.recency (RFMRow.metrics x) = None ->
        RFMRow.R x = None
        /\ int64_min + 2 <= RFMRow.RFM_Score x <= int64_min + 6).
Proof.
  unfold rfm_analytics. intros H.
  apply bind_Ok_inv in H as (Rs & HR & H).
  apply bind_Ok_inv in H as (Fs & HF & H).
  apply bind_Ok_inv in H as (Ms & HM & H).
  injection H as <-.
  apply qcut_labels in HR as (gR & -> & HRn & HRs).
  apply qcut_labels in HF as (gF & -> & _ & HFs).
  apply qcut_labels in HM as (gM & -> & _ & HMs).
  intros x Hx. apply in_map_iff in Hx as ([[[mt r] f] m] & <- & Hz). simpl.
  apply zip4_In in Hz as (Hr & Hf & Hm).
  rewrite map_map in Hr. apply combine_map_In in Hr as (Hmt & ->).
  apply in_map_iff in Hf as (cf & <- & Hcf).
  assert (HF1 : exists l, gF cf = Some l /\ 1 <= l <= 3).
  { pose proof Hcf as Hcf'. apply in_map_iff in Hcf' as (rk & <- & _).
    destruct (HFs rk Hcf) as (l & -> & Hl). exists l. split; [reflexivity |].
    simpl in Hl. lia. }
  apply in_map_iff in Hm as (cm & <- & Hcm).
  assert (HM1 : exists l, gM cm = Some l /\ 1 <= l <= 3).
  { pose proof Hcm as Hcm'. apply in_map_iff in Hcm' as (mt' & <- & _).
    destruct (HMs _ Hcm) as (l & -> & Hl). exists l. split; [reflexivity |].
    simpl in Hl. lia. }
  destruct HF1 as (lf & -> & Hlf). destruct HM1 as (lm & -> & Hlm).
  unfold rfm_score. cbn [RFMRow.RFM_Score RFMRow.R RFMRow.metrics rank_as_int64].
  split.
  - intros Hrec. destruct (RFMMetrics.recency mt) as [rc |] eqn:Erec;
      [| congruence].
    destruct (HRs rc) as (lr & -> & Hlr).
    { rewrite <- Erec. apply in_map. exact Hmt. }
    simpl in Hlr. cbn [rank_as_int64].
    rewrite wrap64_small
      by (unfold in_int64, int64_min, int64_max;
          change (2 ^ 63) with 9223372036854775808; lia).
    lia.
  - intros ->. rewrite HRn. cbn [rank_as_int64]. split; [reflexivity |].
    rewrite wrap64_small
      by (unfold in_int64, int64_min, int64_max;
          change (2 ^ 63) with 9223372036854775808; lia).
    unfold int64_min. lia.
Qed.

(** * Further properties of the cleaning block and of the fact table *)

Lemma filter_all_true {A} (f : A -> bool) (l : list A) :
  (forall x, In x l -> f x = true) -> filter f l = l.
Proof.
  intros H. apply forallb_filter_id. apply forallb_forall. exact H.
Qed.

Lemma clean_product_fixed (p : Product.t) :
  lt_cell (Product.unit_price p) 0 = false ->
  lt_cell (Product.current_stock p) 0 = false ->
  clamp_negative_stock (null_negative_price p) = p.
Proof.
  intros Hp Hs. unfold null_negative_price. rewrite Hp.
  unfold clamp_negative_stock. rewrite Hs. reflexivity.
Qed.

Lemma clean_product_nonnegative (p : Product.t) :
  lt_cell (Product.unit_price (clamp_negative_stock (null_negative_price p))) 0
  = false
  /\ lt_cell (Product.current_stock (clamp_negative_stock (null_negative_price p))) 0
     = false.
Proof.
  destruct p as [i n c [v |] [s |]];
    unfold null_negative_price, clamp_negative_stock, lt_cell; simpl;
    try destruct (v <? 0) eqn:Ev; simpl;
    try destruct (s <? 0) eqn:Es; simpl;
    split; try reflexivity; try assumption.
Qed.

Lemma clean_products_In (ps : list Product.t) (p : Product.t) :
  In p (clean_products ps) ->
  exists p0, In p0 ps /\ p = clamp_negative_stock (null_negative_price p0).
Proof.
  unfold clean_products. rewrite map_map. intros H.
  apply in_map_iff in H as (p0 & <- & H0). exists p0. tauto.
Qed.

Lemma clean_products_ids (ps : list Product.t) :
  map Product.product_id (clean_products ps) = map Product.product_id ps.
Proof.
  unfold clean_products. rewrite !map_map. apply map_ext. intros p.
  unfold clamp_negative_stock, null_negative_price.
  destruct (lt_cell (Product.unit_price p) 0); simpl;
    destruct (lt_cell (Product.current_stock p) 0); reflexivity.
Qed.

Lemma clean_products_not_negative (ps : list Product.t) (p : Product.t) :
  In p (clean_products ps) ->
  lt_cell (Product.unit_price p) 0 = false
  /\ lt_cell (Product.current_stock p) 0 = false.
Proof.
  intros Hp. apply clean_products_In in Hp as (p0 & _ & ->).
  apply clean_product_nonnegative.
Qed.

Lemma clean_products_idempotent (ps : list Product.t) :
  clean_products (clean_products ps) = clean_products ps.
Proof.
  unfold clean_products at 1. rewrite map_map.
  rewrite <- (map_id (clean_products ps)) at 2.
  apply map_ext_in. intros p Hp.
  destruct (clean_products_not_negative ps p Hp) as (H1 & H2).
  apply clean_product_fixed; assumption.
Qed.

(** Lines 49-50: after the product fix-ups no price and no stock
    is negative, and applying the fix-ups to their own result changes
    nothing. *)
Theorem clean_products_nonnegative_idempotent (ps : list Product.t) :
  (forall p, In p (clean_products ps) ->
     (forall v, Product.unit_price p = Some v -> 0 <= v)
     /\ (forall s, Product.current_stock p = Some s -> 0 <= s))
  /\ clean_products (clean_products ps) = clean_products ps.
Proof.
  split; [| apply clean_products_idempotent].
  intros p Hp. destruct (clean_products_not_negative ps p Hp) as (H1 & H2).
  split.
  - intros v Ev. rewrite Ev in H1. simpl in H1. apply Z.ltb_ge. exact H1.
  - intros s Es. rewrite Es in H2. simpl in H2. apply Z.ltb_ge. exact H2.
Qed.

Lemma clean_sales_header_idempotent (hs : list SalesHeader.t) :
  clean_sales_header (clean_sales_header hs) = clean_sales_header hs.
Proof.
  unfold clean_sales_header. apply filter_all_true.
  intros h Hh. apply filter_In in Hh. tauto.
Qed.

Lemma clean_line_items_fixed ps hs ls :
  clean_line_items ps hs (clean_line_items ps hs ls) = clean_line_items ps hs ls.
Proof.
  unfold clean_line_items at 1.
  rewrite (filter_all_true (fun l => gt_cell (LineItem.quantity l) 0)).
  2:{ intros l Hl. apply clean_line_items_In in Hl. tauto. }
  rewrite (filter_all_true
             (fun l => isin (LineItem.product_id l) (map Product.product_id ps))).
  2:{ intros l Hl. apply clean_line_items_In in Hl. apply isin_In. tauto. }
  apply filter_all_true.
  intros l Hl. apply clean_line_items_In in Hl. apply isin_In. tauto.
Qed.

Lemma clean_line_items_same_ids ps ps' hs ls :
  map Product.product_id ps' = map Product.product_id ps ->
  clean_line_items ps' hs ls = clean_line_items ps hs ls.
Proof. intros E. unfold clean_line_items. rewrite E. reflexivity. Qed.

(** Lines 48-69: cleaning is idempotent.  Feeding the tables as
    they stand after the cleaning block back into the stage gives the
    same cleaned tables, the same fact table and the same outcome of the
    whole run. *)
Theorem cleaning_is_idempotent (data : Data) :
  cleaned_products (clean_data data) = cleaned_products data
  /\ cleaned_sales_header (clean_data data) = cleaned_sales_header data
  /\ cleaned_line_items (clean_data data) = cleaned_line_items data
  /\ fact_table (clean_data data) = fact_table data
  /\ transform (clean_data data) = transform data.
Proof.
  assert (Hp : cleaned_products (clean_data data) = cleaned_products data).
  { unfold cleaned_products, clean_data. simpl.
    apply clean_products_idempotent. }
  assert (Hh : cleaned_sales_header (clean_data data) = cleaned_sales_header data).
  { unfold cleaned_sales_header, clean_data. simpl.
    apply clean_sales_header_idempotent. }
  assert (Hl : cleaned_line_items (clean_data data) = cleaned_line_items data).
  { unfold cleaned_line_items. rewrite Hp, Hh. unfold clean_data at 1. simpl.
    apply clean_line_items_fixed. }
  assert (Hf : fact_table (clean_data data) = fact_table data).
  { unfold fact_table. rewrite Hp, Hh, Hl. reflexivity. }
  repeat split; try assumption.
  unfold transform. rewrite Hf, Hh, Hp. reflexivity.
Qed.
Lemma filter_unique_length {B} (kb : B -> string) (k : string) (r : list B) :
  NoDup (map kb r) ->
  (List.length (filter (fun b => String.eqb k (kb b)) r) <= 1)%nat.
Proof.
  intros Hnd. rewrite (filter_find_unique kb k r Hnd).
  destruct (find _ r); simpl; lia.
Qed.

Lemma filter_nothing {A} (l : list A) : filter (fun _ => false) l = [].
Proof. induction l as [| a l IH]; simpl; [reflexivity | exact IH]. Qed.

Lemma merge_left_fst {A B} (same_key : A -> B -> bool) (left : list A)
    (right : list B) :
  (forall a, In a left -> (List.length (filter (same_key a) right) <= 1)%nat) ->
  map fst (merge_left same_key left right) = left.
Proof.
  unfold merge_left. induction left as [| a left IH]; intros H; [reflexivity |].
  cbn [flat_map]. rewrite map_app, IH by (intros a' Ha'; apply H; right; exact Ha').
  specialize (H a (or_introl eq_refl)).
  destruct (filter (same_key a) right) as [| b [| b' bs]]; simpl in *;
    try reflexivity; lia.
Qed.

Lemma merge_inner_fst {A B} (same_key : A -> B -> bool) (left : list A)
    (right : list B) :
  (forall a, In a left -> List.length (filter (same_key a) right) = 1%nat) ->
  map fst (merge_inner same_key left right) = left.
Proof.
  unfold merge_inner. induction left as [| a left IH]; intros H; [reflexivity |].
  cbn [flat_map]. rewrite map_app, IH by (intros a' Ha'; apply H; right; exact Ha').
  specialize (H a (or_introl eq_refl)).
  destruct (filter (same_key a) right) as [| b [| b' bs]]; simpl in *;
    try reflexivity; lia.
Qed.

(** Lines 52-69: referential integrity of the fact table.  Every
    fact row comes from an input line item of positive quantity, joined
    to an input header of the same transaction id whose amount is not
    negative and to a cleaned product of the same product id, which is
    never null; its promotion is a promotion of the same id, or null
    exactly when no promotion has the line item's promotion id. *)
Theorem fact_table_referential_integrity (data : Data) (f : FactRow.t) :
  In f (fact_table data) ->
  In (FactRow.line f) (sales_line_items data)
  /\ (exists q, LineItem.quantity (FactRow.line f) = Some q /\ 0 < q)
  /\ In (FactRow.header f) (sales_header data)
  /\ SalesHeader.transaction_id (FactRow.header f)
     = LineItem.transaction_id (FactRow.line f)
  /\ (exists a, SalesHeader.total_amount (FactRow.header f) = Some a /\ 0 <= a)
  /\ (exists p, FactRow.product f = Some p
                /\ In p (cleaned_products data)
                /\ Product.product_id p = LineItem.product_id (FactRow.line f))
  /\ match FactRow.promotion f with
     | Some q =>
         In q (promotions data)
         /\ LineItem.promotion_id (FactRow.line f)
            = Some (Promotion.promotion_id q)
     | None =>
         forall q, In q (promotions data) ->
           LineItem.promotion_id (FactRow.line f)
           <> Some (Promotion.promotion_id q)
     end.
Proof.
  unfold fact_table, build_fact_sales. intros H.
  apply in_map_iff in H as ([[[l h] op] oq] & <- & H). simpl.
  apply merge_left_In in H as (H & Hq).
  apply merge_left_In in H as (H & Hp).
  apply merge_inner_In in H as (Hl & Hh & Hk).
  unfold same_transaction in Hk. apply String.eqb_eq in Hk.
  unfold cleaned_line_items in Hl.
  apply clean_line_items_In in Hl as (Hl & Hqty & Hprod & _).
  unfold cleaned_sales_header in Hh.
  apply clean_sales_header_In in Hh as (Hh & Hamt).
  split; [exact Hl |]. split.
  { unfold gt_cell in Hqty. destruct (LineItem.quantity l) as [q |];
      [| discriminate]. exists q. split; [reflexivity |].
    apply Z.ltb_lt. exact Hqty. }
  split; [exact Hh |]. split; [symmetry; exact Hk |]. split; [exact Hamt |].
  split.
  - destruct op as [p |].
    + destruct Hp as (Hp & Hsame). unfold same_product in Hsame. simpl in Hsame.
      apply String.eqb_eq in Hsame. exists p. repeat split; congruence.
    + exfalso. apply in_map_iff in Hprod as (p & Ep & Hp').
      specialize (Hp p Hp'). unfold same_product in Hp. simpl in Hp.
      rewrite Ep, String.eqb_refl in Hp. discriminate Hp.
  - unfold same_promotion in Hq. simpl in Hq. destruct oq as [q |].
    + destruct Hq as (Hq & Hsame). split; [exact Hq |].
      destruct (LineItem.promotion_id l) as [k |]; [| discriminate].
      apply String.eqb_eq in Hsame. congruence.
    + intros q Hin E. specialize (Hq q Hin). rewrite E in Hq.
      rewrite String.eqb_refl in Hq. discriminate Hq.
Qed.

Lemma fact_table_referential_integrity_witness :
  exists f,
    In f (fact_table Sample.data)
    /\ LineItem.line_item_id (FactRow.line f) = "L1"
    /\ exists p, FactRow.product f = Some p
                 /\ In p (cleaned_products Sample.data)
                 /\ Product.product_id p = LineItem.product_id (FactRow.line f).
Proof.
  assert (E : exists f l, fact_table Sample.data = f :: l)
    by (vm_compute; eexists; eexists; reflexivity).
  destruct E as (f & l & E).
  assert (Hin : In f (fact_table Sample.data)) by (rewrite E; left; reflexivity).
  exists f. split; [exact Hin |]. split.
  - vm_compute in E. injection E as <- _. reflexivity.
  - exact (proj1 (proj2 (proj2 (proj2 (proj2 (proj2
             (fact_table_referential_integrity Sample.data f Hin))))))).
Defined.

(** Lines 66-69: when the cleaned headers have distinct
    transaction ids, the products distinct product ids and the
    promotions distinct promotion ids, the three merges neither drop nor
    repeat a line item: the fact table has one row per cleaned line
    item, in the same order. *)
Theorem fact_table_one_row_per_line_item (data : Data) :
  NoDup (map SalesHeader.transaction_id (cleaned_sales_header data)) ->
  NoDup (map Product.product_id (products data)) ->
  NoDup (map Promotion.promotion_id (promotions data)) ->
  map FactRow.line (fact_table data) = cleaned_line_items data.
Proof.
  intros Hh Hp Hq. unfold fact_table, build_fact_sales.
  rewrite map_map. simpl.
  rewrite <- (map_map (fun r => fst (fst r)) fst).
  rewrite <- (map_map fst fst).
  rewrite merge_left_fst.
  2:{ intros [[l h] op] _. unfold same_promotion. simpl.
      destruct (LineItem.promotion_id l) as [k |].
      - apply (filter_unique_length Promotion.promotion_id k). exact Hq.
      - rewrite filter_nothing. simpl. lia. }
  rewrite merge_left_fst.
  2:{ intros [l h] _. unfold same_product. simpl.
      apply (filter_unique_length Product.product_id).
      unfold cleaned_products. rewrite clean_products_ids. exact Hp. }
  apply merge_inner_fst. intros l Hl. unfold same_transaction.
  pose proof (filter_unique_length SalesHeader.transaction_id
                (LineItem.transaction_id l) _ Hh) as Hle.
  unfold cleaned_line_items in Hl.
  apply clean_line_items_In in Hl as (_ & _ & _ & Hin).
  apply in_map_iff in Hin as (h & Eh & Hin).
  assert (Hf : In h (filter (fun b => String.eqb (LineItem.transaction_id l)
                                        (SalesHeader.transaction_id b))
                            (cleaned_sales_header data))).
  { apply filter_In. split; [exact Hin |]. rewrite Eh. apply String.eqb_refl. }
  destruct (filter _ (cleaned_sales_header data)) as [| b [| b' bs]];
    simpl in *; [destruct Hf | reflexivity | lia].
Qed.

Lemma fact_table_one_row_per_line_item_witness :
  map FactRow.line (fact_table Sample.data) = cleaned_line_items Sample.data.
Proof.
  apply fact_table_one_row_per_line_item.
  - vm_compute. repeat constructor; simpl; intuition discriminate.
  - vm_compute. repeat constructor; simpl; intuition discriminate.
  - vm_compute. constructor.
Defined.


(** * Further properties of the loyalty engine *)

Lemma sum_Z_Permutation (l l' : list Z) :
  Permutation l l' -> sum_Z l = sum_Z l'.
Proof.
  induction 1 as [| x l l' _ IH | x y l | l l' l'' _ IH1 _ IH2]; simpl; lia.
Qed.

Lemma filter_Permutation {A} (f : A -> bool) (l l' : list A) :
  Permutation l l' -> Permutation (filter f l) (filter f l').
Proof.
  induction 1 as [| x l l' _ IH | x y l | l l' l'' _ IH1 _ IH2]; simpl.
  - constructor.
  - destruct (f x); [constructor |]; exact IH.
  - destruct (f x), (f y); try apply Permutation_refl. apply perm_swap.
  - apply (Permutation_trans IH1 IH2).
Qed.

Lemma sum_Z_nonneg (l : list Z) : (forall x, In x l -> 0 <= x) -> 0 <= sum_Z l.
Proof.
  induction l as [| x l IH]; simpl; intros H; [lia |].
  pose proof (H x (or_introl eq_refl)).
  assert (0 <= sum_Z l) by (apply IH; intros y Hy; apply H; right; exact Hy).
  unfold sum_Z in *. lia.
Qed.

Lemma sum_Z_map_le {A} (f g : A -> Z) (l : list A) :
  (forall a, In a l -> f a <= g a) -> sum_Z (map f l) <= sum_Z (map g l).
Proof.
  induction l as [| a l IH]; simpl; intros H; [lia |].
  pose proof (H a (or_introl eq_refl)).
  assert (sum_Z (map f l) <= sum_Z (map g l))
    by (apply IH; intros b Hb; apply H; right; exact Hb).
  unfold sum_Z in *. lia.
Qed.

(** Lines 80-87: the order of the rule table does not matter.
    On the cleaned headers, any reordering of the rules gives the same
    outcome of the loop, the same points for every transaction or the
    same error. *)
Theorem rule_order_is_irrelevant (rules rules' : list LoyaltyRule.t)
    (raw : list SalesHeader.t) :
  Permutation rules rules' ->
  loyalty_engine rules (clean_sales_header raw)
  = loyalty_engine rules' (clean_sales_header raw).
Proof.
  intros Hperm. rewrite !loyalty_engine_cleaned.
  assert (Hact : Permutation (active_rules rules) (active_rules rules'))
    by (apply filter_Permutation; exact Hperm).
  assert (Hz : has_zero_threshold (active_rules rules)
               = has_zero_threshold (active_rules rules')).
  { unfold has_zero_threshold.
    destruct (existsb _ (active_rules rules)) eqn:E1;
      destruct (existsb _ (active_rules rules')) eqn:E2; try reflexivity.
    - apply existsb_exists in E1 as (r & Hr & Hz).
      assert (E : existsb (fun r => LoyaltyRule.min_spend_threshold r =? 0)
                    (active_rules rules') = true).
      { apply existsb_exists. exists r. split; [| exact Hz].
        apply (Permutation_in _ Hact). exact Hr. }
      congruence.
    - apply existsb_exists in E2 as (r & Hr & Hz).
      assert (E : existsb (fun r => LoyaltyRule.min_spend_threshold r =? 0)
                    (active_rules rules) = true).
      { apply existsb_exists. exists r. split; [| exact Hz].
        apply (Permutation_in _ (Permutation_sym Hact)). exact Hr. }
      congruence. }
  rewrite Hz.
  destruct (has_zero_threshold (active_rules rules')
            && negb (is_empty (clean_sales_header raw))); [reflexivity |].
  f_equal. unfold accrue_all. apply map_ext. intros h. do 3 f_equal.
  apply sum_Z_Permutation. apply Permutation_map. exact Hact.
Qed.

Lemma rule_order_is_irrelevant_witness :
  Permutation [Sample.rule_A; Sample.rule_B] [Sample.rule_B; Sample.rule_A]
  /\ loyalty_engine [Sample.rule_B; Sample.rule_A]
       (clean_sales_header [Sample.txn "T1" "C1" (Some 3) 250])
     = Ok [ScoredHeader.mk (Sample.txn "T1" "C1" (Some 3) 250) 25].
Proof.
  assert (H : Permutation [Sample.rule_A; Sample.rule_B]
                          [Sample.rule_B; Sample.rule_A]) by apply perm_swap.
  split; [exact H |].
  rewrite <- (rule_order_is_irrelevant _ _
                [Sample.txn "T1" "C1" (Some 3) 250] H).
  vm_compute. reflexivity.
Defined.

Lemma spec_rule_points_nonneg (r : LoyaltyRule.t) (a : Z) :
  well_formed_rule r -> 0 <= a -> 0 <= spec_rule_points r a.
Proof.
  intros (Ht & Hp & Hb) Ha. unfold spec_rule_points.
  destruct (LoyaltyRule.min_spend_threshold r <=? a); [| lia].
  pose proof (Z.quot_pos a _ Ha Ht). nia.
Qed.

Lemma spec_rule_points_mono (r : LoyaltyRule.t) (a b : Z) :
  well_formed_rule r -> 0 <= a -> a <= b ->
  spec_rule_points r a <= spec_rule_points r b.
Proof.
  intros Hwf Ha Hab.
  pose proof (spec_rule_points_nonneg r b Hwf ltac:(lia)) as Hnb.
  destruct Hwf as (Ht & Hp & Hb).
  unfold spec_rule_points in *.
  destruct (LoyaltyRule.min_spend_threshold r <=? a) eqn:Ea.
  - apply Z.leb_le in Ea.
    assert (Eb : (LoyaltyRule.min_spend_threshold r <=? b) = true)
      by (apply Z.leb_le; lia).
    rewrite Eb.
    pose proof (Z.quot_le_mono a b _ Ht Hab). nia.
  - exact Hnb.
Qed.

Lemma active_rules_well_formed (rules : list LoyaltyRule.t) (r : LoyaltyRule.t) :
  (forall r, In r rules -> rule_is_active r = true ->
             well_formed_rule r
             /\ exact_in_float64 (LoyaltyRule.min_spend_threshold r)) ->
  In r (active_rules rules) -> well_formed_rule r.
Proof.
  intros Hwf Hr. unfold active_rules in Hr. apply filter_In in Hr as (Hr & Ha).
  apply Hwf; assumption.
Qed.

Lemma spec_earned_points_nonneg (rules : list LoyaltyRule.t) (a : Z) :
  (forall r, In r rules -> rule_is_active r = true ->
             well_formed_rule r
             /\ exact_in_float64 (LoyaltyRule.min_spend_threshold r)) ->
  0 <= a -> 0 <= spec_earned_points rules a.
Proof.
  intros Hwf Ha. unfold spec_earned_points. apply sum_Z_nonneg.
  intros x Hx. apply in_map_iff in Hx as (r & <- & Hr).
  apply spec_rule_points_nonneg; [| exact Ha].
  apply (active_rules_well_formed rules); assumption.
Qed.

Lemma spec_earned_points_mono (rules : list LoyaltyRule.t) (a b : Z) :
  (forall r, In r rules -> rule_is_active r = true ->
             well_formed_rule r
             /\ exact_in_float64 (LoyaltyRule.min_spend_threshold r)) ->
  0 <= a -> a <= b -> spec_earned_points rules a <= spec_earned_points rules b.
Proof.
  intros Hwf Ha Hab. unfold spec_earned_points. apply sum_Z_map_le.
  intros r Hr. apply spec_rule_points_mono; [| exact Ha | exact Hab].
  apply (active_rules_well_formed rules); assumption.
Qed.

Lemma sum_Z_In_le (l : list Z) (y : Z) :
  (forall x, In x l -> 0 <= x) -> In y l -> y <= sum_Z l.
Proof.
  induction l as [| x l IH]; intros Hpos Hin; [destruct Hin |].
  cbn [sum_Z fold_right]. fold (sum_Z l).
  assert (Hl : 0 <= sum_Z l)
    by (apply sum_Z_nonneg; intros z Hz; apply Hpos; right; exact Hz).
  pose proof (Hpos x (or_introl eq_refl)) as Hx.
  destruct Hin as [<- | Hin]; [lia |].
  assert (y <= sum_Z l)
    by (apply IH; [intros z Hz; apply Hpos; right; exact Hz | exact Hin]).
  lia.
Qed.

Lemma sum_Z_filter_le {A} (f : A -> Z) (p : A -> bool) (l : list A) :
  (forall x, In x l -> 0 <= f x) ->
  0 <= sum_Z (map f (filter p l)) <= sum_Z (map f l).
Proof.
  induction l as [| x l IH]; intros Hpos; [simpl; lia |].
  assert (Hl : 0 <= sum_Z (map f (filter p l)) <= sum_Z (map f l))
    by (apply IH; intros z Hz; apply Hpos; right; exact Hz).
  pose proof (Hpos x (or_introl eq_refl)) as Hx.
  cbn [filter]. destruct (p x); cbn [map sum_Z fold_right];
    fold (sum_Z (map f (filter p l))); fold (sum_Z (map f l)); lia.
Qed.

(** The engine against the specification's formula: with no active
    threshold at 0 and every active threshold below [2 ^ 53] in
    magnitude, each cleaned transaction whose amount is below [2 ^ 53]
    earns the int64 image of the formula's value. *)
Lemma loyalty_engine_spec (rules : list LoyaltyRule.t) (raw : list SalesHeader.t) :
  (forall r, In r rules -> rule_is_active r = true ->
             LoyaltyRule.min_spend_threshold r <> 0
             /\ exact_in_float64 (LoyaltyRule.min_spend_threshold r)) ->
  exists scored,
    loyalty_engine rules (clean_sales_header raw) = Ok scored
    /\ map ScoredHeader.row scored = clean_sales_header raw
    /\ forall s, In s scored ->
         exists a,
           SalesHeader.total_amount (ScoredHeader.row s) = Some a
           /\ 0 <= a
           /\ (exact_in_float64 a ->
               ScoredHeader.earned_points s
               = wrap64 (spec_earned_points rules a)).
Proof.
  intros Hrules.
  assert (Hnz : has_zero_threshold (active_rules rules) = false).
  { apply no_zero_threshold_if_nonzero. intros r Hin Ha.
    exact (proj1 (Hrules r Hin Ha)). }
  pose proof (loyalty_engine_cleaned rules raw) as E.
  rewrite Hnz in E. simpl in E.
  eexists. split; [exact E |]. split.
  - apply (loyalty_engine_rows rules raw). exact E.
  - intros s Hs.
    apply accrue_all_points in Hs as (Hin & Hpts).
    apply clean_sales_header_In in Hin as (_ & a & Ha & Hnonneg).
    exists a. split; [exact Ha |]. split; [exact Hnonneg |].
    intros Hsmall. rewrite Hpts. unfold spec_earned_points.
    rewrite <- spec_earned_points_agree; [| | exact Hsmall].
    + f_equal. f_equal. apply map_ext. intros r.
      unfold row_points. rewrite Ha. reflexivity.
    + intros r Hr. unfold active_rules in Hr.
      apply filter_In in Hr as (Hr & Hact). apply Hrules; assumption.
Qed.

(** With well-formed active rules, amounts and thresholds below [2 ^ 53]
    and a snapshot whose points fit in int64, every transaction earns the
    formula's value, exactly. *)
Lemma loyalty_engine_exact (rules : list LoyaltyRule.t) (raw : list SalesHeader.t) :
  (forall r, In r rules -> rule_is_active r = true ->
             well_formed_rule r
             /\ exact_in_float64 (LoyaltyRule.min_spend_threshold r)) ->
  (forall h, In h (clean_sales_header raw) ->
             exact_in_float64 (amount_or_zero h)) ->
  snapshot_points rules (clean_sales_header raw) <= int64_max ->
  exists scored,
    loyalty_engine rules (clean_sales_header raw) = Ok scored
    /\ map ScoredHeader.row scored = clean_sales_header raw
    /\ (forall s, In s scored ->
          0 <= amount_or_zero (ScoredHeader.row s)
          /\ ScoredHeader.earned_points s
             = spec_earned_points rules (amount_or_zero (ScoredHeader.row s)))
    /\ sum_Z (map ScoredHeader.earned_points scored)
       = snapshot_points rules (clean_sales_header raw).
Proof.
  intros Hwf Hsmall Hfit.
  destruct (loyalty_engine_spec rules raw) as (scored & E & Hrows & Hpts).
  { intros r Hr Ha. destruct (Hwf r Hr Ha) as ((Ht & _) & Hf).
    split; [lia | exact Hf]. }
  exists scored. split; [exact E |]. split; [exact Hrows |].
  assert (Hnonneg : forall h, In h (clean_sales_header raw) ->
            0 <= spec_earned_points rules (amount_or_zero h)).
  { intros h Hh. apply spec_earned_points_nonneg; [exact Hwf |].
    apply clean_sales_header_In in Hh as (_ & a & Ha & Hpos).
    unfold amount_or_zero. rewrite Ha. exact Hpos. }
  assert (Hexact : forall s, In s scored ->
            0 <= amount_or_zero (ScoredHeader.row s)
            /\ ScoredHeader.earned_points s
               = spec_earned_points rules (amount_or_zero (ScoredHeader.row s))).
  { intros s Hs. destruct (Hpts s Hs) as (a & Ha & Hpos & Hw).
    assert (Hin : In (ScoredHeader.row s) (clean_sales_header raw))
      by (rewrite <- Hrows; apply in_map; exact Hs).
    pose proof (Hsmall _ Hin) as Hsm. pose proof (Hnonneg _ Hin) as Hnn.
    unfold amount_or_zero in *. rewrite Ha in *.
    split; [exact Hpos |].
    rewrite (Hw Hsm). apply wrap64_small. split.
    - unfold int64_min. lia.
    - apply Z.le_trans with (2 := Hfit). unfold snapshot_points.
      apply sum_Z_In_le.
      + intros x Hx. apply in_map_iff in Hx as (h & <- & Hh).
        apply Hnonneg. exact Hh.
      + apply in_map_iff. exists (ScoredHeader.row s).
        unfold amount_or_zero. rewrite Ha. split; [reflexivity | exact Hin]. }
  split; [exact Hexact |].
  unfold snapshot_points. rewrite <- Hrows, map_map. f_equal.
  apply map_ext_in. intros s Hs. apply (Hexact s Hs).
Qed.

(** Lines 77-90: with well-formed active rules (positive threshold, no
    negative rate or bonus), thresholds and amounts below [2 ^ 53], and a
    snapshot whose points, added exactly, fit in int64, the engine
    succeeds and no transaction and no customer ends with negative
    points. *)
Theorem earned_points_are_nonnegative (rules : list LoyaltyRule.t)
    (raw : list SalesHeader.t) :
  (forall r, In r rules -> rule_is_active r = true ->
             well_formed_rule r
             /\ exact_in_float64 (LoyaltyRule.min_spend_threshold r)) ->
  (forall h, In h (clean_sales_header raw) ->
             exact_in_float64 (amount_or_zero h)) ->
  snapshot_points rules (clean_sales_header raw) <= int64_max ->
  exists scored,
    loyalty_engine rules (clean_sales_header raw) = Ok scored
    /\ (forall s, In s scored -> 0 <= ScoredHeader.earned_points s)
    /\ (forall k v, In (k, v) (points_by_customer scored) -> 0 <= v).
Proof.
  intros Hwf Hsmall Hfit.
  destruct (loyalty_engine_exact rules raw Hwf Hsmall Hfit)
    as (scored & E & Hrows & Hexact & Hsum).
  exists scored. split; [exact E |].
  assert (Hs : forall s, In s scored -> 0 <= ScoredHeader.earned_points s).
  { intros s Hin. destruct (Hexact s Hin) as (Hpos & ->).
    apply spec_earned_points_nonneg; assumption. }
  split; [exact Hs |].
  intros k v Hkv. unfold points_by_customer in Hkv.
  apply in_map_iff in Hkv as (k' & [= <- <-] & _).
  pose proof (sum_Z_filter_le ScoredHeader.earned_points
                (fun h => String.eqb (SalesHeader.customer_id (ScoredHeader.row h)) k')
                scored Hs) as Hle.
  fold (rows_of_customer k' scored) in Hle.
  rewrite sum_int64_exact; [lia |].
  split; [unfold int64_min; lia | lia].
Qed.

Lemma sample_rules_well_formed :
  forall r, In r [Sample.rule_A; Sample.rule_B] -> rule_is_active r = true ->
            well_formed_rule r
            /\ exact_in_float64 (LoyaltyRule.min_spend_threshold r).
Proof.
  intros r [<- | [<- | []]] _; unfold well_formed_rule, exact_in_float64;
    simpl; repeat split; lia.
Qed.

Lemma sample_headers_small :
  forall h, In h (clean_sales_header Sample.headers) ->
            exact_in_float64 (amount_or_zero h).
Proof.
  intros h [<- | [<- | [<- | []]]]; split; reflexivity.
Qed.

Lemma sample_points_fit :
  snapshot_points [Sample.rule_A; Sample.rule_B]
    (clean_sales_header Sample.headers) <= int64_max.
Proof. vm_compute. discriminate. Qed.

Lemma earned_points_are_nonnegative_witness :
  (forall r, In r [Sample.rule_A; Sample.rule_B] -> rule_is_active r = true ->
             well_formed_rule r
             /\ exact_in_float64 (LoyaltyRule.min_spend_threshold r))
  /\ (forall h, In h (clean_sales_header Sample.headers) ->
                exact_in_float64 (amount_or_zero h))
  /\ snapshot_points [Sample.rule_A; Sample.rule_B]
       (clean_sales_header Sample.headers) <= int64_max
  /\ exists scored,
       loyalty_engine [Sample.rule_A; Sample.rule_B]
         (clean_sales_header Sample.headers) = Ok scored
       /\ forall k v, In (k, v) (points_by_customer scored) -> 0 <= v.
Proof.
  split; [exact sample_rules_well_formed |].
  split; [exact sample_headers_small |].
  split; [exact sample_points_fit |].
  destruct (earned_points_are_nonnegative [Sample.rule_A; Sample.rule_B]
              Sample.headers sample_rules_well_formed sample_headers_small
              sample_points_fit)
    as (scored & E & _ & Hk).
  exists scored. split; [exact E | exact Hk].
Defined.

(** Lines 80-87: under the same conditions, of two transactions of the
    cleaned snapshot the one with the larger amount never earns fewer
    points. *)
Theorem larger_amount_never_earns_less (rules : list LoyaltyRule.t)
    (raw : list SalesHeader.t) :
  (forall r, In r rules -> rule_is_active r = true ->
             well_formed_rule r
             /\ exact_in_float64 (LoyaltyRule.min_spend_threshold r)) ->
  (forall h, In h (clean_sales_header raw) ->
             exact_in_float64 (amount_or_zero h)) ->
  snapshot_points rules (clean_sales_header raw) <= int64_max ->
  exists scored,
    loyalty_engine rules (clean_sales_header raw) = Ok scored
    /\ forall s1 s2 a1 a2,
         In s1 scored -> In s2 scored ->
         SalesHeader.total_amount (ScoredHeader.row s1) = Some a1 ->
         SalesHeader.total_amount (ScoredHeader.row s2) = Some a2 ->
         a1 <= a2 ->
         ScoredHeader.earned_points s1 <= ScoredHeader.earned_points s2.
Proof.
  intros Hwf Hsmall Hfit.
  destruct (loyalty_engine_exact rules raw Hwf Hsmall Hfit)
    as (scored & E & Hrows & Hexact & Hsum).
  exists scored. split; [exact E |].
  intros s1 s2 a1 a2 H1 H2 E1 E2 Hle.
  destruct (Hexact s1 H1) as (Hpos1 & ->). destruct (Hexact s2 H2) as (_ & ->).
  unfold amount_or_zero in *. rewrite E1 in *. rewrite E2.
  apply spec_earned_points_mono; assumption.
Qed.

Lemma larger_amount_never_earns_less_witness :
  (forall r, In r [Sample.rule_A; Sample.rule_B] -> rule_is_active r = true ->
             well_formed_rule r
             /\ exact_in_float64 (LoyaltyRule.min_spend_threshold r))
  /\ (forall h, In h (clean_sales_header Sample.headers) ->
                exact_in_float64 (amount_or_zero h))
  /\ snapshot_points [Sample.rule_A; Sample.rule_B]
       (clean_sales_header Sample.headers) <= int64_max
  /\ exists scored,
       loyalty_engine [Sample.rule_A; Sample.rule_B]
         (clean_sales_header Sample.headers) = Ok scored
       /\ map ScoredHeader.earned_points scored = [25; 17; 0].
Proof.
  split; [exact sample_rules_well_formed |].
  split; [exact sample_headers_small |].
  split; [exact sample_points_fit |].
  destruct (larger_amount_never_earns_less [Sample.rule_A; Sample.rule_B]
              Sample.headers sample_rules_well_formed sample_headers_small
              sample_points_fit)
    as (scored & E & _).
  exists scored. split; [exact E |].
  vm_compute in E. injection E as <-. reflexivity.
Defined.

(** ** Grouping conserves sums *)

Lemma sum_Z_zeros {A} (l : list A) : sum_Z (map (fun _ => 0) l) = 0.
Proof. induction l as [| a l IH]; simpl; [reflexivity | exact IH]. Qed.

Lemma sum_Z_map_add {A} (g h : A -> Z) (l : list A) :
  sum_Z (map (fun a => g a + h a) l) = sum_Z (map g l) + sum_Z (map h l).
Proof.
  induction l as [| a l IH]; simpl; [reflexivity |].
  unfold sum_Z in *. lia.
Qed.

Lemma sum_Z_indicator (k0 : string) (c : Z) (ks : list string) :
  NoDup ks -> In k0 ks ->
  sum_Z (map (fun k => if String.eqb k0 k then c else 0) ks) = c.
Proof.
  induction ks as [| k ks IH]; simpl; intros Hnd Hin; [destruct Hin |].
  inversion Hnd as [| ? ? Hnot Hnd']; subst.
  destruct (String.eqb k0 k) eqn:E.
  - apply String.eqb_eq in E. subst k.
    rewrite (map_ext_in _ (fun _ => 0)), sum_Z_zeros; [lia |].
    intros k Hk. destruct (String.eqb k0 k) eqn:E'; [| reflexivity].
    apply String.eqb_eq in E'. subst k. contradiction.
  - apply String.eqb_neq in E. destruct Hin as [-> | Hin]; [contradiction |].
    rewrite (IH Hnd' Hin). lia.
Qed.

Lemma group_sum {A} (key : A -> string) (f : A -> Z) (ks : list string)
    (l : list A) :
  NoDup ks -> (forall x, In x l -> In (key x) ks) ->
  sum_Z (map (fun k => sum_Z (map f (filter (fun x => String.eqb (key x) k) l))) ks)
  = sum_Z (map f l).
Proof.
  intros Hnd. induction l as [| x l IH]; intros Hcover.
  - simpl. apply sum_Z_zeros.
  - simpl.
    rewrite (map_ext _
               (fun k => (if String.eqb (key x) k then f x else 0)
                         + sum_Z (map f (filter (fun y => String.eqb (key y) k) l)))).
    2:{ intros k. destruct (String.eqb (key x) k); simpl; lia. }
    rewrite sum_Z_map_add, sum_Z_indicator, IH.
    + reflexivity.
    + intros y Hy. apply Hcover. right. exact Hy.
    + exact Hnd.
    + apply Hcover. left. reflexivity.
Qed.

Lemma points_by_customer_exact (scored : list ScoredHeader.t) :
  (forall s, In s scored -> 0 <= ScoredHeader.earned_points s) ->
  sum_Z (map ScoredHeader.earned_points scored) <= int64_max ->
  forall k,
    sum_int64 (map ScoredHeader.earned_points (rows_of_customer k scored))
    = customer_total k scored
    /\ 0 <= customer_total k scored
         <= sum_Z (map ScoredHeader.earned_points scored).
Proof.
  intros Hpos Hfit k.
  pose proof (sum_Z_filter_le ScoredHeader.earned_points
                (fun h => String.eqb (SalesHeader.customer_id (ScoredHeader.row h)) k)
                scored Hpos) as Hle.
  fold (rows_of_customer k scored) in Hle. fold (customer_total k scored) in Hle.
  split; [| exact Hle].
  unfold customer_total in *. apply sum_int64_exact.
  split; [unfold int64_min; lia | lia].
Qed.

(** Line 90: the grouped sum conserves points.  In int64 arithmetic the
    totals of the per-customer table add up to the points of all
    transactions; when no transaction has negative points and the points
    of all transactions fit in int64 they add up exactly: no transaction
    is counted twice or left out. *)
Theorem points_by_customer_conserves_points (scored : list ScoredHeader.t) :
  sum_int64 (map snd (points_by_customer scored))
  = sum_int64 (map ScoredHeader.earned_points scored)
  /\ ((forall s, In s scored -> 0 <= ScoredHeader.earned_points s) ->
      sum_Z (map ScoredHeader.earned_points scored) <= int64_max ->
      sum_Z (map snd (points_by_customer scored))
      = sum_Z (map ScoredHeader.earned_points scored)).
Proof.
  assert (Hgroup :
    sum_Z (map (fun k => customer_total k scored)
               (group_keys (map (fun h => SalesHeader.customer_id (ScoredHeader.row h))
                                scored)))
    = sum_Z (map ScoredHeader.earned_points scored)).
  { unfold customer_total, rows_of_customer.
    apply (group_sum (fun h => SalesHeader.customer_id (ScoredHeader.row h))).
    - apply group_keys_NoDup.
    - intros s Hs. apply group_keys_In.
      apply (in_map (fun h => SalesHeader.customer_id (ScoredHeader.row h))).
      exact Hs. }
  split.
  - rewrite !sum_int64_wrap. rewrite <- Hgroup.
    unfold points_by_customer. rewrite map_map. cbn [snd].
    rewrite (map_ext _ (fun k => wrap64 (customer_total k scored)))
      by (intros k; apply sum_int64_wrap).
    apply wrap64_sum_wrap.
  - intros Hpos Hfit. rewrite <- Hgroup.
    unfold points_by_customer. rewrite map_map. cbn [snd].
    f_equal. apply map_ext. intros k.
    apply (points_by_customer_exact scored Hpos Hfit k).
Qed.

Lemma points_by_customer_conserves_points_witness :
  exists scored,
    loyalty_engine [Sample.rule_A; Sample.rule_B]
      (clean_sales_header Sample.headers) = Ok scored
    /\ map snd (points_by_customer scored) = [25; 17; 0]
    /\ sum_Z (map snd (points_by_customer scored))
       = sum_Z (map ScoredHeader.earned_points scored).
Proof.
  destruct (loyalty_engine [Sample.rule_A; Sample.rule_B]
              (clean_sales_header Sample.headers)) as [scored | e] eqn:E;
    [| vm_compute in E; discriminate E].
  exists scored. split; [reflexivity |].
  vm_compute in E. injection E as <-.
  split; [vm_compute; reflexivity |].
  apply (proj2 (points_by_customer_conserves_points _)).
  - intros s [<- | [<- | [<- | []]]]; simpl; lia.
  - vm_compute. discriminate.
Defined.

(** Lines 89-93: when the customer table has distinct customer ids and
    holds the customer of every cleaned transaction, no transaction has
    negative points and the points of all transactions stay below
    [2 ^ 53], the totals stored by a completed run add up to the points
    earned by all transactions, under either behaviour of line 92 (a
    null total counting for nothing). *)
Theorem customer_totals_conserve_points (mode : fill_mode) (data : Data)
    (out : Output) :
  transform_under mode data = Ok out ->
  NoDup (map Customer.customer_id (customers data)) ->
  (forall h, In h (cleaned_sales_header data) ->
     In (SalesHeader.customer_id h) (map Customer.customer_id (customers data))) ->
  exists scored,
    loyalty_engine (loyalty_rules data) (cleaned_sales_header data) = Ok scored
    /\ ((forall s, In s scored -> 0 <= ScoredHeader.earned_points s) ->
        sum_Z (map ScoredHeader.earned_points scored) < 2 ^ 53 ->
        sum_Z (map (fun c => nan_to_zero
                               (Customer.total_loyalty_points (CustomerOut.base c)))
                   (out_customers out))
        = sum_Z (map ScoredHeader.earned_points scored)).
Proof.
  intros H Hnd Hcover.
  apply transform_under_Ok_inv in H as (scored & rfm & Hs & _ & ->).
  exists scored. split; [exact Hs |]. intros Hpos Hfit. cbn [out_customers].
  rewrite update_points_under_credited, map_map.
  pose proof (loyalty_engine_rows _ _ _ Hs) as Hrows.
  assert (Hfit' : sum_Z (map ScoredHeader.earned_points scored) <= int64_max).
  { unfold int64_max. change (2 ^ 53) with 9007199254740992 in Hfit.
    change (2 ^ 63) with 9223372036854775808. lia. }
  rewrite <- (group_sum (fun h => SalesHeader.customer_id (ScoredHeader.row h))
                ScoredHeader.earned_points
                (map Customer.customer_id (customers data)) scored Hnd).
  - rewrite map_map. f_equal. apply map_ext. intros c.
    unfold credited, stored_points.
    cbn [CustomerOut.base set_total_loyalty_points Customer.total_loyalty_points].
    destruct (points_by_customer_exact scored Hpos Hfit'
                (Customer.customer_id c)) as (_ & Hk).
    fold (rows_of_customer (Customer.customer_id c) scored).
    fold (customer_total (Customer.customer_id c) scored).
    destruct (has_transaction (Customer.customer_id c) scored) eqn:Eh.
    + cbn [nan_to_zero]. apply merged_total_exact.
      unfold exact_in_float64. change (2 ^ 53) with 9007199254740992 in *. lia.
    + unfold has_transaction in Eh. apply negb_false_iff in Eh.
      unfold customer_total.
      destruct (rows_of_customer (Customer.customer_id c) scored);
        [| discriminate Eh].
      destruct mode; reflexivity.
  - intros s Hin. apply Hcover. unfold cleaned_sales_header. rewrite <- Hrows.
    apply in_map. exact Hin.
Qed.

Lemma customer_totals_conserve_points_witness :
  exists out scored,
    transform_under CopyOnWrite Sample.data = Ok out
    /\ loyalty_engine (loyalty_rules Sample.data)
         (cleaned_sales_header Sample.data) = Ok scored
    /\ sum_Z (map (fun c => nan_to_zero
                              (Customer.total_loyalty_points (CustomerOut.base c)))
                  (out_customers out))
       = sum_Z (map ScoredHeader.earned_points scored).
Proof.
  assert (E : exists out, transform_under CopyOnWrite Sample.data = Ok out)
    by (vm_compute; eexists; reflexivity).
  destruct E as (out & E).
  assert (Hnd : NoDup (map Customer.customer_id (customers Sample.data)))
    by (vm_compute; repeat constructor; simpl; intuition discriminate).
  assert (Hcover : forall h, In h (cleaned_sales_header Sample.data) ->
            In (SalesHeader.customer_id h)
               (map Customer.customer_id (customers Sample.data))).
  { intros h [<- | [<- | [<- | []]]]; vm_compute; tauto. }
  destruct (customer_totals_conserve_points CopyOnWrite Sample.data out E
              Hnd Hcover)
    as (scored & Hs & Hsum).
  exists out, scored. split; [exact E |]. split; [exact Hs |].
  apply Hsum.
  - vm_compute in Hs. injection Hs as <-.
    intros s [<- | [<- | [<- | []]]]; simpl; lia.
  - vm_compute in Hs. injection Hs as <-. vm_compute. reflexivity.
Defined.


(** * Further properties of the RFM table *)

Lemma group_keys_ascending (ks : list string) : ascending (group_keys ks).
Proof.
  induction ks as [| k ks IH]; simpl; [exact I |].
  apply insert_key_ascending. exact IH.
Qed.

Lemma max_date_upper (ds : list (option Z)) (m : Z) :
  max_date ds = Some m -> forall x, In (Some x) ds -> x <= m.
Proof.
  revert m. induction ds as [| d ds IH]; simpl; intros m Hm x Hx; [destruct Hx |].
  destruct d as [v |].
  - destruct (max_date ds) as [y |] eqn:E.
    + injection Hm as <-. destruct Hx as [[= ->] | Hx]; [lia |].
      specialize (IH y eq_refl x Hx). lia.
    + injection Hm as <-. destruct Hx as [[= ->] | Hx]; [lia |].
      exfalso. clear IH. induction ds as [| d' ds' IH']; [destruct Hx |].
      simpl in E. destruct d' as [v' |].
      * destruct (max_date ds'); discriminate E.
      * destruct Hx as [Hx | Hx]; [discriminate Hx |]. apply IH'; assumption.
  - destruct Hx as [Hx | Hx]; [discriminate Hx |]. apply (IH m Hm x Hx).
Qed.

Lemma max_date_In (ds : list (option Z)) (m : Z) :
  max_date ds = Some m -> In (Some m) ds.
Proof.
  revert m. induction ds as [| d ds IH]; simpl; intros m Hm; [discriminate |].
  destruct d as [v |]; [| right; apply IH; exact Hm].
  destruct (max_date ds) as [y |] eqn:E.
  - injection Hm as <-. destruct (Z.max_spec v y) as [[_ ->] | [_ ->]].
    + right. apply IH. reflexivity.
    + left. reflexivity.
  - injection Hm as <-. left. reflexivity.
Qed.

Lemma length_as_sum {A} (l : list A) :
  Z.of_nat (List.length l) = sum_Z (map (fun _ => 1) l).
Proof.
  induction l as [| a l IH]; [reflexivity |].
  cbn [List.length map]. rewrite Nat2Z.inj_succ, IH. unfold sum_Z.
  cbn [fold_right]. lia.
Qed.

Lemma recency_of_Some (snapshot : option Z) (group : list SalesHeader.t) (r : Z) :
  recency_of snapshot group = Some r ->
  exists s m, snapshot = Some s
              /\ max_date (map SalesHeader.transaction_date group) = Some m
              /\ r = s - m.
Proof.
  unfold recency_of. destruct snapshot as [s |]; [| discriminate].
  destruct (max_date _) as [m |]; [| discriminate].
  intros [= <-]. exists s, m. repeat split; reflexivity.
Qed.

Lemma snapshot_date_Some (hs : list SalesHeader.t) (s : Z) :
  snapshot_date hs = Some s ->
  exists mx, max_date (map SalesHeader.transaction_date hs) = Some mx
             /\ s = 1 + mx.
Proof.
  unfold snapshot_date. destruct (max_date _) as [mx |]; [| discriminate].
  unfold option_map. intros [= <-]. exists mx. split; reflexivity.
Qed.

(** Lines 96-104: the RFM table of the cleaned snapshot has one
    row per customer id that has a transaction, in strictly ascending
    order of id; every row has frequency at least 1 and a recency, when
    it is defined, of at least one day. *)
Theorem rfm_metrics_rows (raw : list SalesHeader.t) :
  ascending (map RFMMetrics.customer_id (rfm_metrics (clean_sales_header raw)))
  /\ (forall k,
        In k (map RFMMetrics.customer_id (rfm_metrics (clean_sales_header raw)))
        <-> exists h, In h (clean_sales_header raw)
                      /\ SalesHeader.customer_id h = k)
  /\ (forall m, In m (rfm_metrics (clean_sales_header raw)) ->
        1 <= RFMMetrics.frequency m
        /\ forall r, RFMMetrics.recency m = Some r -> 1 <= r).
Proof.
  set (hs := clean_sales_header raw).
  split; [rewrite rfm_metrics_keys; apply group_keys_ascending |]. split.
  - intros k. rewrite rfm_metrics_keys, group_keys_In, in_map_iff.
    split; intros (h & H1 & H2); exists h; tauto.
  - intros m Hm. unfold rfm_metrics in Hm.
    apply in_map_iff in Hm as (k & <- & Hk).
    cbn [RFMMetrics.frequency RFMMetrics.monetary RFMMetrics.recency].
    apply group_keys_In, in_map_iff in Hk as (h & Eh & Hh).
    assert (Hg : In h (transactions_of k hs)).
    { unfold transactions_of. apply filter_In. split; [exact Hh |].
      rewrite Eh. apply String.eqb_refl. }
    split.
    + destruct (transactions_of k hs); [destruct Hg | simpl List.length; lia].
    + intros r Hr.
      apply recency_of_Some in Hr as (sn & mg & Es & Eg & ->).
      apply snapshot_date_Some in Es as (mx & Eall & ->).
      apply max_date_In in Eg. apply in_map_iff in Eg as (h' & Eh' & Hh').
      unfold transactions_of in Hh'. apply filter_In in Hh' as (Hh' & _).
      assert (mg <= mx).
      { apply (max_date_upper _ _ Eall). rewrite <- Eh'. apply in_map. exact Hh'. }
      lia.
Qed.

(** Lines 98-104: grouping by customer conserves the snapshot.
    Every customer's frequency is the number of its transactions, and the
    frequencies of the RFM table add up to the number of transactions of
    the snapshot: none is counted twice or left out. *)
Theorem rfm_metrics_conserve_transactions (hs : list SalesHeader.t) :
  (forall m, In m (rfm_metrics hs) ->
     RFMMetrics.frequency m
     = Z.of_nat (List.length (transactions_of (RFMMetrics.customer_id m) hs)))
  /\ sum_Z (map RFMMetrics.frequency (rfm_metrics hs)) = Z.of_nat (List.length hs).
Proof.
  split.
  - intros m Hm. unfold rfm_metrics in Hm.
    apply in_map_iff in Hm as (k & <- & _). reflexivity.
  - unfold rfm_metrics, transactions_of. rewrite !map_map. simpl.
    rewrite (length_as_sum hs).
    rewrite <- (group_sum SalesHeader.customer_id (fun _ => 1)
                  (group_keys (map SalesHeader.customer_id hs)) hs).
    + apply f_equal. apply map_ext. intros k. apply length_as_sum.
    + apply group_keys_NoDup.
    + intros h Hh. apply group_keys_In. apply in_map. exact Hh.
Qed.

(** ** Ranks follow the metrics *)

Lemma bin_of_range (xs : list (option Z)) (x : Z) :
  In (Some x) xs -> (1 <= bin_of xs x <= 3)%nat.
Proof. apply bin_id_range. Qed.

Lemma searchsorted_left_mono (edges3 : list Z) (x y : Z) :
  x <= y -> (searchsorted_left edges3 x <= searchsorted_left edges3 y)%nat.
Proof.
  intros Hxy. unfold searchsorted_left.
  induction edges3 as [| e es IH]; cbn [filter]; [lia |].
  destruct (e <? 3 * x) eqn:Ex.
  - apply Z.ltb_lt in Ex.
    assert (Ey : (e <? 3 * y) = true) by (apply Z.ltb_lt; lia).
    rewrite Ey. cbn [List.length]. lia.
  - destruct (e <? 3 * y); cbn [List.length]; lia.
Qed.

Lemma bin_of_mono (xs : list (option Z)) (x y : Z) :
  In (Some x) xs -> In (Some y) xs -> x <= y ->
  (bin_of xs x <= bin_of xs y)%nat.
Proof.
  intros Hx Hy Hxy.
  pose proof (bin_of_range xs y Hy) as Hry.
  pose proof (searchsorted_left_mono (bin_edges3 (sort_Z (dropna xs))) x y Hxy)
    as Hmono.
  apply dropna_In, sort_Z_In in Hx.
  pose proof (nondecreasing_first _ x (sort_Z_nondecreasing _) Hx) as Hlo.
  unfold bin_of, bin_id in *.
  set (edges := bin_edges3 (sort_Z (dropna xs))) in *.
  assert (Eh : hd 0 edges = 3 * nth 0 (sort_Z (dropna xs)) 0)
    by (unfold edges, bin_edges3; cbn [map hd]; apply quantile3_first).
  destruct (hd 0 edges =? 3 * x) eqn:Ex; [lia |].
  destruct (hd 0 edges =? 3 * y) eqn:Ey; [| exact Hmono].
  apply Z.eqb_neq in Ex. apply Z.eqb_eq in Ey. lia.
Qed.

Lemma bin_of_lowest (xs : list (option Z)) (x : Z) :
  In (Some x) xs -> (forall z, In (Some z) xs -> x <= z) -> bin_of xs x = 1%nat.
Proof.
  intros Hx Hmin. unfold bin_of, bin_id, bin_edges3. cbn [map hd].
  rewrite quantile3_first.
  assert (Hx' : In x (sort_Z (dropna xs))) by (apply sort_Z_In, dropna_In; exact Hx).
  pose proof (nondecreasing_first _ x (sort_Z_nondecreasing _) Hx') as Hlo.
  assert (Hfirst : In (nth 0 (sort_Z (dropna xs)) 0) (sort_Z (dropna xs))).
  { apply nth_In. destruct (sort_Z (dropna xs)); [destruct Hx' | simpl; lia]. }
  apply sort_Z_In, dropna_In in Hfirst. specialize (Hmin _ Hfirst).
  assert (E : (3 * nth 0 (sort_Z (dropna xs)) 0 =? 3 * x) = true)
    by (apply Z.eqb_eq; lia).
  rewrite E. reflexivity.
Qed.

Lemma quantile3_upper (ys : list Z) (k : nat) (top : Z) :
  ys <> [] -> (k <= 3)%nat -> (forall y, In y ys -> y <= top) ->
  quantile3 ys k <= 3 * top.
Proof.
  intros Hne Hk Htop. unfold quantile3.
  set (pos := (k * (List.length ys - 1))%nat).
  assert (Hlen : (0 < List.length ys)%nat)
    by (destruct ys; [congruence | simpl; lia]).
  assert (Hi : (pos / 3 < List.length ys)%nat).
  { apply Nat.Div0.div_lt_upper_bound. unfold pos. nia. }
  assert (Hr : (pos mod 3 < 3)%nat) by (apply Nat.mod_upper_bound; discriminate).
  assert (Ha : nth (pos / 3) ys 0 <= top) by (apply Htop, nth_In; exact Hi).
  assert (Hb : nth (S (pos / 3)) ys (nth (pos / 3) ys 0) <= top).
  { destruct (Nat.lt_ge_cases (S (pos / 3)) (List.length ys)) as [Hlt | Hge].
    - rewrite (nth_indep ys _ 0 Hlt). apply Htop, nth_In. exact Hlt.
    - rewrite nth_overflow by exact Hge. exact Ha. }
  nia.
Qed.

Lemma no_duplicates_4 (e0 e1 e2 e3 : Z) :
  has_duplicates [e0; e1; e2; e3] = false ->
  e0 <> e3 /\ e1 <> e3 /\ e2 <> e3.
Proof.
  simpl. rewrite !orb_false_r. intros H.
  apply orb_false_iff in H as (H0 & H).
  apply orb_false_iff in H as (H1 & H2).
  apply orb_false_iff in H0 as (_ & H0).
  apply orb_false_iff in H0 as (_ & H0).
  apply orb_false_iff in H1 as (_ & H1).
  apply Z.eqb_neq in H0, H1, H2. tauto.
Qed.

Lemma bin_of_highest (xs : list (option Z)) (x : Z) :
  has_duplicates (bin_edges3 (sort_Z (dropna xs))) = false ->
  In (Some x) xs -> (forall z, In (Some z) xs -> z <= x) -> bin_of xs x = 3%nat.
Proof.
  intros Hnd Hx Hmax.
  assert (Hx' : In x (sort_Z (dropna xs))) by (apply sort_Z_In, dropna_In; exact Hx).
  set (ys := sort_Z (dropna xs)) in *.
  assert (Hne : ys <> []) by (destruct ys; [destruct Hx' | discriminate]).
  assert (Htop : forall y, In y ys -> y <= x).
  { intros y Hy. apply Hmax. apply dropna_In, sort_Z_In. exact Hy. }
  pose proof (nondecreasing_last ys x (sort_Z_nondecreasing _) Hx') as Hhi.
  assert (Hlast : nth (List.length ys - 1) ys 0 <= x).
  { apply Htop, nth_In. destruct ys; [congruence | simpl; lia]. }
  unfold bin_edges3 in Hnd. cbn [map] in Hnd.
  apply no_duplicates_4 in Hnd as (H0 & H1 & H2).
  pose proof (quantile3_upper ys 0 x Hne ltac:(lia) Htop) as U0.
  pose proof (quantile3_upper ys 1 x Hne ltac:(lia) Htop) as U1.
  pose proof (quantile3_upper ys 2 x Hne ltac:(lia) Htop) as U2.
  assert (E3 : quantile3 ys 3 = 3 * x) by (rewrite quantile3_last; lia).
  unfold bin_of, bin_id, bin_edges3, searchsorted_left. fold ys.
  cbn [map hd filter].
  assert (T0 : (quantile3 ys 0 =? 3 * x) = false) by (apply Z.eqb_neq; lia).
  assert (L0 : (quantile3 ys 0 <? 3 * x) = true) by (apply Z.ltb_lt; lia).
  assert (L1 : (quantile3 ys 1 <? 3 * x) = true) by (apply Z.ltb_lt; lia).
  assert (L2 : (quantile3 ys 2 <? 3 * x) = true) by (apply Z.ltb_lt; lia).
  assert (L3 : (quantile3 ys 3 <? 3 * x) = false) by (apply Z.ltb_ge; lia).
  rewrite T0, L0, L1, L2, L3. reflexivity.
Qed.

Lemma label_of_increasing (ys : list Z) (id : nat) :
  (1 <= id <= 3)%nat ->
  label_of [1; 2; 3] (bin_edges3 ys) id = Some (Z.of_nat id).
Proof.
  intros H. unfold label_of, bin_edges3. cbn [map List.length].
  destruct id as [| [| [| [| id]]]]; try lia; reflexivity.
Qed.

Lemma label_of_decreasing (ys : list Z) (id : nat) :
  (1 <= id <= 3)%nat ->
  label_of [3; 2; 1] (bin_edges3 ys) id = Some (4 - Z.of_nat id).
Proof.
  intros H. unfold label_of, bin_edges3. cbn [map List.length].
  destruct id as [| [| [| [| id]]]]; try lia; reflexivity.
Qed.

Lemma zip4_In_last {A B C D} (la : list A) :
  forall (lb : list B) (lc : list C) (ld : list D) a b c d,
    In (a, b, c, d) (zip4 la lb lc ld) -> In (a, d) (combine la ld).
Proof.
  induction la as [| a0 la IH]; intros [| b0 lb] [| c0 lc] [| d0 ld] a b c d;
    simpl; try tauto.
  intros [[= -> -> -> ->] | H]; [tauto |].
  right. apply (IH _ _ _ _ _ _ _ H).
Qed.

(** The ranks R and M of a row of the RFM table, as functions of its
    metrics and of the population. *)
Lemma rfm_rows_ranks rules hs rfm :
  rfm_analytics rules hs = Ok rfm ->
  has_duplicates (bin_edges3 (sort_Z (dropna (map RFMMetrics.recency (rfm_metrics hs)))))
  = false
  /\ has_duplicates
       (bin_edges3 (sort_Z (dropna (map (fun m => Some (RFMMetrics.monetary m))
                                        (rfm_metrics hs))))) = false
  /\ forall x, In x rfm ->
       In (RFMRow.metrics x) (rfm_metrics hs)
       /\ RFMRow.R x
          = rank_in [3; 2; 1] (map RFMMetrics.recency (rfm_metrics hs))
              (RFMMetrics.recency (RFMRow.metrics x))
       /\ RFMRow.M x
          = rank_in [1; 2; 3]
              (map (fun m => Some (RFMMetrics.monetary m)) (rfm_metrics hs))
              (Some (RFMMetrics.monetary (RFMRow.metrics x))).
Proof.
  unfold rfm_analytics. intros H.
  apply bind_Ok_inv in H as (Rs & HR & H).
  apply bind_Ok_inv in H as (Fs & HF & H).
  apply bind_Ok_inv in H as (Ms & HM & H).
  injection H as <-.
  apply qcut_Ok in HR as (HdR & ->). apply qcut_Ok in HM as (HdM & ->).
  split; [exact HdR |]. split; [exact HdM |].
  intros x Hx. apply in_map_iff in Hx as ([[[mt r] f] m] & <- & Hz). simpl.
  pose proof (zip4_In_last _ _ _ _ _ _ _ _ Hz) as Hm.
  apply zip4_In in Hz as (Hr & _ & _).
  rewrite map_map in Hr, Hm.
  apply combine_map_In in Hr as (Hmt & ->).
  apply combine_map_In in Hm as (_ & ->).
  split; [exact Hmt |]. split; reflexivity.
Qed.

(** Lines 107-109: in a completed binning the ranks follow the
    metrics.  A customer who spent no more than another has no higher
    rank M, and a customer whose last purchase is no older than
    another's has no lower rank R. *)
Theorem ranks_follow_the_metrics rules hs rfm (x y : RFMRow.t) :
  rfm_analytics rules hs = Ok rfm ->
  In x rfm -> In y rfm ->
  (RFMMetrics.monetary (RFMRow.metrics x) <= RFMMetrics.monetary (RFMRow.metrics y) ->
   exists mx my,
     RFMRow.M x = Some mx /\ RFMRow.M y = Some my /\ 1 <= mx <= my /\ my <= 3)
  /\ (forall rx ry,
        RFMMetrics.recency (RFMRow.metrics x) = Some rx ->
        RFMMetrics.recency (RFMRow.metrics y) = Some ry ->
        rx <= ry ->
        exists a b,
          RFMRow.R x = Some a /\ RFMRow.R y = Some b /\ 1 <= b <= a /\ a <= 3).
Proof.
  intros H Hx Hy. apply rfm_rows_ranks in H as (_ & _ & H).
  destruct (H x Hx) as (Hmx & HRx & HMx). destruct (H y Hy) as (Hmy & HRy & HMy).
  split.
  - intros Hle. rewrite HMx, HMy. unfold rank_in.
    set (col := map (fun m => Some (RFMMetrics.monetary m)) (rfm_metrics hs)).
    assert (Ix : In (Some (RFMMetrics.monetary (RFMRow.metrics x))) col)
      by (apply (in_map (fun m => Some (RFMMetrics.monetary m))); exact Hmx).
    assert (Iy : In (Some (RFMMetrics.monetary (RFMRow.metrics y))) col)
      by (apply (in_map (fun m => Some (RFMMetrics.monetary m))); exact Hmy).
    pose proof (bin_of_range col _ Ix) as Rx.
    pose proof (bin_of_range col _ Iy) as Ry.
    pose proof (bin_of_mono col _ _ Ix Iy Hle) as Hm.
    rewrite !label_of_increasing by assumption.
    eexists. eexists. split; [reflexivity |]. split; [reflexivity |]. lia.
  - intros rx ry Ex Ey Hle. rewrite HRx, HRy, Ex, Ey. unfold rank_in.
    set (col := map RFMMetrics.recency (rfm_metrics hs)).
    assert (Ix : In (Some rx) col) by (rewrite <- Ex; apply in_map; exact Hmx).
    assert (Iy : In (Some ry) col) by (rewrite <- Ey; apply in_map; exact Hmy).
    pose proof (bin_of_range col _ Ix) as Rx.
    pose proof (bin_of_range col _ Iy) as Ry.
    pose proof (bin_of_mono col _ _ Ix Iy Hle) as Hm.
    rewrite !label_of_decreasing by assumption.
    eexists. eexists. split; [reflexivity |]. split; [reflexivity |]. lia.
Qed.

Lemma ranks_follow_the_metrics_witness :
  exists rfm x y,
    rfm_analytics (rfm_rules Sample.data) (cleaned_sales_header Sample.data)
    = Ok rfm
    /\ In x rfm /\ In y rfm
    /\ RFMMetrics.monetary (RFMRow.metrics x)
       <= RFMMetrics.monetary (RFMRow.metrics y)
    /\ exists mx my,
         RFMRow.M x = Some mx /\ RFMRow.M y = Some my /\ 1 <= mx <= my /\ my <= 3.
Proof.
  eexists. eexists. eexists.
  split; [reflexivity |].
  split; [right; left; reflexivity |].
  split; [left; reflexivity |].
  split; [vm_compute; discriminate |].
  refine (proj1 (ranks_follow_the_metrics (rfm_rules Sample.data)
                   (cleaned_sales_header Sample.data) _ _ _ eq_refl _ _) _).
  - right. left. reflexivity.
  - left. reflexivity.
  - vm_compute. discriminate.
Defined.

Lemma rfm_rows_cover_metrics rules hs rfm (mt : RFMMetrics.t) :
  rfm_analytics rules hs = Ok rfm ->
  In mt (rfm_metrics hs) -> exists y, In y rfm /\ RFMRow.metrics y = mt.
Proof.
  intros H Hmt. apply rfm_analytics_Ok in H as (Hmap & _).
  rewrite <- Hmap in Hmt. apply in_map_iff in Hmt as (y & Ey & Hy).
  exists y. tauto.
Qed.

(** Lines 107-109: in a completed binning the extremes of the
    population take the extreme ranks.  The customer who spent least has
    M = 1 and the one who spent most has M = 3; the customer with the
    smallest recency has R = 3 and the one with the largest has R = 1. *)
Theorem extreme_customers_get_extreme_ranks rules hs rfm (x : RFMRow.t) :
  rfm_analytics rules hs = Ok rfm ->
  In x rfm ->
  ((forall y, In y rfm ->
      RFMMetrics.monetary (RFMRow.metrics x) <= RFMMetrics.monetary (RFMRow.metrics y)) ->
   RFMRow.M x = Some 1)
  /\ ((forall y, In y rfm ->
         RFMMetrics.monetary (RFMRow.metrics y) <= RFMMetrics.monetary (RFMRow.metrics x)) ->
      RFMRow.M x = Some 3)
  /\ (forall rx, RFMMetrics.recency (RFMRow.metrics x) = Some rx ->
        (forall y ry, In y rfm -> RFMMetrics.recency (RFMRow.metrics y) = Some ry ->
                      rx <= ry) ->
        RFMRow.R x = Some 3)
  /\ (forall rx, RFMMetrics.recency (RFMRow.metrics x) = Some rx ->
        (forall y ry, In y rfm -> RFMMetrics.recency (RFMRow.metrics y) = Some ry ->
                      ry <= rx) ->
        RFMRow.R x = Some 1).
Proof.
  intros H Hx. pose proof (rfm_rows_cover_metrics rules hs rfm) as Hcover.
  pose proof H as H'. apply rfm_rows_ranks in H' as (HdR & HdM & Hrows).
  destruct (Hrows x Hx) as (Hmx & HRx & HMx).
  set (mons := map (fun m => Some (RFMMetrics.monetary m)) (rfm_metrics hs)) in *.
  set (recs := map RFMMetrics.recency (rfm_metrics hs)) in *.
  assert (Im : In (Some (RFMMetrics.monetary (RFMRow.metrics x))) mons)
    by (apply (in_map (fun m => Some (RFMMetrics.monetary m))); exact Hmx).
  assert (Hmons : forall z, In (Some z) mons ->
            exists y, In y rfm /\ RFMMetrics.monetary (RFMRow.metrics y) = z).
  { intros z Hz. apply in_map_iff in Hz as (mt & [= <-] & Hmt).
    destruct (Hcover mt H Hmt) as (y & Hy & <-). exists y. tauto. }
  assert (Hrecs : forall z, In (Some z) recs ->
            exists y, In y rfm /\ RFMMetrics.recency (RFMRow.metrics y) = Some z).
  { intros z Hz. apply in_map_iff in Hz as (mt & Ez & Hmt).
    destruct (Hcover mt H Hmt) as (y & Hy & <-). exists y. tauto. }
  split; [| split; [| split]].
  - intros Hmin. rewrite HMx. unfold rank_in.
    rewrite bin_of_lowest; [reflexivity | exact Im |].
    intros z Hz. destruct (Hmons z Hz) as (y & Hy & <-). apply Hmin. exact Hy.
  - intros Hmax. rewrite HMx. unfold rank_in.
    rewrite bin_of_highest; [reflexivity | exact HdM | exact Im |].
    intros z Hz. destruct (Hmons z Hz) as (y & Hy & <-). apply Hmax. exact Hy.
  - intros rx Ex Hmin. rewrite HRx, Ex. unfold rank_in.
    assert (Ir : In (Some rx) recs) by (rewrite <- Ex; apply in_map; exact Hmx).
    rewrite bin_of_lowest; [reflexivity | exact Ir |].
    intros z Hz. destruct (Hrecs z Hz) as (y & Hy & Ey). apply (Hmin y z Hy Ey).
  - intros rx Ex Hmax. rewrite HRx, Ex. unfold rank_in.
    assert (Ir : In (Some rx) recs) by (rewrite <- Ex; apply in_map; exact Hmx).
    rewrite bin_of_highest; [reflexivity | exact HdR | exact Ir |].
    intros z Hz. destruct (Hrecs z Hz) as (y & Hy & Ey). apply (Hmax y z Hy Ey).
Qed.

Lemma extreme_customers_get_extreme_ranks_witness :
  exists rfm x,
    rfm_analytics (rfm_rules Sample.data) (cleaned_sales_header Sample.data)
    = Ok rfm
    /\ In x rfm
    /\ RFMMetrics.customer_id (RFMRow.metrics x) = "C1"
    /\ RFMRow.M x = Some 3.
Proof.
  eexists. eexists.
  split; [reflexivity |].
  split; [left; reflexivity |].
  split; [reflexivity |].
  refine (proj1 (proj2 (extreme_customers_get_extreme_ranks
                          (rfm_rules Sample.data)
                          (cleaned_sales_header Sample.data) _ _ eq_refl _)) _).
  - left. reflexivity.
  - intros y [<- | [<- | [<- | []]]]; vm_compute; discriminate.
Defined.

(** * Further properties of the classifier *)

Lemma segment_customer_app_cases (rs1 rs2 : list RFMRule.t) (score : Z) :
  segment_customer (rs1 ++ rs2)%list score
  = if existsb (fun r => in_range r score) rs1
    then segment_customer rs1 score
    else segment_customer rs2 score.
Proof.
  induction rs1 as [| r rs1 IH]; [reflexivity |].
  cbn [app existsb]. rewrite !segment_customer_cons.
  destruct (in_range r score); [reflexivity | exact IH].
Qed.

(** Lines 113-120: the classifier answers with a name of the
    rule table or with "Unclassified", and only the rules up to the
    first match count: rules appended to a table that already holds the
    score never change the answer, and a table that does not hold the
    score can be put in front of another without changing the other's
    answer. *)
Theorem segment_customer_composes (rs1 rs2 : list RFMRule.t) (score : Z) :
  In (segment_customer rs1 score)
     ("Unclassified" :: map RFMRule.segment_name rs1)
  /\ segment_customer (rs1 ++ rs2)%list score
     = (if existsb (fun r => in_range r score) rs1
        then segment_customer rs1 score
        else segment_customer rs2 score).
Proof.
  split; [| apply segment_customer_app_cases].
  induction rs1 as [| r rs1 IH]; [left; reflexivity |].
  rewrite segment_customer_cons. destruct (in_range r score).
  - right. left. reflexivity.
  - destruct IH as [IH | IH]; [left; exact IH | right; right; exact IH].
Qed.

(** * The stage on a dictionary that may lack tables *)

Lemma for_each_pure {A B} (f : A -> outcome B) (g : A -> B) (l : list A) :
  (forall a, f a = Done (g a)) -> for_each f l = Done (map g l).
Proof.
  intros H. induction l as [| a l IH]; simpl; [reflexivity |].
  rewrite H. simpl. rewrite IH. reflexivity.
Qed.

Lemma rfm_analytics_ranked rules hs :
  rfm_analytics rules hs
  = (ranked <- rfm_ranked hs ;;
     Ok (map (fun x =>
                match x with
                | (mt, r, f, m) =>
                    RFMRow.mk mt r f m (rfm_score r f m)
                      (segment_customer rules (rfm_score r f m))
                end) ranked)).
Proof.
  unfold rfm_analytics, rfm_ranked.
  destruct (qcut (map RFMMetrics.recency (rfm_metrics hs)) [3; 2; 1]);
    simpl; [| reflexivity].
  destruct (qcut (map Some (rank_first (map RFMMetrics.frequency (rfm_metrics hs))))
              [1; 2; 3]); simpl; [| reflexivity].
  destruct (qcut (map (fun x => Some (RFMMetrics.monetary x)) (rfm_metrics hs))
              [1; 2; 3]); simpl; reflexivity.
Qed.

(** With every table present the dictionary-level stage is [transform]. *)
Lemma transform_dict_all_tables (data : Data) :
  transform_dict (all_tables data) = lift (transform data).
Proof.
  unfold transform_dict, transform, all_tables. simpl.
  fold (cleaned_products data). fold (cleaned_sales_header data).
  fold (cleaned_line_items data). fold (fact_table data).
  destruct (loyalty_engine (loyalty_rules data) (cleaned_sales_header data))
    as [scored | e]; simpl; [| reflexivity].
  rewrite rfm_analytics_ranked.
  destruct (rfm_ranked (map ScoredHeader.row scored)) as [ranked | e]; simpl;
    [| reflexivity].
  rewrite (for_each_pure _
             (fun x => match x with
                       | (mt, r, f, m) =>
                           RFMRow.mk mt r f m (rfm_score r f m)
                             (segment_customer (rfm_rules data) (rfm_score r f m))
                       end)).
  - reflexivity.
  - intros [[[mt r] f] m]. reflexivity.
Qed.

Lemma rfm_ranked_nonempty hs ranked : rfm_ranked hs = Ok ranked -> ranked <> [].
Proof.
  unfold rfm_ranked. intros H.
  apply bind_Ok_inv in H as (Rs & HR & H).
  apply bind_Ok_inv in H as (Fs & HF & H).
  apply bind_Ok_inv in H as (Ms & HM & H).
  injection H as <-. intros Hnil.
  assert (Hfirst : map (fun x => fst (fst (fst x)))
                       (zip4 (rfm_metrics hs) Rs Fs Ms) = rfm_metrics hs).
  { apply zip4_first.
    - rewrite (qcut_length _ _ _ HR). apply length_map.
    - rewrite (qcut_length _ _ _ HF). rewrite length_map.
      unfold rank_first. rewrite rank_first_from_length. apply length_map.
    - rewrite (qcut_length _ _ _ HM). apply length_map. }
  rewrite Hnil in Hfirst. simpl in Hfirst.
  rewrite <- Hfirst in HR. simpl in HR.
  rewrite (qcut_constant [] [3; 2; 1] 0) in HR; [discriminate HR |].
  intros x [].
Qed.

(** Lines 15-46, 53, 80, 113-122: a dictionary that lacks a
    table never yields output.  The run stops at the first missing table
    in the order customers, products, stores, promotions (method call on
    [None]), sales_header, sales_line_items, loyalty_rules (subscript of
    [None]), before any computation.  When only rfm_rules is missing the
    whole computation runs first: the run ends in a computation error if
    there is one, and in the [TypeError] of the classifier otherwise. *)
Theorem missing_table_fails (d : Tables) :
  (forall f, first_missing d = Some f -> transform_dict d = Failed f)
  /\ (first_missing d = None -> get_rfm_rules d = None ->
      transform_dict d = Failed (TypeError "rfm_rules")
      \/ exists e, transform_dict d = Failed (Raised e))
  /\ (first_missing d <> None \/ get_rfm_rules d = None ->
      forall out, transform_dict d <> Done out).
Proof.
  assert (H1 : forall f, first_missing d = Some f -> transform_dict d = Failed f).
  { intros f. unfold first_missing, transform_dict.
    destruct (get_customers d); [| intros [= <-]; reflexivity].
    destruct (get_products d); [| intros [= <-]; reflexivity].
    destruct (get_stores d); [| intros [= <-]; reflexivity].
    destruct (get_promotions d); [| intros [= <-]; reflexivity].
    destruct (get_sales_header d); [| intros [= <-]; reflexivity].
    destruct (get_sales_line_items d); [| intros [= <-]; reflexivity].
    destruct (get_loyalty_rules d); [| intros [= <-]; reflexivity].
    discriminate. }
  assert (H2 : first_missing d = None -> get_rfm_rules d = None ->
               transform_dict d = Failed (TypeError "rfm_rules")
               \/ exists e, transform_dict d = Failed (Raised e)).
  { unfold first_missing, transform_dict. intros Hnone Hrules.
    destruct (get_customers d) as [cs |]; [| discriminate].
    destruct (get_products d) as [ps |]; [| discriminate].
    destruct (get_stores d) as [ss |]; [| discriminate].
    destruct (get_promotions d) as [qs |]; [| discriminate].
    destruct (get_sales_header d) as [hs |]; [| discriminate].
    destruct (get_sales_line_items d) as [ls |]; [| discriminate].
    destruct (get_loyalty_rules d) as [rs |]; [| discriminate].
    rewrite Hrules. simpl.
    destruct (loyalty_engine rs (clean_sales_header hs)) as [scored | e]; simpl;
      [| right; exists e; reflexivity].
    destruct (rfm_ranked (map ScoredHeader.row scored)) as [ranked | e] eqn:E;
      simpl; [| right; exists e; reflexivity].
    left. apply rfm_ranked_nonempty in E.
    destruct ranked as [| [[[mt r] f] m] ranked]; [congruence |]. reflexivity. }
  split; [exact H1 |]. split; [exact H2 |].
  intros H out Hout. destruct (first_missing d) as [f |] eqn:Ef.
  - rewrite (H1 f eq_refl) in Hout. discriminate Hout.
  - destruct H as [H | H]; [congruence |].
    destruct (H2 eq_refl H) as [E | (e & E)]; rewrite E in Hout; discriminate Hout.
Qed.

Lemma missing_table_fails_witness :
  transform_dict
    (mkTables (Some []) (Some []) (Some []) (Some []) None None None None)
  = Failed (TypeError "sales_header")
  /\ forall out,
       transform_dict
         (mkTables (Some (customers Sample.data)) (Some (products Sample.data))
            (Some []) (Some []) (Some (sales_header Sample.data))
            (Some (sales_line_items Sample.data))
            (Some (loyalty_rules Sample.data)) None)
       <> Done out.
Proof.
  split.
  - apply (proj1 (missing_table_fails _)). reflexivity.
  - apply (proj2 (proj2 (missing_table_fails _))). right. reflexivity.
Defined.

(** * Ingestion *)

Lemma set_minus_In (a b : list string) (c : string) :
  In c (set_minus a b) <-> In c a /\ ~ In c b.
Proof.
  unfold set_minus. rewrite nodup_In, filter_In, negb_true_iff. split.
  - intros (Ha & Hb). split; [exact Ha |].
    intros Hin. apply isin_In in Hin. congruence.
  - intros (Ha & Hb). split; [exact Ha |].
    destruct (isin c b) eqn:E; [| reflexivity].
    apply isin_In in E. contradiction.
Qed.

Lemma set_minus_nil (a b : list string) :
  set_minus a b = [] <-> forall c, In c a -> In c b.
Proof.
  split.
  - intros E c Hc. destruct (in_dec string_dec c b) as [Hb | Hb]; [exact Hb |].
    assert (Hin : In c (set_minus a b)) by (apply set_minus_In; tauto).
    rewrite E in Hin. destruct Hin.
  - intros H. destruct (set_minus a b) as [| c l] eqn:E; [reflexivity |].
    assert (Hin : In c (set_minus a b)) by (rewrite E; left; reflexivity).
    apply set_minus_In in Hin as (Ha & Hb). exfalso. apply Hb, H, Ha.
Qed.

Lemma is_empty_true {A} (l : list A) : is_empty l = true <-> l = [].
Proof. destruct l; simpl; split; congruence. Qed.

(** [extract.py], lines 42-52: [validate_columns] only warns.  It
    returns the frame it was given; it logs nothing exactly when the
    frame's columns and the expected columns are the same set; a logged
    set of missing (extra) columns is never empty and holds exactly the
    expected columns the frame lacks (the frame's columns that are not
    expected). *)
Theorem validate_columns_only_warns (df : frame) (expected : list string)
    (filename : string) :
  fst (validate_columns df expected filename) = df
  /\ (snd (validate_columns df expected filename) = []
      <-> forall c, In c expected <-> In c (frame_columns df))
  /\ (forall cols,
        In (MissingColumns filename cols)
           (snd (validate_columns df expected filename)) ->
        cols <> []
        /\ forall c, In c cols <-> In c expected /\ ~ In c (frame_columns df))
  /\ (forall cols,
        In (ExtraColumns filename cols)
           (snd (validate_columns df expected filename)) ->
        cols <> []
        /\ forall c, In c cols <-> In c (frame_columns df) /\ ~ In c expected).
Proof.
  unfold validate_columns. cbn [fst snd].
  set (missing := set_minus expected (frame_columns df)).
  set (extra := set_minus (frame_columns df) expected).
  assert (Hmiss : forall c, In c missing
                            <-> In c expected /\ ~ In c (frame_columns df))
    by (intros c; apply set_minus_In).
  assert (Hextra : forall c, In c extra
                             <-> In c (frame_columns df) /\ ~ In c expected)
    by (intros c; apply set_minus_In).
  assert (Em : is_empty missing = true
               <-> forall c, In c expected -> In c (frame_columns df))
    by (rewrite is_empty_true; apply set_minus_nil).
  assert (Ee : is_empty extra = true
               <-> forall c, In c (frame_columns df) -> In c expected)
    by (rewrite is_empty_true; apply set_minus_nil).
  split; [reflexivity |]. split; [| split].
  - destruct (is_empty missing) eqn:E1; destruct (is_empty extra) eqn:E2;
      cbn [app]; split; intros H; try discriminate H; try reflexivity.
    + intros c. split; [apply Em | apply Ee]; reflexivity.
    + assert (X : false = true)
        by (apply Ee; intros c Hc; apply H; exact Hc). discriminate X.
    + assert (X : false = true)
        by (apply Em; intros c Hc; apply H; exact Hc). discriminate X.
    + assert (X : false = true)
        by (apply Em; intros c Hc; apply H; exact Hc). discriminate X.
  - intros cols Hin.
    destruct (is_empty missing) eqn:E1; destruct (is_empty extra) eqn:E2;
      simpl in Hin;
      repeat (destruct Hin as [Hin | Hin]; try discriminate Hin);
      try contradiction.
    all: injection Hin as <-; split; [apply is_empty_false; exact E1 | exact Hmiss].
  - intros cols Hin.
    destruct (is_empty missing) eqn:E1; destruct (is_empty extra) eqn:E2;
      simpl in Hin;
      repeat (destruct Hin as [Hin | Hin]; try discriminate Hin);
      try contradiction.
    all: injection Hin as <-; split; [apply is_empty_false; exact E2 | exact Hextra].
Qed.

Lemma dict_get_set_same {V} (k : string) (v : V) (d : list (string * V)) :
  dict_get k (dict_set k v d) = Some v.
Proof.
  unfold dict_get. induction d as [| [k' v'] d IH]; simpl.
  - rewrite String.eqb_refl. reflexivity.
  - destruct (String.eqb k k') eqn:E; simpl.
    + rewrite String.eqb_refl. reflexivity.
    + rewrite E. exact IH.
Qed.

Lemma dict_get_set_other {V} (k k0 : string) (v : V) (d : list (string * V)) :
  k <> k0 -> dict_get k (dict_set k0 v d) = dict_get k d.
Proof.
  intros Hne. apply String.eqb_neq in Hne.
  unfold dict_get. induction d as [| [k' v'] d IH]; simpl.
  - rewrite Hne. reflexivity.
  - destruct (String.eqb k0 k') eqn:E; simpl.
    + apply String.eqb_eq in E. subst k'. rewrite Hne. reflexivity.
    + destruct (String.eqb k k'); [reflexivity | exact IH].
Qed.

Lemma validate_columns_no_FileNotFound df expected filename f :
  ~ In (FileNotFound f) (snd (validate_columns df expected filename)).
Proof.
  unfold validate_columns. cbn [snd].
  destruct (is_empty _); destruct (is_empty _); simpl; intuition discriminate.
Qed.

(** The loop over any schema table whose keys are distinct and whose
    files can all be read. *)
Lemma extract_loop_readable (fs : string -> file)
    (schemas : list (string * list string)) :
  NoDup (map (fun e => table_key (fst e)) schemas) ->
  (forall e, In e schemas -> fs (file_path (fst e)) <> Unreadable) ->
  forall dataframes log,
  exists dataframes' log',
    extract_loop fs schemas dataframes log = Extracted dataframes' log'
    /\ (forall e, In e schemas ->
          dict_get (table_key (fst e)) dataframes'
          = match fs (file_path (fst e)) with
            | Csv df => Some df
            | _ => dict_get (table_key (fst e)) dataframes
            end)
    /\ (forall k, ~ In k (map (fun e => table_key (fst e)) schemas) ->
          dict_get k dataframes' = dict_get k dataframes)
    /\ (forall f, In (FileNotFound f) log'
                  <-> In (FileNotFound f) log
                      \/ exists e, In e schemas /\ fst e = f
                                   /\ fs (file_path f) = NoFile).
Proof.
  induction schemas as [| [filename cols] rest IH]; intros Hnd Hread d log.
  - exists d, log. split; [reflexivity |]. split; [intros e [] |].
    split; [reflexivity |]. intros f. split; [tauto |].
    intros [H | (e & [] & _)]. exact H.
  - cbn [map fst] in Hnd. inversion Hnd as [| ? ? Hnot Hnd']; subst.
    assert (Hread' : forall e, In e rest -> fs (file_path (fst e)) <> Unreadable)
      by (intros e He; apply Hread; right; exact He).
    pose proof (Hread (filename, cols) (or_introl eq_refl)) as Hhere.
    cbn [fst] in Hhere. cbn [extract_loop].
    destruct (fs (file_path filename)) as [| | df] eqn:Efs; [| congruence |].
    + destruct (IH Hnd' Hread' d (log ++ [FileNotFound filename])%list)
        as (d' & log' & E & Hget & Hother & Hlog).
      exists d', log'. split; [exact E |]. split; [| split].
      * intros e [<- | He].
        -- cbn [fst]. rewrite Efs. apply Hother. exact Hnot.
        -- apply Hget. exact He.
      * intros k Hk. apply Hother. intros Hin. apply Hk. right. exact Hin.
      * intros f. rewrite Hlog, in_app_iff. simpl. split.
        -- intros [[H | [[= <-] | []]] | (e & He & Ee & Ef)].
           ++ left. exact H.
           ++ right. exists (filename, cols). simpl. tauto.
           ++ right. exists e. tauto.
        -- intros [H | (e & [<- | He] & Ee & Ef)].
           ++ tauto.
           ++ simpl in Ee. subst f. tauto.
           ++ right. exists e. tauto.
    + destruct (IH Hnd' Hread'
                  (dict_set (table_key filename)
                     (fst (validate_columns df cols filename)) d)
                  (log ++ Loading filename
                       :: snd (validate_columns df cols filename))%list)
        as (d' & log' & E & Hget & Hother & Hlog).
      exists d', log'. split; [exact E |]. split; [| split].
      * intros e [<- | He].
        -- cbn [fst]. rewrite Efs, (Hother _ Hnot). apply dict_get_set_same.
        -- rewrite (Hget e He). destruct (fs (file_path (fst e))); try reflexivity.
           all: apply dict_get_set_other; intros Ek; apply Hnot;
             rewrite <- Ek;
             apply (in_map (fun e => table_key (fst e))); exact He.
      * intros k Hk. rewrite Hother by (intros Hin; apply Hk; right; exact Hin).
        apply dict_get_set_other. intros Ek. apply Hk. left. symmetry. exact Ek.
      * intros f. rewrite Hlog, in_app_iff. simpl. split.
        -- intros [[H | [H | H]] | (e & He & Ee & Ef)].
           ++ left. exact H.
           ++ discriminate H.
           ++ exfalso. apply (validate_columns_no_FileNotFound _ _ _ _ H).
           ++ right. exists e. tauto.
        -- intros [H | (e & [<- | He] & Ee & Ef)].
           ++ tauto.
           ++ simpl in Ee. subst f. congruence.
           ++ right. exists e. tauto.
Qed.

Lemma schema_keys_are_transform_keys :
  map (fun e => table_key (fst e)) TABLE_SCHEMAS = transform_keys.
Proof. reflexivity. Qed.

Lemma transform_keys_NoDup : NoDup transform_keys.
Proof.
  unfold transform_keys. repeat constructor; simpl; intuition discriminate.
Qed.

(** [extract.py], lines 55-74: when no schema file is unreadable,
    extraction succeeds whatever is missing.  The dictionary holds, under
    the file name without ".csv", exactly the frames of the schema files
    that exist, each as it was read, mismatched columns included; the
    keys it can hold are the eight keys [transform] reads; a file that
    does not exist is reported once and its key is left out; and the
    last line of the log announces success. *)
Theorem extract_raw_data_skips_missing_files (fs : string -> file) :
  (forall e, In e TABLE_SCHEMAS -> fs (file_path (fst e)) <> Unreadable) ->
  exists dataframes log,
    extract_raw_data fs = Extracted dataframes (log ++ [ExtractCompleted])%list
    /\ (forall e, In e TABLE_SCHEMAS ->
          dict_get (table_key (fst e)) dataframes
          = match fs (file_path (fst e)) with
            | Csv df => Some df
            | _ => None
            end)
    /\ (forall k, ~ In k transform_keys -> dict_get k dataframes = None)
    /\ (forall f, In (FileNotFound f) log
                  <-> exists e, In e TABLE_SCHEMAS /\ fst e = f
                                /\ fs (file_path f) = NoFile).
Proof.
  intros Hread.
  destruct (extract_loop_readable fs TABLE_SCHEMAS
              ltac:(rewrite schema_keys_are_transform_keys;
                    exact transform_keys_NoDup)
              Hread [] [])
    as (d & log & E & Hget & Hother & Hlog).
  exists d, log. unfold extract_raw_data. rewrite E.
  split; [reflexivity |]. split; [| split].
  - intros e He. rewrite (Hget e He).
    destruct (fs (file_path (fst e))); reflexivity.
  - intros k Hk. rewrite Hother; [reflexivity |].
    rewrite schema_keys_are_transform_keys. exact Hk.
  - intros f. rewrite Hlog. simpl. tauto.
Qed.

Lemma extract_raw_data_skips_missing_files_witness :
  (forall e, In e TABLE_SCHEMAS -> (fun _ : string => NoFile) (file_path (fst e))
                                   <> Unreadable)
  /\ exists dataframes log,
       extract_raw_data (fun _ => NoFile)
       = Extracted dataframes (log ++ [ExtractCompleted])%list
       /\ dict_get "customers" dataframes = None.
Proof.
  assert (H : forall e, In e TABLE_SCHEMAS ->
                (fun _ : string => NoFile) (file_path (fst e)) <> Unreadable)
    by (intros e _; discriminate).
  split; [exact H |].
  destruct (extract_raw_data_skips_missing_files (fun _ => NoFile) H)
    as (d & log & E & Hget & _).
  exists d, log. split; [exact E |].
  exact (Hget ("customers.csv", snd (hd ("", []) TABLE_SCHEMAS))
              (or_introl eq_refl)).
Defined.

Lemma extract_loop_unreadable (fs : string -> file)
    (schemas : list (string * list string)) :
  (exists e, In e schemas /\ fs (file_path (fst e)) = Unreadable) ->
  forall dataframes log,
  exists filename log',
    extract_loop fs schemas dataframes log = ReadFailed filename log'
    /\ fs (file_path filename) = Unreadable
    /\ In filename (map fst schemas).
Proof.
  induction schemas as [| [filename cols] rest IH]; intros (e & He & Ee) d log.
  - destruct He.
  - cbn [extract_loop].
    destruct (fs (file_path filename)) as [| | df] eqn:Efs.
    + destruct He as [<- | He]; [simpl in Ee; congruence |].
      destruct (IH (ex_intro _ e (conj He Ee)) d
                  (log ++ [FileNotFound filename])%list)
        as (f & log' & E & Hf & Hin).
      exists f, log'. simpl. tauto.
    + exists filename, (log ++ [Loading filename])%list. simpl. tauto.
    + destruct He as [<- | He]; [simpl in Ee; congruence |].
      destruct (IH (ex_intro _ e (conj He Ee))
                  (dict_set (table_key filename)
                     (fst (validate_columns df cols filename)) d)
                  (log ++ Loading filename
                       :: snd (validate_columns df cols filename))%list)
        as (f & log' & E & Hf & Hin).
      exists f, log'. simpl. tauto.
Qed.

Lemma extract_loop_log_not_completed (fs : string -> file)
    (schemas : list (string * list string)) :
  forall dataframes log filename log',
    extract_loop fs schemas dataframes log = ReadFailed filename log' ->
    ~ In ExtractCompleted log -> ~ In ExtractCompleted log'.
Proof.
  induction schemas as [| [name cols] rest IH]; intros d log f log' E Hnot.
  - discriminate E.
  - cbn [extract_loop] in E.
    destruct (fs (file_path name)) as [| | df].
    + apply (IH _ _ _ _ E). rewrite in_app_iff. simpl. intuition discriminate.
    + injection E as _ <-. rewrite in_app_iff. simpl. intuition discriminate.
    + apply (IH _ _ _ _ E). rewrite in_app_iff. simpl.
      intros [H | [H | H]]; [tauto | discriminate H |].
      unfold validate_columns in H. cbn [snd] in H.
      destruct (is_empty _), (is_empty _); simpl in H; intuition discriminate.
Qed.

(** [extract.py], lines 60-71: a file that exists but cannot be
    read stops the extraction.  If some schema file is unreadable the
    call raises at such a file, returns no dictionary and never
    announces success, whatever the other files hold. *)
Theorem extract_raw_data_stops_at_unreadable_file (fs : string -> file) :
  (exists e, In e TABLE_SCHEMAS /\ fs (file_path (fst e)) = Unreadable) ->
  exists filename log,
    extract_raw_data fs = ReadFailed filename log
    /\ fs (file_path filename) = Unreadable
    /\ In filename (map fst TABLE_SCHEMAS)
    /\ ~ In ExtractCompleted log.
Proof.
  intros H.
  destruct (extract_loop_unreadable fs TABLE_SCHEMAS H [] [])
    as (f & log & E & Hf & Hin).
  exists f, log. unfold extract_raw_data. rewrite E.
  split; [reflexivity |]. split; [exact Hf |]. split; [exact Hin |].
  apply (extract_loop_log_not_completed fs TABLE_SCHEMAS [] [] f log E).
  intros [].
Qed.

Lemma extract_raw_data_stops_at_unreadable_file_witness :
  exists filename log,
    extract_raw_data
      (fun p => if String.eqb p "data/raw/stores.csv" then Unreadable else NoFile)
    = ReadFailed filename log
    /\ filename = "stores.csv".
Proof.
  destruct (extract_raw_data_stops_at_unreadable_file
              (fun p => if String.eqb p "data/raw/stores.csv"
                        then Unreadable else NoFile))
    as (f & log & E & _).
  - exists ("stores.csv", ["store_id"; "store_name"; "store_city";
                           "store_region"; "opening_date"]).
    split; [simpl; tauto | reflexivity].
  - exists f, log. split; [exact E |].
    vm_compute in E. injection E as <- _. reflexivity.
Defined.
